(** * Snowflake zero-copy cloning framework: clone engine, bulk orchestrator,
      RBAC manager and audit, embedded from
      [snowflake_clone_framework.py] and [rbac_manager.py].

    Conventions of the embedding.
    - Python [str] is [string]; an f-string is the concatenation of its
      parts ([fmt]).
    - [self.cursor] is the [World]: a deterministic warehouse that answers a
      statement as a function of the statements issued before it, and the
      list of statements issued so far.  [cursor.execute] followed by
      [cursor.fetchall] is one [execute] step that either yields rows or
      raises.
    - A Python exception is a constructor of [exn]; a computation that may
      raise returns an [outcome].  [try ... except Exception] is a [match]
      on the outcome.
    - A Python [dict] is an insertion-ordered association list ([odict]):
      assigning to a key that is present replaces the value in place.
    - A key of a configuration mapping that may be missing is an
      [option]; where a handler of the code decides what a null value
      under the key gives ([cloning] in [clone_database], the privileges
      of a role in [_apply_role_privileges]), the value is [nullable].
    - [datetime.now()] values (timestamps, operation ids) and logger calls
      are left out of the records: no property below reads them. *)

From Stdlib Require Import String Ascii List Bool Arith Lia.
Import ListNotations.
Open Scope string_scope.
Open Scope list_scope.

(* ------------------------------------------------------------------ *)
(** ** Python values *)

Module Py.

(** f"...{a}...{b}..." *)
Definition fmt (parts : list string) : string := String.concat "" parts.

(** Truth value of a [str]: the empty string is falsy. *)
Definition truthy (s : string) : bool :=
  match s with EmptyString => false | String _ _ => true end.

Definition upper_ascii (c : ascii) : ascii :=
  let n := nat_of_ascii c in
  if ((97 <=? n)%nat && (n <=? 122)%nat)%bool then ascii_of_nat (n - 32) else c.

(** [str.upper()], on ASCII letters. *)
Fixpoint upper (s : string) : string :=
  match s with
  | EmptyString => EmptyString
  | String c s' => String (upper_ascii c) (upper s')
  end.

(** The left-to-right scan of [str.replace(old, new)] for a non-empty
    [old]: at a position where [old] starts, [new] is emitted and the
    scan resumes after the occurrence ([skip] counts the characters of
    the occurrence still to be passed over); elsewhere the character is
    copied. *)
Fixpoint replace_from (skip : nat) (old new s : string) : string :=
  match s with
  | EmptyString => EmptyString
  | String c s' =>
      match skip with
      | S k => replace_from k old new s'
      | O =>
          if String.prefix old s
          then String.append new (replace_from (String.length old - 1) old new s')
          else String c (replace_from 0 old new s')
      end
  end.

(** [s.replace(old, new)]; for the empty [old] Python puts [new] before
    every character and at the end. *)
Fixpoint replace_empty (new s : string) : string :=
  match s with
  | EmptyString => new
  | String c s' => String.append new (String c (replace_empty new s'))
  end.

Definition replace (old new s : string) : string :=
  match old with
  | EmptyString => replace_empty new s
  | String _ _ => replace_from 0 old new s
  end.

(** [old in s] *)
Fixpoint contains (old s : string) : bool :=
  String.prefix old s ||
  match s with
  | EmptyString => false
  | String _ s' => contains old s'
  end.

(** Does the character [c] occur in [s]? *)
Fixpoint has_char (c : ascii) (s : string) : bool :=
  match s with
  | EmptyString => false
  | String b s' => Ascii.eqb c b || has_char c s'
  end.

(** A value that may be Python's [None].  Under an [option], which says
    whether a key of a mapping is present: [None] is a missing key,
    [Some IsNone] the key with a null value, [Some (NotNone v)] the key
    with the value [v]. *)
Inductive nullable (A : Type) : Type :=
| IsNone
| NotNone (a : A).
Arguments IsNone {A}.
Arguments NotNone {A} a.

(** A configuration key that may be missing, present with a null value
    ([None]) or present with a string. *)
Inductive field : Type :=
| Absent
| Null
| Str (s : string).

(** [d.get(key)] *)
Definition get (f : field) : option string :=
  match f with Str s => Some s | _ => None end.

(** [d.get(key, default)], the result as an f-string prints it. *)
Definition get_default (f : field) (default : string) : string :=
  match f with
  | Absent => default
  | Null => "None"
  | Str s => s
  end.

Inductive exn : Type :=
| DatabaseError
| IndexError
| KeyError
| AttributeError
| TypeError.

Inductive outcome (A : Type) : Type :=
| Returns (a : A)
| Raises (e : exn).
Arguments Returns {A} a.
Arguments Raises {A} e.

(** Insertion-ordered dictionaries with string keys. *)
Definition odict (V : Type) : Type := list (string * V).

Fixpoint dict_set {V : Type} (d : odict V) (k : string) (v : V) : odict V :=
  match d with
  | [] => [(k, v)]
  | (k', v') :: d' =>
      if String.eqb k' k then (k', v) :: d' else (k', v') :: dict_set d' k v
  end.

Fixpoint dict_get {V : Type} (d : odict V) (k : string) : option V :=
  match d with
  | [] => None
  | (k', v') :: d' => if String.eqb k' k then Some v' else dict_get d' k
  end.

Definition dict_mem {V : Type} (d : odict V) (k : string) : bool :=
  match dict_get d k with Some _ => true | None => false end.

Definition keys {V : Type} (d : odict V) : list string := map fst d.
Definition values {V : Type} (d : odict V) : list V := map snd d.

(** [t[i]] on a tuple of cells. *)
Definition index (t : list string) (i : nat) : outcome string :=
  match nth_error t i with
  | Some c => Returns c
  | None => Raises IndexError
  end.

(** [t[i] if len(t) > i else None] *)
Definition index_opt (t : list string) (i : nat) : option string :=
  if (i <? List.length t)%nat then nth_error t i else None.

(** An optional argument after [if x is None: x = default]. *)
Definition or_else (o : option string) (default : string) : string :=
  match o with Some s => s | None => default end.

(** The elements a loop guarded by [if key in d] goes over. *)
Definition listed {C : Type} (l : option (list C)) : list C :=
  match l with Some cs => cs | None => [] end.

(** [if key in d: for c in d[key]: body], threading the state the body
    updates. *)
Definition for_each {C S : Type} (body : S -> C -> S) (l : option (list C)) (st : S) : S :=
  match l with
  | Some cs => fold_left body cs st
  | None => st
  end.

(** [for c in cs: body] where the body may raise: the loop ends at the
    first exception, and the state is the one the iterations before it
    left.  The result is the exception, if there was one, and the state. *)
Fixpoint for_raising {C S : Type} (body : S -> C -> outcome S) (cs : list C) (st : S)
  : option exn * S :=
  match cs with
  | [] => (None, st)
  | c :: rest =>
      match body st c with
      | Returns st1 => for_raising body rest st1
      | Raises e => (Some e, st)
      end
  end.

(** [if key in d: for c in d[key]: body] where the value under the key
    may be null: iterating over [None] raises. *)
Definition for_each_raising {C S : Type} (body : S -> C -> outcome S)
           (l : option (nullable (list C))) (st : S) : option exn * S :=
  match l with
  | None => (None, st)
  | Some IsNone => (Some TypeError, st)
  | Some (NotNone cs) => for_raising body cs st
  end.

(** Two blocks one after the other: the second one runs when the first
    one did not raise. *)
Definition and_then {S : Type} (r : option exn * S) (k : S -> option exn * S)
  : option exn * S :=
  match r with
  | (None, st) => k st
  | (Some e, st) => (Some e, st)
  end.

Definition lower_ascii (c : ascii) : ascii :=
  let n := nat_of_ascii c in
  if ((65 <=? n)%nat && (n <=? 90)%nat)%bool then ascii_of_nat (n + 32) else c.

(** [str.lower()], on ASCII letters. *)
Fixpoint lower (s : string) : string :=
  match s with
  | EmptyString => EmptyString
  | String c s' => String (lower_ascii c) (lower s')
  end.

(** The dictionary left by the assignments [d[k] = v] of [l], made in
    this order on [d]. *)
Definition assigned {V : Type} (d : odict V) (l : list (string * V)) : odict V :=
  fold_left (fun d p => dict_set d (fst p) (snd p)) l d.

End Py.
Import Py.

(* ------------------------------------------------------------------ *)
(** ** The warehouse behind [self.cursor] *)

Definition Row : Type := list string.

Inductive Response : Type :=
| Rows (rs : list Row)
| Failure.

Record World : Type := mkWorld {
  responds : list string -> string -> Response;
  issued : list string
}.

(** [self.cursor.execute(sql)] (and [fetchall()] where the caller reads
    rows): the statement is recorded, and the warehouse either answers
    with rows or the call raises. *)
Definition execute (w : World) (sql : string) : outcome (list Row) * World :=
  let w' := mkWorld (responds w) (issued w ++ [sql]) in
  match responds w (issued w) sql with
  | Rows rs => (Returns rs, w')
  | Failure => (Raises DatabaseError, w')
  end.

(** [after w w' new]: [w'] is [w] after exactly the statements [new] were
    issued, in that order. *)
Definition after (w w' : World) (new : list string) : Prop :=
  responds w' = responds w /\ issued w' = issued w ++ new.

(** Would the warehouse accept [sql] as the next statement? *)
Definition accepted (w : World) (sql : string) : bool :=
  match responds w (issued w) sql with
  | Rows _ => true
  | Failure => false
  end.

(** Every statement of [stmts], issued in this order from [w], is
    answered with rows. *)
Fixpoint all_accepted (w : World) (stmts : list string) : bool :=
  match stmts with
  | [] => true
  | sql :: rest =>
      match execute w sql with
      | (Returns _, w1) => all_accepted w1 rest
      | (Raises _, _) => false
      end
  end.

(** The world after the statements [stmts] were issued to [w]. *)
Definition issue (w : World) (stmts : list string) : World :=
  mkWorld (responds w) (issued w ++ stmts).

(** The answers of the warehouse to the statements of [stmts], each one
    issued whatever the answers before it were: was it accepted? *)
Fixpoint answers (w : World) (stmts : list string) : list bool :=
  match stmts with
  | [] => []
  | sql :: rest => accepted w sql :: answers (issue w [sql]) rest
  end.

(** A warehouse that accepts every statement and returns no rows, and one
    that rejects exactly the statements of [bad]. *)
Definition accepting : World := mkWorld (fun _ _ => Rows []) [].

Definition rejecting (bad : list string) : World :=
  mkWorld (fun _ sql => if existsb (String.eqb sql) bad then Failure else Rows []) [].

(* ------------------------------------------------------------------ *)
(** ** snowflake_clone_framework.py *)

Module CloneFramework.

Record Cloning : Type := mkCloning { at_time : option string }.

(** [self.config], as far as the engine reads it: the key [cloning] may be
    missing, null, or hold a mapping.  ([self.config] itself is a mapping:
    the constructor has already called [self.config.get].) *)
Record Config : Type := mkConfig { cloning : option (nullable Cloning) }.

(** [self.config.get('cloning', {}).get('at_time')]: the default [{}]
    stands in for a missing key only; on a null [cloning] the second
    [get] is called on [None] and raises. *)
Definition config_at_time (cfg : Config) : outcome (option string) :=
  match cloning cfg with
  | None => Returns None
  | Some IsNone => Raises AttributeError
  | Some (NotNone c) => Returns (at_time c)
  end.

(** The statement [clone_database] builds: the AT clause is added for
    the mode AT_TIME when the configuration holds a non-empty timestamp.
    The configuration is read in the mode AT_TIME only. *)
Definition clone_database_sql (cfg : Config) (source_db target_db clone_type : string)
  : outcome string :=
  let clone_sql := fmt ["CREATE DATABASE "; target_db; " CLONE "; source_db] in
  if String.eqb (upper clone_type) "AT_TIME" then
    match config_at_time cfg with
    | Raises e => Raises e
    | Returns (Some t) =>
        if truthy t
        then Returns (String.append clone_sql (fmt [" AT (TIMESTAMP => '"; t; "')"]))
        else Returns clone_sql
    | Returns None => Returns clone_sql
    end
  else Returns clone_sql.

(** The body runs under [try ... except Exception: return False], as do
    the bodies of [clone_schema] and [clone_table]: an exception raised
    while the statement is built is caught before anything is issued. *)
Definition clone_database (cfg : Config) (w : World)
           (source_db target_db clone_type : string) : bool * World :=
  match clone_database_sql cfg source_db target_db clone_type with
  | Raises _ => (false, w)
  | Returns clone_sql =>
      match execute w clone_sql with
      | (Returns _, w1) => (true, w1)
      | (Raises _, w1) => (false, w1)
      end
  end.

Definition clone_schema (w : World) (source_db source_schema target_db : string)
           (target_schema : option string) : bool * World :=
  let target_schema := or_else target_schema source_schema in
  match execute w (fmt ["CREATE DATABASE IF NOT EXISTS "; target_db]) with
  | (Raises _, w1) => (false, w1)
  | (Returns _, w1) =>
      let clone_sql :=
        fmt ["CREATE SCHEMA "; target_db; "."; target_schema;
             " CLONE "; source_db; "."; source_schema] in
      match execute w1 clone_sql with
      | (Returns _, w2) => (true, w2)
      | (Raises _, w2) => (false, w2)
      end
  end.

(** The two qualified names [clone_table] puts in its clone statement. *)
Definition table_target_path (source_schema source_table target_db : string)
           (target_schema target_table : option string) : string :=
  let target_schema := or_else target_schema source_schema in
  let target_table := or_else target_table source_table in
  fmt [target_db; "."; target_schema; "."; target_table].

Definition table_source_path (source_db source_schema source_table : string) : string :=
  fmt [source_db; "."; source_schema; "."; source_table].

Definition clone_table (w : World) (source_db source_schema source_table target_db : string)
           (target_schema target_table : option string) : bool * World :=
  let target_schema' := or_else target_schema source_schema in
  match execute w (fmt ["CREATE DATABASE IF NOT EXISTS "; target_db]) with
  | (Raises _, w1) => (false, w1)
  | (Returns _, w1) =>
      match execute w1 (fmt ["CREATE SCHEMA IF NOT EXISTS "; target_db; "."; target_schema']) with
      | (Raises _, w2) => (false, w2)
      | (Returns _, w2) =>
          let clone_sql :=
            fmt ["CREATE TABLE ";
                 table_target_path source_schema source_table target_db target_schema target_table;
                 " CLONE ";
                 table_source_path source_db source_schema source_table] in
          match execute w2 clone_sql with
          | (Returns _, w3) => (true, w3)
          | (Raises _, w3) => (false, w3)
          end
      end
  end.

(** *** Bulk orchestrator *)

Record DbConfig : Type := mkDb { db_source : string; db_target : string }.

Record SchemaConfig : Type := mkSchema {
  sc_source_db : string;
  sc_source_schema : string;
  sc_target_db : string;
  sc_target_schema : field
}.

Record TableConfig : Type := mkTable {
  tc_source_db : string;
  tc_source_schema : string;
  tc_source_table : string;
  tc_target_db : string;
  tc_target_schema : field;
  tc_target_table : field
}.

(** [operation_config]: each list may be missing. *)
Record OperationConfig : Type := mkOperation {
  oc_databases : option (list DbConfig);
  oc_schemas : option (list SchemaConfig);
  oc_tables : option (list TableConfig)
}.

Record ItemResult : Type := mkItem { source : string; success : bool }.

Record Summary : Type := mkSummary {
  total_operations : nat;
  successful_operations : nat;
  failed_operations : nat
}.

Record BulkResults : Type := mkResults {
  databases : odict ItemResult;
  schemas : odict ItemResult;
  tables : odict ItemResult;
  summary : Summary
}.

(** The three counter updates that follow every clone call. *)
Definition count (s : Summary) (ok : bool) : Summary :=
  mkSummary (total_operations s + 1)
            (if ok then successful_operations s + 1 else successful_operations s)
            (if ok then failed_operations s else failed_operations s + 1).

Definition database_key (c : DbConfig) : string := db_target c.

Definition schema_key (c : SchemaConfig) : string :=
  fmt [sc_target_db c; "."; get_default (sc_target_schema c) (sc_source_schema c)].

Definition table_key (c : TableConfig) : string :=
  fmt [tc_target_db c; ".";
       get_default (tc_target_schema c) (tc_source_schema c); ".";
       get_default (tc_target_table c) (tc_source_table c)].

Definition bulk_database (cfg : Config) (st : World * BulkResults) (c : DbConfig)
  : World * BulkResults :=
  let (w, r) := st in
  let (ok, w1) := clone_database cfg w (db_source c) (db_target c) "ZERO_COPY" in
  (w1, mkResults (dict_set (databases r) (database_key c) (mkItem (db_source c) ok))
                 (schemas r) (tables r) (count (summary r) ok)).

Definition bulk_schema (st : World * BulkResults) (c : SchemaConfig)
  : World * BulkResults :=
  let (w, r) := st in
  let (ok, w1) :=
    clone_schema w (sc_source_db c) (sc_source_schema c) (sc_target_db c)
                 (get (sc_target_schema c)) in
  (w1, mkResults (databases r)
                 (dict_set (schemas r) (schema_key c)
                           (mkItem (fmt [sc_source_db c; "."; sc_source_schema c]) ok))
                 (tables r) (count (summary r) ok)).

Definition bulk_table (st : World * BulkResults) (c : TableConfig)
  : World * BulkResults :=
  let (w, r) := st in
  let (ok, w1) :=
    clone_table w (tc_source_db c) (tc_source_schema c) (tc_source_table c)
                (tc_target_db c) (get (tc_target_schema c)) (get (tc_target_table c)) in
  (w1, mkResults (databases r) (schemas r)
                 (dict_set (tables r) (table_key c)
                           (mkItem (fmt [tc_source_db c; "."; tc_source_schema c; ".";
                                         tc_source_table c]) ok))
                 (count (summary r) ok)).

Definition bulk_clone_operation (cfg : Config) (w : World) (oc : OperationConfig)
  : BulkResults * World :=
  let results := mkResults [] [] [] (mkSummary 0 0 0) in
  let st := (w, results) in
  let st := for_each (bulk_database cfg) (oc_databases oc) st in
  let st := for_each bulk_schema (oc_schemas oc) st in
  let st := for_each bulk_table (oc_tables oc) st in
  (snd st, fst st).

(** *** Clone history and validation *)

Record CloneInfo : Type := mkClone {
  source_object : string;
  clone_object : string;
  created_on : string;
  clone_type : option string
}.

(** One iteration of the loop over the rows of SHOW CLONES. *)
Definition clone_info (clone : Row) : outcome CloneInfo :=
  match index clone 0 with
  | Raises e => Raises e
  | Returns c0 =>
      match index clone 1 with
      | Raises e => Raises e
      | Returns c1 =>
          match index clone 2 with
          | Raises e => Raises e
          | Returns c2 => Returns (mkClone c0 c1 c2 (index_opt clone 3))
          end
      end
  end.

Fixpoint clone_infos (clones : list Row) : outcome (list CloneInfo) :=
  match clones with
  | [] => Returns []
  | clone :: rest =>
      match clone_info clone with
      | Raises e => Raises e
      | Returns i =>
          match clone_infos rest with
          | Raises e => Raises e
          | Returns infos => Returns (i :: infos)
          end
      end
  end.

Definition get_clone_history (w : World) (object_name : option string)
  : list CloneInfo * World :=
  let query :=
    match object_name with
    | Some n => if truthy n then fmt ["SHOW CLONES LIKE '"; n; "'"] else "SHOW CLONES"
    | None => "SHOW CLONES"
    end in
  match execute w query with
  | (Raises _, w1) => ([], w1)
  | (Returns clones, w1) =>
      match clone_infos clones with
      | Returns h => (h, w1)
      | Raises _ => ([], w1)
      end
  end.

Inductive Status : Type := SUCCESS | FAILED.

Record Checks : Type := mkChecks {
  target_exists : bool;
  source_accessible : bool;
  clone_relationship : bool
}.

Record ValidationResult : Type := mkValidation {
  v_source : string;
  v_target : string;
  checks : Checks;
  overall_status : Status;
  v_error : option string
}.

(** [try: execute("DESCRIBE obj"); flag = True  except: pass] *)
Definition describable (w : World) (obj : string) : bool * World :=
  match execute w (fmt ["DESCRIBE "; obj]) with
  | (Returns _, w1) => (true, w1)
  | (Raises _, w1) => (false, w1)
  end.

(** The loop over the history that stops at the first matching edge. *)
Definition has_edge (clones : list CloneInfo) (source_obj target_obj : string) : bool :=
  existsb (fun clone => String.eqb (source_object clone) source_obj
                        && String.eqb (clone_object clone) target_obj) clones.

(** [all(validation_result['checks'].values())] *)
Definition all_checks (c : Checks) : bool :=
  target_exists c && source_accessible c && clone_relationship c.

Definition validate_clone_operation (w : World) (source_obj target_obj : string)
  : ValidationResult * World :=
  let (src_ok, w1) := describable w source_obj in
  let (tgt_ok, w2) := describable w1 target_obj in
  let (clones, w3) := get_clone_history w2 (Some target_obj) in
  let c := mkChecks tgt_ok src_ok (has_edge clones source_obj target_obj) in
  (mkValidation source_obj target_obj c
                (if all_checks c then SUCCESS else FAILED) None, w3).

(** *** Discovery *)

Record TableDetails : Type := mkTableDetails {
  td_name : string;
  td_created_on : string;
  td_database_name : string;
  td_schema_name : string;
  td_kind : string;
  td_comment : option string
}.

Record SchemaEntry : Type := mkSchemaEntry {
  se_tables : list TableDetails;
  table_count : nat
}.

Record Structure : Type := mkStructure {
  st_database : string;
  st_schemas : odict SchemaEntry;
  total_tables : nat
}.

(** [table_name = table_info[1]] and the dictionary built from the
    columns 0, 2, 3, 4 and, when there is one, 5. *)
Definition table_details (table_info : Row) : outcome TableDetails :=
  match index table_info 1 with
  | Raises e => Raises e
  | Returns table_name =>
      match index table_info 0 with
      | Raises e => Raises e
      | Returns c0 =>
          match index table_info 2 with
          | Raises e => Raises e
          | Returns c2 =>
              match index table_info 3 with
              | Raises e => Raises e
              | Returns c3 =>
                  match index table_info 4 with
                  | Raises e => Raises e
                  | Returns c4 =>
                      Returns (mkTableDetails table_name c0 c2 c3 c4
                                              (index_opt table_info 5))
                  end
              end
          end
      end
  end.

(** The loop over the rows of SHOW TABLES appends to the tables of the
    schema; a row that is too short ends it, and what was appended
    stays. *)
Fixpoint discover_tables (tables : list Row) (acc : list TableDetails)
  : option exn * list TableDetails :=
  match tables with
  | [] => (None, acc)
  | table_info :: rest =>
      match table_details table_info with
      | Raises e => (Some e, acc)
      | Returns d => discover_tables rest (acc ++ [d])
      end
  end.

Definition show_tables (source_database schema_name : string) : string :=
  fmt ["SHOW TABLES IN SCHEMA "; source_database; "."; schema_name].

(** The body of the loop over the schemas, after [schema_name] was read:
    the entry of the schema is reset, and the listing of its tables runs
    under its own [try ... except Exception]. *)
Definition discover_schema_step (source_database : string) (st : World * Structure)
           (schema_name : string) : World * Structure :=
  let (w, s) := st in
  let schemas1 := dict_set (st_schemas s) schema_name (mkSchemaEntry [] 0) in
  match execute w (show_tables source_database schema_name) with
  | (Raises _, w1) => (w1, mkStructure (st_database s) schemas1 (total_tables s))
  | (Returns tables, w1) =>
      match discover_tables tables [] with
      | (Some _, ds) =>
          (w1, mkStructure (st_database s)
                           (dict_set schemas1 schema_name (mkSchemaEntry ds 0))
                           (total_tables s))
      | (None, ds) =>
          (w1, mkStructure (st_database s)
                           (dict_set schemas1 schema_name
                                     (mkSchemaEntry ds (List.length tables)))
                           (total_tables s + List.length tables))
      end
  end.

(** The loop over the rows of SHOW SCHEMAS; a row too short for
    [schema_info[1]] raises, and the exception leaves the function. *)
Fixpoint discover_schemas (source_database : string) (schemas : list Row)
         (st : World * Structure) : outcome Structure * World :=
  match schemas with
  | [] => (Returns (snd st), fst st)
  | schema_info :: rest =>
      match index schema_info 1 with
      | Raises e => (Raises e, fst st)
      | Returns schema_name =>
          discover_schemas source_database rest
                           (discover_schema_step source_database st schema_name)
      end
  end.

Definition show_schemas (source_database : string) : string :=
  fmt ["SHOW SCHEMAS IN DATABASE "; source_database].

(** The outer [try ... except Exception: raise] lets every failure out. *)
Definition discover_source_structure (w : World) (source_database : string)
  : outcome Structure * World :=
  let structure := mkStructure source_database [] 0 in
  match execute w (show_schemas source_database) with
  | (Raises e, w1) => (Raises e, w1)
  | (Returns schemas, w1) => discover_schemas source_database schemas (w1, structure)
  end.

(** The sum of the table counts of the schemas of a structure. *)
Definition counted (d : odict SchemaEntry) : nat :=
  list_sum (map table_count (values d)).

(** What the loop over the schema rows keeps true. *)
Definition discovered (s : Structure) : Prop :=
  (forall n e, dict_get (st_schemas s) n = Some e ->
               table_count e = List.length (se_tables e) \/ table_count e = 0) /\
  counted (st_schemas s) <= total_tables s.

(** *** The bulk run seen as one loop

    The three loops of [bulk_clone_operation] run one after the other
    over the database, schema and table requests.  The definitions
    below name the requests of an operation set in that order, the
    engine call each one gets, and the entry it leaves in the report. *)

Inductive Level : Type := DATABASE | SCHEMA | TABLE.

Inductive Request : Type :=
| DatabaseRequest (c : DbConfig)
| SchemaRequest (c : SchemaConfig)
| TableRequest (c : TableConfig).

Definition requests (oc : OperationConfig) : list Request :=
  map DatabaseRequest (listed (oc_databases oc))
  ++ map SchemaRequest (listed (oc_schemas oc))
  ++ map TableRequest (listed (oc_tables oc)).

Definition level (q : Request) : Level :=
  match q with
  | DatabaseRequest _ => DATABASE
  | SchemaRequest _ => SCHEMA
  | TableRequest _ => TABLE
  end.

Definition level_eqb (a b : Level) : bool :=
  match a, b with
  | DATABASE, DATABASE | SCHEMA, SCHEMA | TABLE, TABLE => true
  | _, _ => false
  end.

(** The key under which the outcome of a request is stored. *)
Definition key (q : Request) : string :=
  match q with
  | DatabaseRequest c => database_key c
  | SchemaRequest c => schema_key c
  | TableRequest c => table_key c
  end.

Definition item_source (q : Request) : string :=
  match q with
  | DatabaseRequest c => db_source c
  | SchemaRequest c => fmt [sc_source_db c; "."; sc_source_schema c]
  | TableRequest c =>
      fmt [tc_source_db c; "."; tc_source_schema c; "."; tc_source_table c]
  end.

(** The per-item map of a level. *)
Definition items (r : BulkResults) (lv : Level) : odict ItemResult :=
  match lv with
  | DATABASE => databases r
  | SCHEMA => schemas r
  | TABLE => tables r
  end.

(** The engine call the orchestrator makes for a request. *)
Definition call (cfg : Config) (w : World) (q : Request) : bool * World :=
  match q with
  | DatabaseRequest c => clone_database cfg w (db_source c) (db_target c) "ZERO_COPY"
  | SchemaRequest c =>
      clone_schema w (sc_source_db c) (sc_source_schema c) (sc_target_db c)
                   (get (sc_target_schema c))
  | TableRequest c =>
      clone_table w (tc_source_db c) (tc_source_schema c) (tc_source_table c)
                  (tc_target_db c) (get (tc_target_schema c)) (get (tc_target_table c))
  end.

(** The first statement the engine issues for a request. *)
Definition opening_statement (q : Request) : string :=
  match q with
  | DatabaseRequest c => fmt ["CREATE DATABASE "; db_target c; " CLONE "; db_source c]
  | SchemaRequest c => fmt ["CREATE DATABASE IF NOT EXISTS "; sc_target_db c]
  | TableRequest c => fmt ["CREATE DATABASE IF NOT EXISTS "; tc_target_db c]
  end.

(** The engine called on each request in turn: the outcomes and the
    world reached. *)
Fixpoint run (cfg : Config) (w : World) (qs : list Request) : list bool * World :=
  match qs with
  | [] => ([], w)
  | q :: rest =>
      let (ok, w1) := call cfg w q in
      let (oks, w2) := run cfg w1 rest in
      (ok :: oks, w2)
  end.

(** One iteration of whichever loop the request belongs to. *)
Definition bulk_step (cfg : Config) (st : World * BulkResults) (q : Request)
  : World * BulkResults :=
  match q with
  | DatabaseRequest c => bulk_database cfg st c
  | SchemaRequest c => bulk_schema st c
  | TableRequest c => bulk_table st c
  end.

(** What an iteration writes into the report. *)
Definition record (r : BulkResults) (q : Request) (ok : bool) : BulkResults :=
  let item := mkItem (item_source q) ok in
  match level q with
  | DATABASE => mkResults (dict_set (databases r) (key q) item) (schemas r) (tables r)
                          (count (summary r) ok)
  | SCHEMA => mkResults (databases r) (dict_set (schemas r) (key q) item) (tables r)
                        (count (summary r) ok)
  | TABLE => mkResults (databases r) (schemas r) (dict_set (tables r) (key q) item)
                       (count (summary r) ok)
  end.

(** The report after a list of outcomes was written into it. *)
Definition recorded (r : BulkResults) (l : list (Request * bool)) : BulkResults :=
  fold_left (fun r p => record r (fst p) (snd p)) l r.

(** Number of entries over the three per-item maps. *)
Definition entries (r : BulkResults) : nat :=
  List.length (databases r) + List.length (schemas r) + List.length (tables r).

(** Number of entries of the three per-item maps whose [success] is
    true. *)
Definition succeeded (r : BulkResults) : nat :=
  List.length (filter success (values (databases r)))
  + List.length (filter success (values (schemas r)))
  + List.length (filter success (values (tables r))).

(** The map and the key a request is stored under. *)
Definition level_key (q : Request) : Level * string := (level q, key q).

(** *** Qualified names *)

(** Number of dot-separated segments of a qualified name. *)
Fixpoint segments (s : string) : nat :=
  match s with
  | EmptyString => 1
  | String c s' => if Ascii.eqb c "."%char then S (segments s') else segments s'
  end.

Fixpoint dot_free (s : string) : bool :=
  match s with
  | EmptyString => true
  | String c s' => negb (Ascii.eqb c "."%char) && dot_free s'
  end.

End CloneFramework.

(* ------------------------------------------------------------------ *)
(** ** rbac_manager.py *)

Module RBACManager.

(** One entry of a section of [privileges], as the configuration file
    may give it: each of the keys [privilege] and [objects] may be missing
    or null.  (The elements of a list are not null: a section is a list
    of mappings, and [objects] a list of strings.) *)
Record EntryConfig : Type := mkEntryConfig {
  e_privilege : option (nullable string);
  e_objects : option (nullable (list string))
}.

(** [role_config['privileges']]: the section of each object type may be
    missing or null. *)
Record PrivilegesConfig : Type := mkPrivilegesConfig {
  c_databases : option (nullable (list EntryConfig));
  c_schemas : option (nullable (list EntryConfig));
  c_tables : option (nullable (list EntryConfig));
  c_views : option (nullable (list EntryConfig));
  c_warehouses : option (nullable (list EntryConfig))
}.

(** The well-formed configurations: an entry with both keys, a section
    that is missing or a list of such entries. *)
Record PrivilegeEntry : Type := mkEntry {
  privilege : string;
  objects : list string
}.

Record Privileges : Type := mkPrivileges {
  p_databases : option (list PrivilegeEntry);
  p_schemas : option (list PrivilegeEntry);
  p_tables : option (list PrivilegeEntry);
  p_views : option (list PrivilegeEntry);
  p_warehouses : option (list PrivilegeEntry)
}.

Definition entry_config (p : PrivilegeEntry) : EntryConfig :=
  mkEntryConfig (Some (NotNone (privilege p))) (Some (NotNone (objects p))).

Definition section_config (l : option (list PrivilegeEntry))
  : option (nullable (list EntryConfig)) :=
  match l with
  | Some ps => Some (NotNone (map entry_config ps))
  | None => None
  end.

Definition privileges_config (p : Privileges) : PrivilegesConfig :=
  mkPrivilegesConfig (section_config (p_databases p)) (section_config (p_schemas p))
                     (section_config (p_tables p)) (section_config (p_views p))
                     (section_config (p_warehouses p)).

(** A role of [service_roles] or [system_full_roles]; the key
    [privileges] may be missing or null. *)
Record RoleConfig : Type := mkRole {
  name : string;
  description : option string;
  privileges : option (nullable PrivilegesConfig)
}.

Record Hierarchy : Type := mkHierarchy {
  parent : string;
  children : list string
}.

Record UserConfig : Type := mkUser {
  username : string;
  roles : list string
}.

(** [self.rbac_config]; a list that is missing reads as the empty list,
    and [user_assignments] maps a group name to its users. *)
Record RbacConfig : Type := mkRbac {
  service_roles : list RoleConfig;
  system_full_roles : list RoleConfig;
  role_hierarchy : list Hierarchy;
  user_assignments : odict (list UserConfig)
}.

(** *** Role creation *)

Definition _create_role (w : World) (role_name description : string) : bool * World :=
  let create_sql := fmt ["CREATE ROLE IF NOT EXISTS "; role_name] in
  let create_sql :=
    if truthy description
    then String.append create_sql (fmt [" COMMENT = '"; description; "'"])
    else create_sql in
  match execute w create_sql with
  | (Returns _, w1) => (true, w1)
  | (Raises _, w1) => (false, w1)
  end.

Definition create_role_step (st : World * odict bool) (role_config : RoleConfig)
  : World * odict bool :=
  let (w, results) := st in
  let role_name := name role_config in
  let description :=
    match description role_config with Some d => d | None => "" end in
  let (ok, w1) := _create_role w role_name description in
  (w1, dict_set results role_name ok).

Definition create_service_roles (cfg : RbacConfig) (w : World) (target_database : string)
  : odict bool * World :=
  let st := fold_left create_role_step (service_roles cfg) (w, []) in
  (snd st, fst st).

Definition create_system_full_roles (cfg : RbacConfig) (w : World) (target_database : string)
  : odict bool * World :=
  let st := fold_left create_role_step (system_full_roles cfg) (w, []) in
  (snd st, fst st).

(** *** Privileges *)

Definition placeholder : string := "${TARGET_DATABASE}".

Definition _substitute_variables (objects : list string) (target_database : string)
  : list string :=
  map (fun obj => replace placeholder target_database obj) objects.

Definition grant_sql (privilege object_type obj role : string) : string :=
  if String.eqb (upper privilege) "ALL"
  then fmt ["GRANT ALL PRIVILEGES ON "; object_type; " "; obj; " TO ROLE "; role]
  else fmt ["GRANT "; privilege; " ON "; object_type; " "; obj; " TO ROLE "; role].

(** The loop of [_grant_privilege]: the first statement that fails ends
    it, and so does [privilege.upper()] on a null privilege, before any
    statement. *)
Fixpoint grant_each (w : World) (privilege : nullable string) (object_type : string)
         (objects : list string) (role : string) : outcome unit * World :=
  match objects with
  | [] => (Returns tt, w)
  | obj :: rest =>
      match privilege with
      | IsNone => (Raises AttributeError, w)
      | NotNone privilege' =>
          match execute w (grant_sql privilege' object_type obj role) with
          | (Returns _, w1) => grant_each w1 privilege object_type rest role
          | (Raises e, w1) => (Raises e, w1)
          end
      end
  end.

(** The loop runs under [try ... except Exception: return False]; the
    iteration over null [objects] raises inside it. *)
Definition _grant_privilege (w : World) (privilege : nullable string) (object_type : string)
           (objects : nullable (list string)) (role : string) : bool * World :=
  match objects with
  | IsNone => (false, w)
  | NotNone objs =>
      match grant_each w privilege object_type objs role with
      | (Returns _, w1) => (true, w1)
      | (Raises _, w1) => (false, w1)
      end
  end.

(** [privilege_info]: the privilege and the objects as the entry holds
    them. *)
Record PrivilegeInfo : Type := mkInfo {
  pi_type : string;
  pi_privilege : nullable string;
  pi_objects : nullable (list string)
}.

(** The result of a role; an error message is named by the exception
    whose text it is. *)
Record RoleResult : Type := mkRoleResult {
  role : string;
  success : bool;
  applied_privileges : list PrivilegeInfo;
  failed_privileges : list PrivilegeInfo;
  error_messages : list exn
}.

(** The body shared by the five loops of [_apply_role_privileges]; the
    loops differ in the type label, the object type of the statement and
    in whether the objects go through [_substitute_variables].  The
    arguments of [_grant_privilege] are evaluated first, in this order:
    [entry['privilege']] and [entry['objects']] raise on a missing key,
    and [_substitute_variables] raises on null objects.  Nothing has been
    issued or recorded for the entry when one of them raises. *)
Definition apply_entry (type_label object_type : string) (substitute : bool)
           (role_name target_database : string)
           (st : World * RoleResult) (p : EntryConfig) : outcome (World * RoleResult) :=
  let (w, result) := st in
  match e_privilege p with
  | None => Raises KeyError
  | Some privilege =>
      match e_objects p with
      | None => Raises KeyError
      | Some objects =>
          let substituted :=
            if substitute then
              match objects with
              | IsNone => Raises TypeError
              | NotNone objs =>
                  Returns (NotNone (_substitute_variables objs target_database))
              end
            else Returns objects in
          match substituted with
          | Raises e => Raises e
          | Returns objs =>
              let (ok, w1) := _grant_privilege w privilege object_type objs role_name in
              let privilege_info := mkInfo type_label privilege objects in
              if ok
              then Returns (w1, mkRoleResult (role result) (success result)
                                             (applied_privileges result ++ [privilege_info])
                                             (failed_privileges result)
                                             (error_messages result))
              else Returns (w1, mkRoleResult (role result) false
                                             (applied_privileges result)
                                             (failed_privileges result ++ [privilege_info])
                                             (error_messages result))
          end
      end
  end.

(** [{}], the default of [role_config.get('privileges', {})]. *)
Definition no_privileges : PrivilegesConfig :=
  mkPrivilegesConfig None None None None None.

(** The five loops run under one [try]; the first exception ends them
    all, and the handler clears [success] and appends the message.  On
    null [privileges] the first test ['databases' in privileges]
    raises. *)
Definition _apply_role_privileges (w : World) (role_name : string)
           (privileges : nullable PrivilegesConfig) (target_database : string)
  : RoleResult * World :=
  let result := mkRoleResult role_name true [] [] [] in
  let tried :=
    match privileges with
    | IsNone => (Some TypeError, (w, result))
    | NotNone privileges =>
        and_then
          (for_each_raising (apply_entry "database" "DATABASE" true role_name target_database)
                            (c_databases privileges) (w, result)) (fun st =>
        and_then
          (for_each_raising (apply_entry "schema" "SCHEMA" true role_name target_database)
                            (c_schemas privileges) st) (fun st =>
        and_then
          (for_each_raising (apply_entry "table" "TABLE" true role_name target_database)
                            (c_tables privileges) st) (fun st =>
        and_then
          (for_each_raising (apply_entry "view" "VIEW" true role_name target_database)
                            (c_views privileges) st) (fun st =>
        for_each_raising (apply_entry "warehouse" "WAREHOUSE" false role_name target_database)
                         (c_warehouses privileges) st))))
    end in
  match tried with
  | (None, (w1, result)) => (result, w1)
  | (Some e, (w1, result)) =>
      (mkRoleResult (role result) false (applied_privileges result)
                    (failed_privileges result) (error_messages result ++ [e]), w1)
  end.

Record PrivilegesSummary : Type := mkPSummary {
  total_roles : nat;
  successful_roles : nat;
  failed_roles : nat
}.

Record PrivilegesResult : Type := mkPResult {
  pr_target_database : string;
  pr_roles : odict RoleResult;
  pr_summary : PrivilegesSummary
}.

(** [self.rbac_config.get(role_type, [])] read as a list of role
    configurations.  Naming the hierarchy or the user assignments as a
    role type makes the first [role_config['name']] raise. *)
Definition roles_of_type (cfg : RbacConfig) (role_type : string)
  : outcome (list RoleConfig) :=
  if String.eqb role_type "service_roles" then Returns (service_roles cfg)
  else if String.eqb role_type "system_full_roles" then Returns (system_full_roles cfg)
  else if String.eqb role_type "role_hierarchy" then
    match role_hierarchy cfg with [] => Returns [] | _ :: _ => Raises KeyError end
  else if String.eqb role_type "user_assignments" then
    match user_assignments cfg with [] => Returns [] | _ :: _ => Raises TypeError end
  else Returns [].

Definition apply_role_step (target_database : string) (st : World * PrivilegesResult)
           (role_config : RoleConfig) : World * PrivilegesResult :=
  let (w, results) := st in
  let role_name := name role_config in
  let privileges :=
    match privileges role_config with Some p => p | None => NotNone no_privileges end in
  let (role_result, w1) := _apply_role_privileges w role_name privileges target_database in
  let s := pr_summary results in
  (w1, mkPResult (pr_target_database results)
                 (dict_set (pr_roles results) role_name role_result)
                 (mkPSummary (total_roles s + 1)
                             (if success role_result then successful_roles s + 1
                              else successful_roles s)
                             (if success role_result then failed_roles s
                              else failed_roles s + 1))).

Fixpoint apply_role_types (cfg : RbacConfig) (target_database : string)
         (role_types : list string) (st : World * PrivilegesResult)
  : outcome PrivilegesResult * World :=
  match role_types with
  | [] => (Returns (snd st), fst st)
  | role_type :: rest =>
      match roles_of_type cfg role_type with
      | Raises e => (Raises e, fst st)
      | Returns roles_config =>
          apply_role_types cfg target_database rest
                           (fold_left (apply_role_step target_database) roles_config st)
      end
  end.

Definition apply_role_privileges (cfg : RbacConfig) (w : World) (target_database : string)
           (role_types : option (list string)) : outcome PrivilegesResult * World :=
  let role_types :=
    match role_types with
    | None => ["service_roles"; "system_full_roles"]
    | Some l => l
    end in
  let results := mkPResult target_database [] (mkPSummary 0 0 0) in
  apply_role_types cfg target_database role_types (w, results).

(** *** Hierarchy *)

Definition hierarchy_edge_key (parent_role child_role : string) : string :=
  fmt [parent_role; " -> "; child_role].

Definition hierarchy_child_step (parent_role : string) (st : World * odict bool)
           (child_role : string) : World * odict bool :=
  let (w, results) := st in
  match execute w (fmt ["GRANT ROLE "; child_role; " TO ROLE "; parent_role]) with
  | (Returns _, w1) => (w1, dict_set results (hierarchy_edge_key parent_role child_role) true)
  | (Raises _, w1) => (w1, dict_set results (hierarchy_edge_key parent_role child_role) false)
  end.

Definition hierarchy_step (st : World * odict bool) (hierarchy : Hierarchy)
  : World * odict bool :=
  fold_left (hierarchy_child_step (parent hierarchy)) (children hierarchy) st.

Definition setup_role_hierarchy (cfg : RbacConfig) (w : World) : odict bool * World :=
  let st := fold_left hierarchy_step (role_hierarchy cfg) (w, []) in
  (snd st, fst st).

(** *** User assignments *)

(** [failed_roles] keeps the role of each failed grant (the code also
    stores the text of the error). *)
Record UserResult : Type := mkUserResult {
  ur_username : string;
  assigned_roles : list string;
  ur_failed_roles : list string;
  ur_success : bool
}.

Record AssignSummary : Type := mkASummary {
  total_assignments : nat;
  successful_assignments : nat;
  failed_assignments : nat
}.

Record UsersResult : Type := mkUResult {
  ua_users : odict UserResult;
  ua_summary : AssignSummary
}.

Definition assign_role_step (username : string)
           (st : World * UserResult * AssignSummary) (role : string)
  : World * UserResult * AssignSummary :=
  let '(w, user_result, s) := st in
  match execute w (fmt ["GRANT ROLE "; role; " TO USER "; username]) with
  | (Returns _, w1) =>
      (w1,
       mkUserResult (ur_username user_result) (assigned_roles user_result ++ [role])
                    (ur_failed_roles user_result) (ur_success user_result),
       mkASummary (total_assignments s + 1) (successful_assignments s + 1)
                  (failed_assignments s))
  | (Raises _, w1) =>
      (w1,
       mkUserResult (ur_username user_result) (assigned_roles user_result)
                    (ur_failed_roles user_result ++ [role]) false,
       mkASummary (total_assignments s + 1) (successful_assignments s)
                  (failed_assignments s + 1))
  end.

Definition assign_user_step (st : World * UsersResult) (user_config : UserConfig)
  : World * UsersResult :=
  let (w, results) := st in
  let user_result := mkUserResult (username user_config) [] [] true in
  let '(w1, user_result, s) :=
    fold_left (assign_role_step (username user_config)) (roles user_config)
              (w, user_result, ua_summary results) in
  (w1, mkUResult (dict_set (ua_users results) (username user_config) user_result) s).

Definition assign_users_to_roles (cfg : RbacConfig) (w : World)
           (user_assignments_arg : option (list UserConfig)) : UsersResult * World :=
  let users :=
    match user_assignments_arg with
    | Some l => l
    | None =>
        match dict_get (user_assignments cfg) "example_users" with
        | Some l => l
        | None => []
        end
    end in
  let st := fold_left assign_user_step users (w, mkUResult [] (mkASummary 0 0 0)) in
  (snd st, fst st).

(** *** Complete setup *)

(** What a phase stores in [setup_result['phases']]: a name-to-flag
    dictionary (role creation, hierarchy) or one of the two structured
    reports. *)
Inductive PhaseResult : Type :=
| PhaseFlags (d : odict bool)
| PhasePrivileges (r : PrivilegesResult)
| PhaseUsers (r : UsersResult).

Record SetupResult : Type := mkSetup {
  s_target_database : string;
  phases : odict PhaseResult;
  overall_success : bool;
  failed_phases : option (list string);
  s_error : option exn
}.

(** ['summary' in result] *)
Definition has_summary (result : PhaseResult) : bool :=
  match result with
  | PhaseFlags d => dict_mem d "summary"
  | PhasePrivileges _ => true
  | PhaseUsers _ => true
  end.

(** [result['summary'].get('failed_roles', 0)], evaluated when the key
    is there: a flag has no [get]; the summary of the user report has no
    [failed_roles] entry, so the default is read. *)
Definition summary_failed_roles (result : PhaseResult) : outcome nat :=
  match result with
  | PhaseFlags _ => Raises AttributeError
  | PhasePrivileges r => Returns (failed_roles (pr_summary r))
  | PhaseUsers _ => Returns 0
  end.

(** [all(result.values())] with Python truth values: a flag is itself; a
    timestamp and a summary dictionary are non-empty, so true; the target
    database is true when non-empty; [roles] and [users] are true when
    they have an entry. *)
Definition all_values (result : PhaseResult) : bool :=
  match result with
  | PhaseFlags d => forallb (fun b => b) (values d)
  | PhasePrivileges r =>
      truthy (pr_target_database r)
      && match pr_roles r with [] => false | _ :: _ => true end
  | PhaseUsers r =>
      match ua_users r with [] => false | _ :: _ => true end
  end.

(** The three-way test of the check loop: does [phase] go to
    [failed_phases]? *)
Definition phase_failed (phase : string) (result : PhaseResult) : outcome bool :=
  let first :=
    if has_summary result then
      match summary_failed_roles result with
      | Raises e => Raises e
      | Returns n => Returns (0 <? n)%nat
      end
    else Returns false in
  match first with
  | Raises e => Raises e
  | Returns true => Returns true
  | Returns false =>
      if String.eqb phase "hierarchy" && negb (all_values result) then Returns true
      else Returns (negb (all_values result))
  end.

Fixpoint check_phases (items : odict PhaseResult) (failed : list string)
  : outcome (list string) :=
  match items with
  | [] => Returns failed
  | (phase, result) :: rest =>
      match phase_failed phase result with
      | Raises e => Raises e
      | Returns true => check_phases rest (failed ++ [phase])
      | Returns false => check_phases rest failed
      end
  end.

Definition complete_rbac_setup (cfg : RbacConfig) (w : World) (target_database : string)
           (role_types : option (list string)) : SetupResult * World :=
  let phases0 : odict PhaseResult := [] in
  let (service_roles_result, w1) := create_service_roles cfg w target_database in
  let phases1 := dict_set phases0 "service_roles" (PhaseFlags service_roles_result) in
  let (system_roles_result, w2) := create_system_full_roles cfg w1 target_database in
  let phases2 := dict_set phases1 "system_full_roles" (PhaseFlags system_roles_result) in
  match apply_role_privileges cfg w2 target_database role_types with
  | (Raises e, w3) => (mkSetup target_database phases2 false None (Some e), w3)
  | (Returns privileges_result, w3) =>
      let phases3 := dict_set phases2 "privileges" (PhasePrivileges privileges_result) in
      let (hierarchy_result, w4) := setup_role_hierarchy cfg w3 in
      let phases4 := dict_set phases3 "hierarchy" (PhaseFlags hierarchy_result) in
      let (phases5, w5) :=
        match user_assignments cfg with
        | [] => (phases4, w4)
        | _ :: _ =>
            let (user_assignments_result, w5) := assign_users_to_roles cfg w4 None in
            (dict_set phases4 "user_assignments" (PhaseUsers user_assignments_result), w5)
        end in
      match check_phases phases5 [] with
      | Raises e => (mkSetup target_database phases5 false None (Some e), w5)
      | Returns [] => (mkSetup target_database phases5 true None None, w5)
      | Returns (p :: ps) =>
          (mkSetup target_database phases5 false (Some (p :: ps)) None, w5)
      end
  end.

(** *** Audit *)

Record RoleInfo : Type := mkRoleInfo {
  created_on : string;
  owner : option string;
  comment : option string
}.

Record GrantInfo : Type := mkGrant {
  g_privilege : string;
  granted_on : string;
  g_name : string;
  granted_to : option string;
  grantee_name : option string
}.

Record AuditSummary : Type := mkAuSummary {
  au_total_roles : nat;
  roles_with_grants : nat;
  users_with_roles : nat
}.

(** The [users] mapping of the audit result is never written by the
    code and is left out. *)
Record AuditResult : Type := mkAudit {
  au_target_database : string;
  au_roles : odict RoleInfo;
  grants : odict (list GrantInfo);
  au_summary : AuditSummary;
  au_error : option exn
}.

(** The loop over the rows of SHOW ROLES.  A row too short for
    [role[1]] raises; what the loop stored before stays in the result. *)
Fixpoint audit_roles (rows : list Row) (a : AuditResult) : option exn * AuditResult :=
  match rows with
  | [] => (None, a)
  | role :: rest =>
      match index role 1 with
      | Raises e => (Some e, a)
      | Returns role_name =>
          match index role 0 with
          | Raises e => (Some e, a)
          | Returns created =>
              let info := mkRoleInfo created (index_opt role 2) (index_opt role 3) in
              let s := au_summary a in
              audit_roles rest
                (mkAudit (au_target_database a)
                         (dict_set (au_roles a) role_name info)
                         (grants a)
                         (mkAuSummary (au_total_roles s + 1) (roles_with_grants s)
                                      (users_with_roles s))
                         (au_error a))
          end
      end
  end.

Definition grant_info (grant : Row) : outcome GrantInfo :=
  match index grant 1 with
  | Raises e => Raises e
  | Returns g1 =>
      match index grant 2 with
      | Raises e => Raises e
      | Returns g2 =>
          match index grant 3 with
          | Raises e => Raises e
          | Returns g3 =>
              Returns (mkGrant g1 g2 g3 (index_opt grant 4) (index_opt grant 5))
          end
      end
  end.

Fixpoint grant_infos (rows : list Row) : outcome (list GrantInfo) :=
  match rows with
  | [] => Returns []
  | grant :: rest =>
      match grant_info grant with
      | Raises e => Raises e
      | Returns g =>
          match grant_infos rest with
          | Raises e => Raises e
          | Returns gs => Returns (g :: gs)
          end
      end
  end.

Definition show_grants (role_name : string) : string :=
  fmt ["SHOW GRANTS TO ROLE "; role_name].

(** The body of the loop over [audit_result['roles'].keys()], with its
    own [try ... except Exception]. *)
Definition audit_grants_step (st : World * AuditResult) (role_name : string)
  : World * AuditResult :=
  let (w, a) := st in
  match execute w (show_grants role_name) with
  | (Raises _, w1) => (w1, a)
  | (Returns rows, w1) =>
      match grant_infos rows with
      | Raises _ => (w1, a)
      | Returns [] => (w1, a)
      | Returns (g :: gs) =>
          let s := au_summary a in
          (w1, mkAudit (au_target_database a) (au_roles a)
                       (dict_set (grants a) role_name (g :: gs))
                       (mkAuSummary (au_total_roles s) (roles_with_grants s + 1)
                                    (users_with_roles s))
                       (au_error a))
      end
  end.

Definition with_error (a : AuditResult) (e : exn) : AuditResult :=
  mkAudit (au_target_database a) (au_roles a) (grants a) (au_summary a) (Some e).

Definition audit_rbac_configuration (w : World) (target_database : string)
  : AuditResult * World :=
  let audit_result := mkAudit target_database [] [] (mkAuSummary 0 0 0) None in
  match execute w "SHOW ROLES" with
  | (Raises e, w1) => (with_error audit_result e, w1)
  | (Returns rows, w1) =>
      match audit_roles rows audit_result with
      | (Some e, a1) => (with_error a1 e, w1)
      | (None, a1) =>
          let st := fold_left audit_grants_step (keys (au_roles a1)) (w1, a1) in
          (snd st, fst st)
      end
  end.

(** *** The privileges of one role seen as a plan

    [_apply_role_privileges] goes over the database, schema, table, view
    and warehouse entries in this order; each entry stands for one call
    of [_grant_privilege], which issues one statement per object.  The
    definitions below name the statements of an entry, the plan of a
    role (the entries reached before the configuration makes the loop
    raise, and the exception raised, if any) and the run of a plan
    against the warehouse. *)

(** The statements of an entry with the privilege [privilege] and the
    objects [objects]. *)
Definition entry_statements (object_type : string) (substitute : bool)
           (role_name target_database : string) (privilege : string) (objects : list string)
  : list string :=
  map (fun obj =>
         grant_sql privilege object_type
                   (if substitute then replace placeholder target_database obj else obj)
                   role_name)
      objects.

(** An entry of a plan: what the result records for it, and the
    statements its grant issues, in order, as long as they are accepted;
    [None] when the grant fails before its first statement (a null
    privilege with objects to go over, or null objects). *)
Definition PlanEntry : Type := PrivilegeInfo * option (list string).

(** The plan entry of a configured entry, or the exception raised before
    its grant: a missing key, or null objects where they are
    substituted. *)
Definition planned_entry (type_label object_type : string) (substitute : bool)
           (role_name target_database : string) (p : EntryConfig) : outcome PlanEntry :=
  match e_privilege p with
  | None => Raises KeyError
  | Some privilege =>
      match e_objects p with
      | None => Raises KeyError
      | Some IsNone =>
          if substitute then Raises TypeError
          else Returns (mkInfo type_label privilege IsNone, None)
      | Some (NotNone objs) =>
          Returns (mkInfo type_label privilege (NotNone objs),
                   match privilege, objs with
                   | NotNone privilege', _ =>
                       Some (entry_statements object_type substitute role_name
                                              target_database privilege' objs)
                   | IsNone, [] => Some []
                   | IsNone, _ :: _ => None
                   end)
      end
  end.

(** The entries of a list up to the first one that raises. *)
Fixpoint planned_entries (type_label object_type : string) (substitute : bool)
         (role_name target_database : string) (ps : list EntryConfig)
  : list PlanEntry * option exn :=
  match ps with
  | [] => ([], None)
  | p :: rest =>
      match planned_entry type_label object_type substitute role_name target_database p with
      | Raises e => ([], Some e)
      | Returns entry =>
          let (entries, raised) :=
            planned_entries type_label object_type substitute role_name target_database rest in
          (entry :: entries, raised)
      end
  end.

Definition planned (type_label object_type : string) (substitute : bool)
           (role_name target_database : string) (l : option (nullable (list EntryConfig)))
  : list PlanEntry * option exn :=
  match l with
  | None => ([], None)
  | Some IsNone => ([], Some TypeError)
  | Some (NotNone ps) =>
      planned_entries type_label object_type substitute role_name target_database ps
  end.

(** A part of a plan followed by another: nothing follows an exception. *)
Definition followed_by (a b : list PlanEntry * option exn) : list PlanEntry * option exn :=
  match snd a with
  | Some e => a
  | None => (fst a ++ fst b, snd b)
  end.

Definition plan (role_name target_database : string) (privileges : nullable PrivilegesConfig)
  : list PlanEntry * option exn :=
  match privileges with
  | IsNone => ([], Some TypeError)
  | NotNone c =>
      followed_by (planned "database" "DATABASE" true role_name target_database (c_databases c))
     (followed_by (planned "schema" "SCHEMA" true role_name target_database (c_schemas c))
     (followed_by (planned "table" "TABLE" true role_name target_database (c_tables c))
     (followed_by (planned "view" "VIEW" true role_name target_database (c_views c))
                  (planned "warehouse" "WAREHOUSE" false role_name target_database
                           (c_warehouses c)))))
  end.

(** The plan of a well-formed configuration: every entry, with its
    statements. *)
Definition planned_well_formed (type_label object_type : string) (substitute : bool)
           (role_name target_database : string) (l : option (list PrivilegeEntry))
  : list PlanEntry :=
  map (fun p => (mkInfo type_label (NotNone (privilege p)) (NotNone (objects p)),
                 Some (entry_statements object_type substitute role_name target_database
                                        (privilege p) (objects p))))
      (listed l).

Definition plan_well_formed (role_name target_database : string) (privileges : Privileges)
  : list PlanEntry :=
  planned_well_formed "database" "DATABASE" true role_name target_database
                      (p_databases privileges)
  ++ planned_well_formed "schema" "SCHEMA" true role_name target_database
                         (p_schemas privileges)
  ++ planned_well_formed "table" "TABLE" true role_name target_database
                         (p_tables privileges)
  ++ planned_well_formed "view" "VIEW" true role_name target_database
                         (p_views privileges)
  ++ planned_well_formed "warehouse" "WAREHOUSE" false role_name target_database
                         (p_warehouses privileges).

(** The statements issued in order up to the first one that fails. *)
Fixpoint issue_all (w : World) (stmts : list string) : bool * World :=
  match stmts with
  | [] => (true, w)
  | sql :: rest =>
      match execute w sql with
      | (Returns _, w1) => issue_all w1 rest
      | (Raises _, w1) => (false, w1)
      end
  end.

(** The grant of a plan entry. *)
Definition attempt (w : World) (stmts : option (list string)) : bool * World :=
  match stmts with
  | Some l => issue_all w l
  | None => (false, w)
  end.

(** The statements of [stmts] that reach the warehouse when they are
    issued in order from [w] until one is rejected: the accepted ones and
    the first rejected one. *)
Fixpoint until_rejected (w : World) (stmts : list string) : list string :=
  match stmts with
  | [] => []
  | sql :: rest =>
      sql :: (if accepted w sql then until_rejected (issue w [sql]) rest else [])
  end.

(** The statements each entry of a plan leaves, from [w] on. *)
Fixpoint blocks_of (w : World) (pl : list PlanEntry) : list (list string) :=
  match pl with
  | [] => []
  | e :: rest =>
      let block :=
        match snd e with
        | Some stmts => until_rejected w stmts
        | None => []
        end in
      block :: blocks_of (issue w block) rest
  end.

(** The entries of a plan, one after the other whatever the earlier ones
    gave: the outcome of each entry and the world reached. *)
Fixpoint run_plan (w : World) (pl : list PlanEntry) : list bool * World :=
  match pl with
  | [] => ([], w)
  | e :: rest =>
      let (ok, w1) := attempt w (snd e) in
      let (oks, w2) := run_plan w1 rest in
      (ok :: oks, w2)
  end.

(** How an entry of a plan, its outcome and the statements it left are
    related: the statements are an initial part of the entry's, not empty
    unless the entry has no statement, and all of them when the entry
    succeeded; an entry whose grant fails before its first statement
    leaves none and does not succeed. *)
Definition attempted (e : PlanEntry * bool) (block : list string) : Prop :=
  match snd (fst e) with
  | Some stmts =>
      exists k,
        block = firstn k stmts /\
        (stmts <> [] -> 1 <= k) /\
        (snd e = true -> block = stmts)
  | None => block = [] /\ snd e = false
  end.

(** Does the grant of the entry reach the warehouse? *)
Definition has_statements (e : PlanEntry) : bool :=
  match snd e with Some _ => true | None => false end.

(** What one iteration writes into the result of the role. *)
Definition note (result : RoleResult) (info : PrivilegeInfo) (ok : bool) : RoleResult :=
  if ok
  then mkRoleResult (role result) (success result)
                    (applied_privileges result ++ [info])
                    (failed_privileges result) (error_messages result)
  else mkRoleResult (role result) false
                    (applied_privileges result)
                    (failed_privileges result ++ [info])
                    (error_messages result).

Definition noted (result : RoleResult) (l : list (PrivilegeInfo * bool)) : RoleResult :=
  fold_left (fun r e => note r (fst e) (snd e)) l result.

(** What the handler of [_apply_role_privileges] writes into the result. *)
Definition handled (raised : option exn) (result : RoleResult) : RoleResult :=
  match raised with
  | None => result
  | Some e => mkRoleResult (role result) false (applied_privileges result)
                           (failed_privileges result) (error_messages result ++ [e])
  end.

(** The run of a part of a plan from the state [st] of the loops: the
    exception of the part, the world reached and the result noted. *)
Definition run_part (part : list PlanEntry * option exn) (st : World * RoleResult)
  : option exn * (World * RoleResult) :=
  let ran := run_plan (fst st) (fst part) in
  (snd part, (snd ran, noted (snd st) (combine (map fst (fst part)) (fst ran)))).

(** The entries of [l] whose outcome is [b]. *)
Definition with_outcome (b : bool) (l : list (PrivilegeInfo * bool)) : list PrivilegeInfo :=
  map fst (filter (fun e => Bool.eqb (snd e) b) l).

(** *** The statements of the role, hierarchy and user loops *)

(** The statement [_create_role] builds for a role configuration; a
    missing description reads as the empty one. *)
Definition role_create_sql (rc : RoleConfig) : string :=
  let d := match description rc with Some d => d | None => "" end in
  if truthy d
  then fmt ["CREATE ROLE IF NOT EXISTS "; name rc; " COMMENT = '"; d; "'"]
  else fmt ["CREATE ROLE IF NOT EXISTS "; name rc].

(** The (parent, child) pairs of the hierarchy configuration, in the
    order of the two nested loops. *)
Definition edges (cfg : RbacConfig) : list (string * string) :=
  flat_map (fun h => map (fun c => (parent h, c)) (children h)) (role_hierarchy cfg).

Definition edge_sql (e : string * string) : string :=
  fmt ["GRANT ROLE "; snd e; " TO ROLE "; fst e].

Definition edge_key (e : string * string) : string :=
  hierarchy_edge_key (fst e) (snd e).

(** The statements of the roles of one user. *)
Definition user_statements (u : UserConfig) : list string :=
  map (fun r => fmt ["GRANT ROLE "; r; " TO USER "; username u]) (roles u).

(** The roles of [rs] whose answer in [oks] is [b]. *)
Definition roles_with (b : bool) (rs : list string) (oks : list bool) : list string :=
  map fst (filter (fun p => Bool.eqb (snd p) b) (combine rs oks)).

(** What is true of a user result stored under the name [n]. *)
Definition user_result_ok (users : list UserConfig) (n : string) (ur : UserResult) : Prop :=
  ur_username ur = n /\
  (ur_success ur = true <-> ur_failed_roles ur = []) /\
  exists u, In u users /\ username u = n /\
            List.length (assigned_roles ur) + List.length (ur_failed_roles ur)
            = List.length (roles u).

(** The role configurations [apply_role_privileges] goes over for the
    role types it is given. *)
Definition configured_roles (cfg : RbacConfig) (role_types : list string)
  : list RoleConfig :=
  flat_map (fun role_type =>
              if String.eqb role_type "service_roles" then service_roles cfg
              else if String.eqb role_type "system_full_roles" then system_full_roles cfg
              else [])
           role_types.

(** What the loop of [apply_role_privileges] keeps true of its report. *)
Definition privileges_report_ok (r : PrivilegesResult) : Prop :=
  successful_roles (pr_summary r) + failed_roles (pr_summary r)
  = total_roles (pr_summary r) /\
  List.length (pr_roles r) <= total_roles (pr_summary r) /\
  (failed_roles (pr_summary r) = 0 ->
   forallb success (values (pr_roles r)) = true) /\
  (forall n rr, dict_get (pr_roles r) n = Some rr -> role rr = n).

(** *** The verdict of the complete setup *)

Definition listed_if (b : bool) (phase : string) : list string :=
  if b then [phase] else [].

(** The phases the check loop lists as failed, given the reports of the
    phases: a role-creation or hierarchy phase with a false flag; the
    privileges phase with failed roles, an empty target database or no
    role in its report; the user-assignment phase with no user in its
    report. *)
Definition failing_phases (sr sf : odict bool) (pr : PrivilegesResult) (h : odict bool)
           (ou : option UsersResult) : list string :=
  listed_if (negb (forallb (fun b => b) (values sr))) "service_roles"
  ++ listed_if (negb (forallb (fun b => b) (values sf))) "system_full_roles"
  ++ listed_if ((0 <? failed_roles (pr_summary pr))%nat
                || negb (truthy (pr_target_database pr))
                || match pr_roles pr with [] => true | _ :: _ => false end)
               "privileges"
  ++ listed_if (negb (forallb (fun b => b) (values h))) "hierarchy"
  ++ match ou with
     | Some u => listed_if (match ua_users u with [] => true | _ :: _ => false end)
                           "user_assignments"
     | None => []
     end.

(** The stored phases, in the order they were run. *)
Definition stored_phases (sr sf : odict bool) (pr : PrivilegesResult) (h : odict bool)
           (ou : option UsersResult) : odict PhaseResult :=
  [("service_roles", PhaseFlags sr); ("system_full_roles", PhaseFlags sf);
   ("privileges", PhasePrivileges pr); ("hierarchy", PhaseFlags h)]
  ++ match ou with
     | Some u => [("user_assignments", PhaseUsers u)]
     | None => []
     end.

(** *** Audit: the roles whose grants can be listed

    The names of [names] whose SHOW GRANTS statement is accepted when the
    statements are issued in this order from [w]. *)
Fixpoint readable (w : World) (names : list string) : list string :=
  match names with
  | [] => []
  | n :: rest =>
      match execute w (show_grants n) with
      | (Returns _, w1) => n :: readable w1 rest
      | (Raises _, w1) => readable w1 rest
      end
  end.

End RBACManager.

(* ================================================================== *)
(** * Properties *)

(** ** The warehouse *)

Lemma after_refl (w : World) : after w w [].
Proof. split; [reflexivity | now rewrite app_nil_r]. Qed.

Lemma after_trans (w1 w2 w3 : World) (a b : list string) :
  after w1 w2 a -> after w2 w3 b -> after w1 w3 (a ++ b).
Proof.
  intros [R1 I1] [R2 I2]. split.
  - now rewrite R2.
  - now rewrite I2, I1, app_assoc.
Qed.

Lemma execute_after (w : World) (sql : string) :
  after w (snd (execute w sql)) [sql].
Proof.
  unfold execute. destruct (responds w (issued w) sql); split; reflexivity.
Qed.

Lemma execute_after_eq (w w1 : World) (sql : string) (o : outcome (list Row)) :
  execute w sql = (o, w1) -> after w w1 [sql].
Proof.
  intros E. pose proof (execute_after w sql) as H. now rewrite E in H.
Qed.

Lemma after_cons (w1 w2 w3 : World) (sql : string) (rest : list string) :
  after w1 w2 [sql] -> after w2 w3 rest -> after w1 w3 (sql :: rest).
Proof. intros A B. exact (after_trans _ _ _ [sql] rest A B). Qed.

Create HintDb world.
#[local] Hint Resolve after_refl execute_after_eq after_cons : world.

(** ** Clone engine and bulk orchestrator *)

Import CloneFramework.

Lemma clone_database_sql_zero_copy (cfg : Config) (source_db target_db : string) :
  clone_database_sql cfg source_db target_db "ZERO_COPY"
  = Returns (fmt ["CREATE DATABASE "; target_db; " CLONE "; source_db]).
Proof. reflexivity. Qed.

Lemma clone_database_after (cfg : Config) (w w1 : World) (s t ty sql : string) (ok : bool) :
  clone_database_sql cfg s t ty = Returns sql ->
  clone_database cfg w s t ty = (ok, w1) ->
  after w w1 [sql].
Proof.
  unfold clone_database. intros Q. rewrite Q.
  destruct (execute w sql) as [[rs|e] w'] eqn:E;
    intros H; inversion H; subst; eauto with world.
Qed.

Lemma clone_schema_after (w w1 : World) (sd ss td : string) (ts : option string) (ok : bool) :
  clone_schema w sd ss td ts = (ok, w1) ->
  exists rest, after w w1 (fmt ["CREATE DATABASE IF NOT EXISTS "; td] :: rest).
Proof.
  unfold clone_schema.
  destruct (execute w _) as [[rs|e] w'] eqn:E1.
  - destruct (execute w' _) as [[rs2|e2] w''] eqn:E2;
      intros H; inversion H; subst; eexists; eauto with world.
  - intros H; inversion H; subst. exists []. eauto with world.
Qed.

Lemma clone_table_after (w w1 : World) (sd ss stb td : string) (ts tt : option string)
      (ok : bool) :
  clone_table w sd ss stb td ts tt = (ok, w1) ->
  exists rest, after w w1 (fmt ["CREATE DATABASE IF NOT EXISTS "; td] :: rest).
Proof.
  unfold clone_table.
  destruct (execute w _) as [[rs|e] w'] eqn:E1.
  - destruct (execute w' _) as [[rs2|e2] w''] eqn:E2.
    + destruct (execute w'' _) as [[rs3|e3] w3] eqn:E3;
        intros H; inversion H; subst; eexists; eauto 6 with world.
    + intros H; inversion H; subst. eexists; eauto with world.
  - intros H; inversion H; subst. exists []. eauto with world.
Qed.

Lemma call_after (cfg : Config) (w w1 : World) (q : Request) (ok : bool) :
  call cfg w q = (ok, w1) ->
  exists rest, after w w1 (opening_statement q :: rest).
Proof.
  destruct q as [c|c|c]; simpl; intros H.
  - exists []. eapply clone_database_after; [apply clone_database_sql_zero_copy | exact H].
  - eapply clone_schema_after; eauto.
  - eapply clone_table_after; eauto.
Qed.

(** Every request of a run leaves its own block of statements, and the
    block opens with the request's first statement. *)
Lemma run_blocks (cfg : Config) (qs : list Request) :
  forall w oks w',
    run cfg w qs = (oks, w') ->
    List.length oks = List.length qs /\
    exists blocks,
      after w w' (concat blocks) /\
      Forall2 (fun q block => exists rest, block = opening_statement q :: rest) qs blocks.
Proof.
  induction qs as [|q qs IH]; simpl; intros w oks w' H.
  - inversion H; subst. split; [reflexivity|]. exists []. split; [apply after_refl | constructor].
  - destruct (call cfg w q) as [ok w1] eqn:Ec.
    destruct (run cfg w1 qs) as [oks' w2] eqn:Er.
    inversion H; subst.
    destruct (IH _ _ _ Er) as [L [blocks [A F]]].
    destruct (call_after _ _ _ _ _ Ec) as [rest Ac].
    split; [simpl; now rewrite L|].
    exists ((opening_statement q :: rest) :: blocks). split.
    + simpl concat. exact (after_trans _ _ _ _ _ Ac A).
    + constructor; eauto.
Qed.

Lemma run_app (cfg : Config) (qs1 qs2 : list Request) :
  forall w,
    run cfg w (qs1 ++ qs2)
    = (fst (run cfg w qs1) ++ fst (run cfg (snd (run cfg w qs1)) qs2),
       snd (run cfg (snd (run cfg w qs1)) qs2)).
Proof.
  induction qs1 as [|q qs1 IH]; simpl; intros w.
  - now destruct (run cfg w qs2).
  - destruct (call cfg w q) as [ok w1]. rewrite IH.
    destruct (run cfg w1 qs1) as [oks1 w2]. simpl.
    reflexivity.
Qed.

Lemma bulk_step_record (cfg : Config) (w : World) (r : BulkResults) (q : Request) :
  bulk_step cfg (w, r) q
  = (snd (call cfg w q), record r q (fst (call cfg w q))).
Proof.
  destruct q as [c|c|c]; simpl;
    unfold bulk_database, bulk_schema, bulk_table, record; simpl.
  - now destruct (clone_database _ _ _ _ _).
  - now destruct (clone_schema _ _ _ _ _).
  - now destruct (clone_table _ _ _ _ _ _ _).
Qed.

Lemma fold_bulk_step (cfg : Config) (qs : list Request) :
  forall w r,
    fold_left (bulk_step cfg) qs (w, r)
    = (snd (run cfg w qs), recorded r (combine qs (fst (run cfg w qs)))).
Proof.
  induction qs as [|q qs IH]; simpl; intros w r.
  - reflexivity.
  - rewrite bulk_step_record. rewrite IH.
    destruct (call cfg w q) as [ok w1]. simpl.
    destruct (run cfg w1 qs) as [oks w2]. reflexivity.
Qed.

Lemma for_each_map {C S : Type} (f : C -> Request) (body : S -> C -> S)
      (step : S -> Request -> S) (l : option (list C)) (st : S) :
  (forall s c, step s (f c) = body s c) ->
  for_each body l st = fold_left step (map f (listed l)) st.
Proof.
  intros Hs. destruct l as [cs|]; simpl; [|reflexivity].
  revert st. induction cs as [|c cs IH]; simpl; intros st; [reflexivity|].
  now rewrite IH, Hs.
Qed.

Lemma bulk_as_run (cfg : Config) (w : World) (oc : OperationConfig) :
  bulk_clone_operation cfg w oc
  = (recorded (mkResults [] [] [] (mkSummary 0 0 0))
              (combine (requests oc) (fst (run cfg w (requests oc)))),
     snd (run cfg w (requests oc))).
Proof.
  unfold bulk_clone_operation, requests.
  rewrite (for_each_map DatabaseRequest (bulk_database cfg) (bulk_step cfg)) by reflexivity.
  rewrite (for_each_map SchemaRequest bulk_schema (bulk_step cfg)) by reflexivity.
  rewrite (for_each_map TableRequest bulk_table (bulk_step cfg)) by reflexivity.
  rewrite <- !fold_left_app.
  rewrite fold_bulk_step. reflexivity.
Qed.

(** *** Dictionaries *)

Lemma dict_get_set_same {V : Type} (d : odict V) (k : string) (v : V) :
  dict_get (dict_set d k v) k = Some v.
Proof.
  induction d as [|[k' v'] d IH]; simpl.
  - now rewrite String.eqb_refl.
  - destruct (String.eqb k' k) eqn:E; simpl; now rewrite E.
Qed.

Lemma dict_get_set_other {V : Type} (d : odict V) (k k0 : string) (v : V) :
  k <> k0 -> dict_get (dict_set d k v) k0 = dict_get d k0.
Proof.
  intros N. induction d as [|[k' v'] d IH]; simpl.
  - apply String.eqb_neq in N. now rewrite N.
  - destruct (String.eqb k' k) eqn:E; simpl.
    + apply String.eqb_eq in E. subst k'.
      apply String.eqb_neq in N. now rewrite N.
    + destruct (String.eqb k' k0); [reflexivity | exact IH].
Qed.

Lemma dict_set_length {V : Type} (d : odict V) (k : string) (v : V) :
  List.length (dict_set d k v)
  = if dict_mem d k then List.length d else S (List.length d).
Proof.
  unfold dict_mem. induction d as [|[k' v'] d IH]; simpl; [reflexivity|].
  destruct (String.eqb k' k); simpl; [reflexivity|].
  rewrite IH. now destruct (dict_get d k).
Qed.

Lemma dict_mem_set {V : Type} (d : odict V) (k k0 : string) (v : V) :
  dict_mem (dict_set d k v) k0 = String.eqb k k0 || dict_mem d k0.
Proof.
  unfold dict_mem. destruct (String.eqb k k0) eqn:E; simpl.
  - apply String.eqb_eq in E. subst. now rewrite dict_get_set_same.
  - apply String.eqb_neq in E. now rewrite dict_get_set_other.
Qed.

Lemma combine_app {A B : Type} (l1 l2 : list A) (m1 m2 : list B) :
  List.length l1 = List.length m1 ->
  combine (l1 ++ l2) (m1 ++ m2) = combine l1 m1 ++ combine l2 m2.
Proof.
  revert m1. induction l1 as [|a l1 IH]; intros [|b m1]; simpl; intros L;
    try discriminate; [reflexivity|].
  now rewrite IH by lia.
Qed.

(** *** The report as a function of the outcomes *)

Lemma level_eqb_eq (a b : Level) : level_eqb a b = true <-> a = b.
Proof. destruct a, b; simpl; split; intros H; try reflexivity; discriminate. Qed.

Lemma summary_record (r : BulkResults) (q : Request) (ok : bool) :
  summary (record r q ok) = count (summary r) ok.
Proof. unfold record. now destruct (level q). Qed.

Lemma items_record_same (r : BulkResults) (q : Request) (ok : bool) :
  items (record r q ok) (level q)
  = dict_set (items r (level q)) (key q) (mkItem (item_source q) ok).
Proof. unfold record. now destruct (level q). Qed.

Lemma items_record_other (r : BulkResults) (q : Request) (ok : bool) (lv : Level) :
  lv <> level q -> items (record r q ok) lv = items r lv.
Proof. unfold record. destruct (level q), lv; simpl; congruence. Qed.

Lemma entries_record (r : BulkResults) (q : Request) (ok : bool) :
  entries (record r q ok)
  = entries r + (if dict_mem (items r (level q)) (key q) then 0 else 1).
Proof.
  unfold entries, record.
  destruct (level q); simpl; rewrite dict_set_length;
    match goal with |- context [dict_mem ?d ?k] => destruct (dict_mem d k) end; lia.
Qed.

Lemma mem_record (r : BulkResults) (q : Request) (ok : bool) (lv : Level) (k : string) :
  dict_mem (items r lv) k = true ->
  dict_mem (items (record r q ok) lv) k = true.
Proof.
  intros M. destruct (level_eqb lv (level q)) eqn:E.
  - apply level_eqb_eq in E. subst lv.
    rewrite items_record_same, dict_mem_set, M. apply orb_true_r.
  - rewrite items_record_other; [exact M|].
    intros ->. destruct (level q); discriminate.
Qed.

Lemma recorded_counts (l : list (Request * bool)) :
  forall r,
    total_operations (summary (recorded r l))
    = total_operations (summary r) + List.length l /\
    successful_operations (summary (recorded r l))
    + failed_operations (summary (recorded r l))
    = successful_operations (summary r) + failed_operations (summary r) + List.length l.
Proof.
  unfold recorded.
  induction l as [|[q ok] l IH]; simpl; intros r; [lia|].
  destruct (IH (record r q ok)) as [T S]. rewrite T, S, summary_record.
  unfold count. destruct ok; simpl; lia.
Qed.

Lemma recorded_entries (l : list (Request * bool)) :
  forall r, entries (recorded r l) <= entries r + List.length l.
Proof.
  unfold recorded.
  induction l as [|[q ok] l IH]; simpl; intros r; [lia|].
  specialize (IH (record r q ok)). rewrite entries_record in IH.
  destruct (dict_mem (items r (level q)) (key q)); lia.
Qed.

Lemma recorded_mem (l : list (Request * bool)) (lv : Level) (k : string) :
  forall r,
    dict_mem (items r lv) k = true ->
    dict_mem (items (recorded r l) lv) k = true.
Proof.
  unfold recorded.
  induction l as [|[q ok] l IH]; simpl; intros r M; [exact M|].
  apply IH. now apply mem_record.
Qed.

Lemma recorded_get_untouched (l : list (Request * bool)) (lv : Level) (k : string) :
  (forall p, In p l -> level (fst p) = lv -> key (fst p) <> k) ->
  forall r, dict_get (items (recorded r l) lv) k = dict_get (items r lv) k.
Proof.
  unfold recorded.
  induction l as [|[q ok] l IH]; simpl; intros N r; [reflexivity|].
  rewrite IH by (intros p Hp; apply N; now right).
  destruct (level_eqb lv (level q)) eqn:E.
  - apply level_eqb_eq in E. subst lv.
    rewrite items_record_same. apply dict_get_set_other.
    apply (N (q, ok)); [now left | reflexivity].
  - rewrite items_record_other; [reflexivity|].
    intros ->. destruct (level q); discriminate.
Qed.

Lemma recorded_app (r : BulkResults) (l1 l2 : list (Request * bool)) :
  recorded r (l1 ++ l2) = recorded (recorded r l1) l2.
Proof. unfold recorded. apply fold_left_app. Qed.

(** Two outcomes written under one key: the later one is what the map
    holds, and the maps end up with fewer entries than outcomes. *)
Lemma recorded_collision (r0 : BulkResults) (la lb lc : list (Request * bool))
      (q1 q2 : Request) (ok1 ok2 : bool) :
  level q1 = level q2 -> key q1 = key q2 ->
  (forall p, In p lc -> level (fst p) = level q2 -> key (fst p) <> key q2) ->
  let l := la ++ (q1, ok1) :: lb ++ (q2, ok2) :: lc in
  entries (recorded r0 l) + 1 <= entries r0 + List.length l /\
  dict_get (items (recorded r0 l) (level q2)) (key q2)
  = Some (mkItem (item_source q2) ok2).
Proof.
  intros Hl Hk Hc l. subst l.
  rewrite recorded_app.
  change ((q1, ok1) :: lb ++ (q2, ok2) :: lc)
    with ([(q1, ok1)] ++ lb ++ [(q2, ok2)] ++ lc).
  rewrite !recorded_app.
  set (ra := recorded r0 la).
  set (r1 := recorded ra [(q1, ok1)]).
  set (rb := recorded r1 lb).
  set (r2 := recorded rb [(q2, ok2)]).
  assert (M1 : dict_mem (items r1 (level q2)) (key q2) = true).
  { subst r1. unfold recorded. simpl. rewrite <- Hl, <- Hk.
    rewrite items_record_same, dict_mem_set, String.eqb_refl. reflexivity. }
  assert (Mb : dict_mem (items rb (level q2)) (key q2) = true)
    by (subst rb; now apply recorded_mem).
  split.
  - pose proof (recorded_entries la r0) as Ea. fold ra in Ea.
    pose proof (recorded_entries [(q1, ok1)] ra) as E1. fold r1 in E1.
    pose proof (recorded_entries lb r1) as Eb. fold rb in Eb.
    assert (E2 : entries r2 = entries rb).
    { subst r2. unfold recorded. simpl. rewrite entries_record, Mb. lia. }
    pose proof (recorded_entries lc r2) as Ec.
    repeat (rewrite length_app; simpl). simpl in *. lia.
  - rewrite recorded_get_untouched by exact Hc.
    subst r2. unfold recorded. simpl.
    rewrite items_record_same. apply dict_get_set_same.
Qed.

Lemma run_length (cfg : Config) (w : World) (qs : list Request) :
  List.length (fst (run cfg w qs)) = List.length qs.
Proof.
  destruct (run cfg w qs) as [oks w'] eqn:E.
  now destruct (run_blocks _ _ _ _ _ E).
Qed.

Lemma run_combine (cfg : Config) (w : World) (qs : list Request) (q : Request)
      (rest : list Request) :
  let w1 := snd (run cfg w qs) in
  let ok := fst (call cfg w1 q) in
  exists oks,
    combine (qs ++ q :: rest) (fst (run cfg w (qs ++ q :: rest)))
    = combine qs (fst (run cfg w qs)) ++ (q, ok) :: combine rest oks.
Proof.
  intros w1 ok. rewrite run_app. simpl fst.
  rewrite combine_app by (symmetry; apply run_length).
  fold w1. simpl run. subst ok.
  destruct (call cfg w1 q) as [ok w2].
  destruct (run cfg w2 rest) as [oks w3]. simpl.
  now exists oks.
Qed.



(** C7. When two requests of one operation set resolve to the same key
    of the same per-item map, both are run and both are counted, the map
    holds the outcome of the later one only, and total_operations exceeds
    the number of entries of the per-item maps. *)
Theorem C7_key_collision_keeps_later_outcome
        (cfg : Config) (w : World) (oc : OperationConfig)
        (before between rest : list Request) (q1 q2 : Request) :
  requests oc = before ++ q1 :: between ++ q2 :: rest ->
  level q1 = level q2 ->
  key q1 = key q2 ->
  (forall q, In q rest -> level q = level q2 -> key q <> key q2) ->
  let r := fst (bulk_clone_operation cfg w oc) in
  let w' := snd (bulk_clone_operation cfg w oc) in
  let w2 := snd (run cfg w (before ++ q1 :: between)) in
  total_operations (summary r) = List.length (requests oc) /\
  successful_operations (summary r) + failed_operations (summary r)
  = List.length (requests oc) /\
  (exists blocks,
      after w w' (concat blocks) /\
      Forall2 (fun q block => exists tl, block = opening_statement q :: tl)
              (requests oc) blocks) /\
  dict_get (items r (level q2)) (key q2)
  = Some (mkItem (item_source q2) (fst (call cfg w2 q2))) /\
  entries r < total_operations (summary r).
Proof.
  intros Hq Hl Hk Hr r w' w2. subst r w'. rewrite bulk_as_run. simpl fst. simpl snd.
  set (l := combine (requests oc) (fst (run cfg w (requests oc)))).
  set (r0 := mkResults [] [] [] (mkSummary 0 0 0)).
  assert (Ll : List.length l = List.length (requests oc))
    by (subst l; now rewrite length_combine, run_length, Nat.min_id).
  destruct (recorded_counts l r0) as [T S]. rewrite Ll in T, S. simpl in T, S.
  assert (D : exists la lb lc ok1,
             l = la ++ (q1, ok1) :: lb ++ (q2, fst (call cfg w2 q2)) :: lc /\
             forall p, In p lc -> In (fst p) rest).
  { subst l. rewrite Hq.
    replace (before ++ q1 :: between ++ q2 :: rest)
      with ((before ++ q1 :: between) ++ q2 :: rest)
      by (now rewrite <- app_assoc).
    destruct (run_combine cfg w (before ++ q1 :: between) q2 rest) as [oks E].
    rewrite E.
    destruct (run_combine cfg w before q1 between) as [oks1 E1].
    rewrite E1.
    exists (combine before (fst (run cfg w before))), (combine between oks1),
      (combine rest oks), (fst (call cfg (snd (run cfg w before)) q1)).
    split; [now rewrite <- app_assoc|].
    intros [q ok] Hp. simpl. eapply in_combine_l; eauto. }
  destruct D as [la [lb [lc [ok1 [El Hlc]]]]].
  destruct (recorded_collision r0 la lb lc q1 q2 ok1 (fst (call cfg w2 q2)) Hl Hk)
    as [En Eg].
  { intros p Hp. apply Hr. now apply Hlc. }
  rewrite <- El in En, Eg. rewrite Ll in En. simpl in En.
  repeat split; try lia; try exact Eg.
  destruct (run cfg w (requests oc)) as [oks w'] eqn:E.
  destruct (run_blocks _ _ _ _ _ E) as [_ B]. exact B.
Qed.

(** A run with two table requests for the same target. *)
Lemma C7_witness :
  let q1 := TableRequest (mkTable "PROD" "S" "T" "DEV" Absent Absent) in
  let q2 := TableRequest (mkTable "STAGE" "S" "T" "DEV" (Str "S") Absent) in
  let oc := mkOperation None None
                        (Some [mkTable "PROD" "S" "T" "DEV" Absent Absent;
                               mkTable "STAGE" "S" "T" "DEV" (Str "S") Absent]) in
  let r := fst (bulk_clone_operation (mkConfig None) accepting oc) in
  (level q1 = level q2 /\ key q1 = key q2) /\
  total_operations (summary r) = 2 /\
  dict_get (tables r) "DEV.S.T" = Some (mkItem "STAGE.S.T" true) /\
  entries r < total_operations (summary r).
Proof.
  intros q1 q2 oc r.
  destruct (C7_key_collision_keeps_later_outcome
              (mkConfig None) accepting oc [] [] [] q1 q2)
    as [T [_ [_ [G E]]]].
  - reflexivity.
  - reflexivity.
  - reflexivity.
  - intros q [].
  - split; [split; reflexivity|].
    split; [exact T|]. split; [exact G | exact E].
Defined.

(** *** Single clone calls *)

Lemma clone_database_result (cfg : Config) (w : World) (s t ty sql : string) :
  clone_database_sql cfg s t ty = Returns sql ->
  clone_database cfg w s t ty
  = (accepted w sql, mkWorld (responds w) (issued w ++ [sql])).
Proof.
  unfold clone_database, execute, accepted. intros Q. rewrite Q.
  now destruct (responds w (issued w) sql).
Qed.

(** C10. A [clone_type] that does not upper-case to AT_TIME, a misspelled
    or unknown one included, is not checked or rejected: the engine
    issues the plain clone statement, without an AT clause, and returns
    whether the warehouse accepted it. *)
Theorem C10_unrecognised_mode_is_plain_clone
        (cfg : Config) (w : World) (source_db target_db clone_type : string) :
  upper clone_type <> "AT_TIME" ->
  let plain := fmt ["CREATE DATABASE "; target_db; " CLONE "; source_db] in
  clone_database cfg w source_db target_db clone_type
  = (accepted w plain, mkWorld (responds w) (issued w ++ [plain])).
Proof.
  intros N plain. apply clone_database_result.
  unfold clone_database_sql. apply String.eqb_neq in N. rewrite N. reflexivity.
Qed.

Lemma C10_witness :
  upper "ZERO_COPPY" <> "AT_TIME" /\
  clone_database (mkConfig (Some (NotNone (mkCloning (Some "2024-01-01 00:00:00")))))
                 accepting "PROD" "DEV" "ZERO_COPPY"
  = (true, mkWorld (responds accepting) ["CREATE DATABASE DEV CLONE PROD"]).
Proof.
  split.
  - intros H. vm_compute in H. discriminate H.
  - apply (C10_unrecognised_mode_is_plain_clone
             (mkConfig (Some (NotNone (mkCloning (Some "2024-01-01 00:00:00")))))
             accepting "PROD" "DEV" "ZERO_COPPY").
    intros H. vm_compute in H. discriminate H.
Defined.

(** C6, as the specification states it, fails: with mode AT_TIME and no
    timestamp in the configuration the call succeeds with the plain clone
    statement. *)
Lemma C6_counterexample :
  config_at_time (mkConfig None) = Returns None /\
  clone_database (mkConfig None) accepting "PROD" "DEV" "AT_TIME"
  = (true, mkWorld (responds accepting) ["CREATE DATABASE DEV CLONE PROD"]).
Proof. split; reflexivity. Qed.

(** C6 (amended). [clone_database] takes no timestamp of its own and
    raises nothing.  With mode AT_TIME and no timestamp in the
    configuration, that is without a [cloning] key, or with a [cloning]
    mapping whose [at_time] is missing, null or empty, it issues the plain
    clone statement, without an AT clause, and returns whether the
    warehouse accepted it.  With a [cloning] key that is null the lookup
    of [at_time] raises inside the [try]: no statement is issued and the
    call returns false. *)
Theorem C6_at_time_without_timestamp
        (cfg : Config) (w : World) (source_db target_db clone_type : string) :
  upper clone_type = "AT_TIME" ->
  let plain := fmt ["CREATE DATABASE "; target_db; " CLONE "; source_db] in
  let r := clone_database cfg w source_db target_db clone_type in
  (cloning cfg = None ->
   r = (accepted w plain, mkWorld (responds w) (issued w ++ [plain]))) /\
  (forall c, cloning cfg = Some (NotNone c) ->
             at_time c = None \/ at_time c = Some EmptyString ->
   r = (accepted w plain, mkWorld (responds w) (issued w ++ [plain]))) /\
  (cloning cfg = Some IsNone -> r = (false, w)).
Proof.
  intros U plain r. subst r.
  split; [|split].
  - intros C. apply clone_database_result.
    unfold clone_database_sql, config_at_time. rewrite U, C. reflexivity.
  - intros c C T. apply clone_database_result.
    unfold clone_database_sql, config_at_time. rewrite U, C. simpl String.eqb. cbv iota.
    destruct T as [T|T]; rewrite T; reflexivity.
  - intros C. unfold clone_database, clone_database_sql, config_at_time.
    rewrite U, C. reflexivity.
Qed.

Lemma C6_witness :
  upper "at_time" = "AT_TIME" /\
  clone_database (mkConfig (Some (NotNone (mkCloning None))))
                 (rejecting ["CREATE DATABASE DEV CLONE PROD"]) "PROD" "DEV" "at_time"
  = (false, mkWorld (responds (rejecting ["CREATE DATABASE DEV CLONE PROD"]))
                    ["CREATE DATABASE DEV CLONE PROD"]) /\
  clone_database (mkConfig (Some (NotNone (mkCloning (Some EmptyString)))))
                 accepting "PROD" "DEV" "AT_TIME"
  = (true, mkWorld (responds accepting) ["CREATE DATABASE DEV CLONE PROD"]) /\
  clone_database (mkConfig (Some IsNone)) accepting "PROD" "DEV" "AT_TIME"
  = (false, accepting).
Proof.
  split; [reflexivity|]. split; [|split].
  - destruct (C6_at_time_without_timestamp
                (mkConfig (Some (NotNone (mkCloning None))))
                (rejecting ["CREATE DATABASE DEV CLONE PROD"]) "PROD" "DEV" "at_time")
      as [_ [P _]]; [reflexivity|].
    apply (P (mkCloning None)); [reflexivity | left; reflexivity].
  - destruct (C6_at_time_without_timestamp
                (mkConfig (Some (NotNone (mkCloning (Some EmptyString)))))
                accepting "PROD" "DEV" "AT_TIME")
      as [_ [P _]]; [reflexivity|].
    apply (P (mkCloning (Some EmptyString))); [reflexivity | right; reflexivity].
  - destruct (C6_at_time_without_timestamp
                (mkConfig (Some IsNone)) accepting "PROD" "DEV" "AT_TIME")
      as [_ [_ P]]; [reflexivity|].
    apply P. reflexivity.
Defined.

(** *** Table paths *)

Lemma segments_append (a b : string) :
  segments (String.append a (String "." b)) = segments a + segments b.
Proof.
  induction a as [|c a IH]; simpl.
  - reflexivity.
  - destruct (Ascii.eqb c "."); simpl; now rewrite IH.
Qed.

Lemma segments_dot_free (s : string) : dot_free s = true -> segments s = 1.
Proof.
  induction s as [|c s IH]; simpl; [reflexivity|].
  destruct (Ascii.eqb c "."); simpl; [discriminate | exact IH].
Qed.

Lemma segments_path (a b c : string) :
  segments (fmt [a; "."; b; "."; c]) = segments a + segments b + segments c.
Proof.
  unfold fmt. simpl String.concat.
  change (String.append "." (String.append b (String.append "." c)))
    with (String "." (String.append b (String "." c))).
  now rewrite !segments_append, Nat.add_assoc.
Qed.

(** C8, as the specification states it, fails: a table name with a dot in
    it is neither rejected nor truncated; the clone statement is issued
    with four-segment paths and the call succeeds. *)
Lemma C8_counterexample :
  clone_table accepting "PROD" "S" "T.X" "DEV" None None
  = (true, mkWorld (responds accepting)
                   ["CREATE DATABASE IF NOT EXISTS DEV";
                    "CREATE SCHEMA IF NOT EXISTS DEV.S";
                    "CREATE TABLE DEV.S.T.X CLONE PROD.S.T.X"]) /\
  segments (table_target_path "S" "T.X" "DEV" None None) = 4 /\
  segments (table_source_path "PROD" "S" "T.X") = 4.
Proof. repeat split. Qed.

(** C8 (amended). [clone_table] puts the names it is given into
    target_db.target_schema.target_table (schema and table defaulting to
    the source's) and source_db.source_schema.source_table as they are: it
    counts no segments and raises nothing, and it returns true exactly
    when its three statements are accepted.  The segment count of a path
    is the sum over its three names, so both paths have exactly 3
    segments when no name has a dot in it. *)
Theorem C8_table_paths_are_interpolated_unchecked
        (w : World) (source_db source_schema source_table target_db : string)
        (target_schema target_table : option string) :
  let target := fmt [target_db; "."; or_else target_schema source_schema; ".";
                     or_else target_table source_table] in
  let source := fmt [source_db; "."; source_schema; "."; source_table] in
  let s1 := fmt ["CREATE DATABASE IF NOT EXISTS "; target_db] in
  let s2 := fmt ["CREATE SCHEMA IF NOT EXISTS "; target_db; ".";
                 or_else target_schema source_schema] in
  let s3 := fmt ["CREATE TABLE "; target; " CLONE "; source] in
  let res := clone_table w source_db source_schema source_table target_db
                         target_schema target_table in
  fst res = all_accepted w [s1; s2; s3] /\
  (exists k, 1 <= k <= 3 /\ after w (snd res) (firstn k [s1; s2; s3])) /\
  (fst res = true -> after w (snd res) [s1; s2; s3]) /\
  segments target
  = segments target_db + segments (or_else target_schema source_schema)
    + segments (or_else target_table source_table) /\
  segments source
  = segments source_db + segments source_schema + segments source_table /\
  (dot_free source_db = true -> dot_free source_schema = true ->
   dot_free source_table = true -> dot_free target_db = true ->
   dot_free (or_else target_schema source_schema) = true ->
   dot_free (or_else target_table source_table) = true ->
   segments target = 3 /\ segments source = 3).
Proof.
  intros target source s1 s2 s3 res.
  assert (R : fst res = all_accepted w [s1; s2; s3] /\
              (exists k, 1 <= k <= 3 /\ after w (snd res) (firstn k [s1; s2; s3])) /\
              (fst res = true -> after w (snd res) [s1; s2; s3])).
  { subst res. unfold clone_table, all_accepted, table_target_path, table_source_path.
    fold target source s1 s2 s3.
    destruct (execute w s1) as [[rs1|e1] w1] eqn:E1; simpl.
    - destruct (execute w1 s2) as [[rs2|e2] w2] eqn:E2; simpl.
      + destruct (execute w2 s3) as [[rs3|e3] w3] eqn:E3; simpl.
        * split; [reflexivity|]. split; [exists 3; split; [lia|] | intros _];
            simpl; eauto 6 with world.
        * split; [reflexivity|]. split; [exists 3; split; [lia|] | discriminate].
          simpl; eauto 6 with world.
      + split; [reflexivity|]. split; [exists 2; split; [lia|] | discriminate].
        simpl; eauto 6 with world.
    - split; [reflexivity|]. split; [exists 1; split; [lia|] | discriminate].
      simpl; eauto 6 with world. }
  destruct R as [R1 [R2 R3]].
  assert (St : segments target
               = segments target_db + segments (or_else target_schema source_schema)
                 + segments (or_else target_table source_table))
    by apply segments_path.
  assert (Ss : segments source
               = segments source_db + segments source_schema + segments source_table)
    by apply segments_path.
  repeat (split; [assumption|]).
  intros D1 D2 D3 D4 D5 D6. rewrite St, Ss.
  rewrite !segments_dot_free by assumption. split; reflexivity.
Qed.

Lemma C8_witness :
  (dot_free "PROD" = true /\ dot_free "S" = true /\ dot_free "T" = true /\
   dot_free "DEV" = true) /\
  segments (table_target_path "S" "T" "DEV" None None) = 3 /\
  segments (table_source_path "PROD" "S" "T") = 3.
Proof.
  split; [repeat split|].
  apply (C8_table_paths_are_interpolated_unchecked
           accepting "PROD" "S" "T" "DEV" None None); reflexivity.
Defined.

(** *** Validation *)

Lemma describable_after (w w1 : World) (obj : string) (b : bool) :
  describable w obj = (b, w1) ->
  b = accepted w (fmt ["DESCRIBE "; obj]) /\ after w w1 [fmt ["DESCRIBE "; obj]].
Proof.
  unfold describable, accepted, execute.
  destruct (responds w (issued w) (fmt ["DESCRIBE "; obj]));
    intros H; inversion H; subst; split; try reflexivity; split; reflexivity.
Qed.

Lemma describable_result (w : World) (obj : string) :
  describable w obj
  = (accepted w (fmt ["DESCRIBE "; obj]), issue w [fmt ["DESCRIBE "; obj]]).
Proof.
  unfold describable, accepted, execute, issue.
  now destruct (responds w (issued w) (fmt ["DESCRIBE "; obj])).
Qed.

Lemma get_clone_history_failure (w : World) (object_name : string) :
  truthy object_name = true ->
  accepted w (fmt ["SHOW CLONES LIKE '"; object_name; "'"]) = false ->
  fst (get_clone_history w (Some object_name)) = [].
Proof.
  unfold get_clone_history, accepted, execute. intros T. rewrite T.
  destruct (responds w (issued w) _); [discriminate | reflexivity].
Qed.

Lemma clone_infos_short (rows : list Row) :
  Exists (fun row => List.length row < 3) rows ->
  exists e, clone_infos rows = Raises e.
Proof.
  induction 1 as [row rows H|row rows H IH].
  - exists IndexError. cbn [clone_infos]. unfold clone_info.
    destruct row as [|c0 [|c1 [|c2 cells]]]; simpl in H; try lia; reflexivity.
  - destruct IH as [e E]. cbn [clone_infos]. rewrite E.
    destruct (clone_info row) as [i|e']; [now exists e | now exists e'].
Qed.

Lemma clone_infos_full (rows : list Row) :
  Forall (fun row => 3 <= List.length row) rows ->
  exists history,
    clone_infos rows = Returns history /\
    map (fun i => [source_object i; clone_object i; CloneFramework.created_on i]) history
    = map (firstn 3) rows /\
    map CloneFramework.clone_type history = map (fun row => nth_error row 3) rows.
Proof.
  induction 1 as [|row rows H _ IH].
  - exists []. now repeat split.
  - destruct IH as [history [E [F T]]].
    destruct row as [|c0 [|c1 [|c2 cells]]]; simpl in H; try lia.
    exists (mkClone c0 c1 c2 (nth_error cells 0) :: history).
    cbn [clone_infos]. rewrite E. unfold clone_info, index, index_opt. simpl.
    split; [|split].
    + now destruct cells.
    + now rewrite F.
    + now rewrite T.
Qed.

(** The edge test on a history that was read in full is the edge test on
    the first two columns of the rows. *)
Lemma has_edge_rows (source_obj target_obj : string) (rows : list Row) :
  forall history,
    clone_infos rows = Returns history ->
    (has_edge history source_obj target_obj = true <->
     exists row, In row rows /\ nth_error row 0 = Some source_obj
                 /\ nth_error row 1 = Some target_obj).
Proof.
  induction rows as [|row rows IH]; intros history E.
  - inversion E; subst. split; [discriminate | intros [row [[] _]]].
  - cbn [clone_infos] in E.
    destruct (clone_info row) as [i|e] eqn:Ei; [|discriminate].
    destruct (clone_infos rows) as [h|e] eqn:Eh; [|discriminate].
    inversion E; subst. specialize (IH h eq_refl).
    assert (Hi : nth_error row 0 = Some (source_object i)
                 /\ nth_error row 1 = Some (clone_object i)).
    { unfold clone_info, index in Ei.
      destruct row as [|c0 [|c1 [|c2 cells]]]; simpl in Ei; try discriminate.
      inversion Ei; subst. split; reflexivity. }
    destruct Hi as [H0 H1].
    unfold has_edge in *. cbn [existsb]. rewrite orb_true_iff, andb_true_iff, IH.
    rewrite !String.eqb_eq. split.
    + intros [[S T]|[r [I R]]].
      * exists row. split; [now left|]. rewrite H0, H1, S, T. now split.
      * exists r. split; [now right | exact R].
    + intros [r [[I|I] [R0 R1]]].
      * subst r. left. rewrite H0 in R0. rewrite H1 in R1.
        inversion R0; inversion R1. now split.
      * right. exists r. now split.
Qed.

(** C5. [validate_clone_operation] reports SUCCESS exactly when the three
    checks pass: the source is describable, the target is describable, and
    the clone history read for the target has an edge from source to
    target.  Otherwise it reports FAILED; the three flags are kept in the
    result, and no failure of a query is propagated (the result carries no
    error): a DESCRIBE that fails clears its flag, and a history that
    cannot be read, or that has no matching edge, clears the lineage flag
    even when both objects are describable.

    The flags are what the warehouse answers to the three statements the
    call issues.  The lineage flag is set exactly when SHOW CLONES,
    filtered by the target, is answered with rows that all have at least
    three columns (a shorter row makes the history unreadable), one of
    which has the source in its first column and the target in its
    second. *)
Theorem C5_validation_success_iff_all_checks
        (w : World) (source_obj target_obj : string) :
  let r := fst (validate_clone_operation w source_obj target_obj) in
  let w1 := snd (describable w source_obj) in
  let w2 := snd (describable w1 target_obj) in
  let history := fst (get_clone_history w2 (Some target_obj)) in
  let describe_source := fmt ["DESCRIBE "; source_obj] in
  let describe_target := fmt ["DESCRIBE "; target_obj] in
  let show_clones :=
    if truthy target_obj then fmt ["SHOW CLONES LIKE '"; target_obj; "'"]
    else "SHOW CLONES" in
  let source_answer := responds w (issued w) describe_source in
  let target_answer := responds w (issued w ++ [describe_source]) describe_target in
  let clones_answer :=
    responds w (issued w ++ [describe_source; describe_target]) show_clones in
  let edge_in (rows : list Row) :=
    Forall (fun row => 3 <= List.length row) rows /\
    exists row, In row rows /\ nth_error row 0 = Some source_obj
                /\ nth_error row 1 = Some target_obj in
  (overall_status r = SUCCESS <->
   source_accessible (checks r) = true /\ target_exists (checks r) = true
   /\ clone_relationship (checks r) = true) /\
  (overall_status r = FAILED <-> overall_status r <> SUCCESS) /\
  v_error r = None /\
  source_accessible (checks r) = accepted w (fmt ["DESCRIBE "; source_obj]) /\
  target_exists (checks r) = accepted w1 (fmt ["DESCRIBE "; target_obj]) /\
  clone_relationship (checks r) = has_edge history source_obj target_obj /\
  (has_edge history source_obj target_obj = false -> overall_status r = FAILED) /\
  (truthy target_obj = true ->
   accepted w2 (fmt ["SHOW CLONES LIKE '"; target_obj; "'"]) = false ->
   overall_status r = FAILED) /\
  (source_accessible (checks r) = true <-> exists rows, source_answer = Rows rows) /\
  (target_exists (checks r) = true <-> exists rows, target_answer = Rows rows) /\
  (clone_relationship (checks r) = true <->
   exists rows, clones_answer = Rows rows /\ edge_in rows) /\
  (overall_status r = SUCCESS <->
   (exists rows, source_answer = Rows rows) /\
   (exists rows, target_answer = Rows rows) /\
   (exists rows, clones_answer = Rows rows /\ edge_in rows)).
Proof.
  intros r w1 w2 history describe_source describe_target show_clones
         source_answer target_answer clones_answer edge_in.
  subst r w1 w2 history.
  unfold validate_clone_operation. rewrite !describable_result. cbn [snd].
  rewrite ?describable_result. cbn [snd].
  fold describe_source describe_target.
  replace (issue (issue w [describe_source]) [describe_target])
    with (issue w [describe_source; describe_target])
    by (unfold issue; cbn [responds issued]; now rewrite <- app_assoc).
  set (w1 := issue w [describe_source]).
  set (w2 := issue w [describe_source; describe_target]).
  assert (A1 : accepted w describe_source = true <-> exists rows, source_answer = Rows rows).
  { unfold accepted. fold source_answer. destruct source_answer.
    - split; [now exists rs | reflexivity].
    - split; [discriminate | intros [rows R]; discriminate R]. }
  assert (A2 : accepted w1 describe_target = true <-> exists rows, target_answer = Rows rows).
  { unfold accepted, w1. cbn [issue responds issued]. fold target_answer.
    destruct target_answer.
    - split; [now exists rs | reflexivity].
    - split; [discriminate | intros [rows R]; discriminate R]. }
  pose proof (get_clone_history_failure w2 target_obj) as HF.
  assert (H : has_edge (fst (get_clone_history w2 (Some target_obj))) source_obj target_obj
              = true <->
              exists rows, clones_answer = Rows rows /\ edge_in rows).
  { unfold get_clone_history. fold show_clones. unfold execute, w2.
    cbn [issue responds issued]. fold clones_answer.
    destruct clones_answer as [rows|].
    - destruct (clone_infos rows) as [h|e] eqn:E; cbn [fst].
      + rewrite (has_edge_rows source_obj target_obj rows h E). split.
        * intros X. exists rows. split; [reflexivity|]. split; [|exact X].
          apply Forall_forall. intros row I.
          destruct (Nat.le_gt_cases 3 (List.length row)) as [L|L]; [exact L|].
          assert (S : Exists (fun row => List.length row < 3) rows)
            by (apply Exists_exists; now exists row).
          destruct (clone_infos_short rows S) as [e' E']. rewrite E' in E. discriminate E.
        * intros [rows' [R [_ X]]]. inversion R; subst. exact X.
      + split; [discriminate|]. intros [rows' [R [F _]]]. inversion R; subst.
        destruct (clone_infos_full rows' F) as [h [E' _]]. rewrite E' in E. discriminate E.
    - cbn [fst]. split; [discriminate | intros [rows [R _]]; discriminate R]. }
  destruct (get_clone_history w2 (Some target_obj)) as [clones w3].
  cbn [fst] in *.
  cbn [overall_status checks source_accessible target_exists
       clone_relationship v_error]. unfold all_checks.
  cbn [source_accessible target_exists clone_relationship].
  rewrite <- A1, <- A2, <- H.
  assert (Hq : truthy target_obj = true ->
               accepted w2 (fmt ["SHOW CLONES LIKE '"; target_obj; "'"]) = false ->
               has_edge clones source_obj target_obj = false)
    by (intros T A; now rewrite (HF T A)).
  clear HF H A1 A2.
  destruct (has_edge clones source_obj target_obj) eqn:He.
  - destruct (accepted w describe_source), (accepted w1 describe_target); simpl;
      (repeat split; try reflexivity; try discriminate; try tauto;
       try (intros [? [? ?]]; discriminate);
       try (intros T A; specialize (Hq T A); discriminate Hq)).
  - destruct (accepted w describe_source), (accepted w1 describe_target); simpl;
      (repeat split; try reflexivity; try discriminate; try tauto;
       try (intros [? [? ?]]; discriminate)).
Qed.

(** On a warehouse that describes both objects: the history row from the
    source to the target gives SUCCESS; a row from another source gives
    FAILED with both objects describable. *)
Lemma C5_witness :
  let answering rows :=
    mkWorld (fun _ sql => if String.eqb sql "SHOW CLONES LIKE 'DEV.DB'"
                          then Rows rows else Rows []) [] in
  let cloned := answering [["PROD.DB"; "DEV.DB"; "2024-01-01"]] in
  let other := answering [["OTHER.DB"; "DEV.DB"; "2024-01-01"]] in
  let r := fst (validate_clone_operation other "PROD.DB" "DEV.DB") in
  overall_status (fst (validate_clone_operation cloned "PROD.DB" "DEV.DB")) = SUCCESS /\
  has_edge (fst (get_clone_history
                   (snd (describable (snd (describable other "PROD.DB")) "DEV.DB"))
                   (Some "DEV.DB"))) "PROD.DB" "DEV.DB" = false /\
  source_accessible (checks r) = true /\ target_exists (checks r) = true /\
  overall_status r = FAILED.
Proof.
  intros answering cloned other r.
  split; [|split; [reflexivity|]; split; [reflexivity|]; split; [reflexivity|]].
  - destruct (C5_validation_success_iff_all_checks cloned "PROD.DB" "DEV.DB")
      as [_ [_ [_ [_ [_ [_ [_ [_ [_ [_ [_ S]]]]]]]]]]].
    apply S. split; [now exists [] | split; [now exists [] |]].
    exists [["PROD.DB"; "DEV.DB"; "2024-01-01"]]. split; [reflexivity|]. split.
    + repeat constructor.
    + exists ["PROD.DB"; "DEV.DB"; "2024-01-01"]. split; [now left | split; reflexivity].
  - destruct (C5_validation_success_iff_all_checks other "PROD.DB" "DEV.DB")
      as [_ [_ [_ [_ [_ [_ [F _]]]]]]].
    apply F. reflexivity.
Defined.

(** ** RBAC manager *)

Import RBACManager.

(** *** String replacement *)

Lemma append_assoc (a b c : string) :
  String.append (String.append a b) c = String.append a (String.append b c).
Proof. induction a as [|x a IH]; simpl; [reflexivity | now rewrite IH]. Qed.

Lemma prefix_append (p rest : string) : String.prefix p (String.append p rest) = true.
Proof.
  induction p as [|a p IH]; simpl; [now destruct rest|].
  destruct (ascii_dec a a) as [_|N]; [exact IH | now elim N].
Qed.

Lemma prefix_nil (s : string) : String.prefix "" s = true.
Proof. now destruct s. Qed.

Lemma prefix_extend (p s t : string) :
  String.prefix p s = true -> String.prefix p (String.append s t) = true.
Proof.
  revert s. induction p as [|a p IH]; intros s H.
  - apply prefix_nil.
  - destruct s as [|b s]; simpl in *; [discriminate|].
    destruct (ascii_dec a b); [now apply IH | discriminate].
Qed.

Lemma prefix_split (p s : string) :
  String.prefix p s = true -> exists rest, s = String.append p rest.
Proof.
  revert s. induction p as [|a p IH]; intros s H.
  - now exists s.
  - destruct s as [|b s]; simpl in H; [discriminate|].
    destruct (ascii_dec a b) as [->|]; [|discriminate].
    destruct (IH _ H) as [rest ->]. now exists rest.
Qed.

Lemma replace_from_skip (old new a rest : string) :
  replace_from (String.length a) old new (String.append a rest)
  = replace_from 0 old new rest.
Proof.
  induction a as [|c a IH]; simpl; [|exact IH].
  destruct rest; reflexivity.
Qed.

(** At an occurrence the new text is emitted and the scan goes on behind
    the occurrence. *)
Lemma replace_from_occurrence (c : ascii) (old' new rest : string) :
  replace_from 0 (String c old') new (String.append (String c old') rest)
  = String.append new (replace_from 0 (String c old') new rest).
Proof.
  pose proof (prefix_append (String c old') rest) as P.
  cbn [String.append] in *. cbn [replace_from]. rewrite P.
  cbn [String.length].
  replace (S (String.length old') - 1) with (String.length old') by lia.
  now rewrite replace_from_skip.
Qed.

(** A text without an occurrence is copied. *)
Lemma replace_from_absent (old new s : string) :
  contains old s = false -> replace_from 0 old new s = s.
Proof.
  induction s as [|c s IH]; intros H; [reflexivity|].
  cbn [contains] in H. apply orb_false_iff in H. destruct H as [P C].
  cbn [replace_from]. rewrite P. now rewrite IH.
Qed.

(** An occurrence of a text whose first character does not come back in
    it cannot start inside [c] and run over the end of [c]. *)
Lemma prefix_before_marker (m : ascii) (q : string) :
  has_char m q = false ->
  forall c t,
    String.prefix q (String.append c (String m t)) = true ->
    String.prefix q c = true.
Proof.
  induction q as [|a q IH]; intros Hm c t H.
  - apply prefix_nil.
  - cbn [has_char] in Hm. apply orb_false_iff in Hm. destruct Hm as [Ha Hq].
    destruct c as [|b c]; cbn [String.append String.prefix] in *.
    + destruct (ascii_dec a m) as [->|]; [|discriminate].
      now rewrite Ascii.eqb_refl in Ha.
    + destruct (ascii_dec a b); [|discriminate]. eapply IH; eauto.
Qed.

Lemma replace_from_chunk (m : ascii) (q new c rest : string) :
  has_char m q = false ->
  contains (String m q) c = false ->
  replace_from 0 (String m q) new
               (String.append c (String.append (String m q) rest))
  = String.append c (String.append new (replace_from 0 (String m q) new rest)).
Proof.
  intros Hm. induction c as [|b c IH]; intros Hc.
  - apply replace_from_occurrence.
  - cbn [contains] in Hc. apply orb_false_iff in Hc. destruct Hc as [Hp Hc].
    cbn [String.append replace_from].
    destruct (String.prefix (String m q)
                (String b (String.append c (String m (String.append q rest)))))
      eqn:E.
    + exfalso. cbn [String.prefix] in E, Hp.
      destruct (ascii_dec m b); [|discriminate].
      apply (prefix_before_marker m q Hm) in E. congruence.
    + f_equal. apply IH. exact Hc.
Qed.

(** The first occurrence of a non-empty text. *)
Lemma contains_split (old s : string) :
  old <> "" ->
  contains old s = true ->
  exists l r, s = String.append l (String.append old r) /\ contains old l = false.
Proof.
  intros Hne. induction s as [|c s IH]; intros H.
  - cbn in H. destruct old; [now elim Hne | discriminate].
  - cbn [contains] in H.
    destruct (String.prefix old (String c s)) eqn:P.
    + destruct (prefix_split _ _ P) as [r ->]. exists "", r. split; [reflexivity|].
      destruct old; [now elim Hne | reflexivity].
    + simpl in H. destruct (IH H) as [l [r [-> Hl]]].
      exists (String c l), r. split; [reflexivity|].
      cbn [contains]. rewrite Hl, orb_false_r.
      destruct (String.prefix old (String c l)) eqn:P'; [|reflexivity].
      apply (prefix_extend _ _ (String.append old r)) in P'.
      cbn [String.append] in P'. congruence.
Qed.

Lemma length_append (a b : string) :
  String.length (String.append a b) = String.length a + String.length b.
Proof. induction a as [|c a IH]; simpl; [reflexivity | now rewrite IH]. Qed.

(** Every text is a sequence of occurrence-free chunks with an occurrence
    between any two of them. *)
Lemma chunks_exist (old : string) :
  old <> "" ->
  forall s, exists c cs,
      Forall (fun x => contains old x = false) (c :: cs) /\
      s = String.concat old (c :: cs).
Proof.
  intros Hne s.
  remember (String.length s) as n eqn:Hn. revert s Hn.
  induction n as [n IH] using lt_wf_ind. intros s Hn.
  destruct (contains old s) eqn:C.
  - destruct (contains_split old s Hne C) as [l [r [-> Hl]]].
    assert (Lr : String.length r < n).
    { subst n. rewrite !length_append.
      destruct old; [now elim Hne | simpl; lia]. }
    destruct (IH _ Lr r eq_refl) as [c [cs [F ->]]].
    exists l, (c :: cs). split; [now constructor | reflexivity].
  - exists s, []. split; [now repeat constructor | reflexivity].
Qed.

Lemma replace_chunks (m : ascii) (q new : string) :
  has_char m q = false ->
  forall chunks,
    Forall (fun x => contains (String m q) x = false) chunks ->
    replace (String m q) new (String.concat (String m q) chunks)
    = String.concat new chunks.
Proof.
  intros Hm. cbn [replace].
  induction chunks as [|c [|c2 cs] IH]; intros F.
  - reflexivity.
  - inversion F; subst. now apply replace_from_absent.
  - inversion F; subst.
    change (String.concat (String m q) (c :: c2 :: cs))
      with (String.append c (String.append (String m q)
                                           (String.concat (String m q) (c2 :: cs)))).
    rewrite replace_from_chunk by assumption.
    rewrite IH by assumption. reflexivity.
Qed.

(** *** The privileges of one role *)

Lemma after_eq (w w1 : World) (new : list string) :
  after w w1 new -> w1 = mkWorld (responds w) (issued w ++ new).
Proof. destruct w1 as [r i]. unfold after. simpl. now intros [-> ->]. Qed.

Lemma all_accepted_app (a b : list string) :
  forall w,
    all_accepted w (a ++ b)
    = all_accepted w a && all_accepted (mkWorld (responds w) (issued w ++ a)) b.
Proof.
  induction a as [|s a IH]; intros w.
  - simpl. rewrite app_nil_r. now destruct w.
  - cbn [app all_accepted].
    destruct (execute w s) as [[rs|e] w1] eqn:E; [|reflexivity].
    apply execute_after_eq in E. apply after_eq in E. subst w1.
    rewrite IH. simpl. now rewrite <- app_assoc.
Qed.

Lemma grant_privilege_issue_all (privilege object_type role : string)
      (objs : list string) :
  forall w,
    _grant_privilege w (NotNone privilege) object_type (NotNone objs) role
    = issue_all w (map (fun obj => grant_sql privilege object_type obj role) objs).
Proof.
  unfold _grant_privilege.
  induction objs as [|obj objs IH]; intros w; simpl; [reflexivity|].
  destruct (execute w _) as [[rs|e] w1]; [apply IH | reflexivity].
Qed.

Lemma issue_all_until (stmts : list string) :
  forall w,
    issue_all w stmts = (all_accepted w stmts, issue w (until_rejected w stmts)).
Proof.
  induction stmts as [|s stmts IH]; intros w.
  - cbn. f_equal. destruct w as [r i]. unfold issue. cbn. now rewrite app_nil_r.
  - cbn [issue_all all_accepted until_rejected]. unfold execute, accepted.
    fold (issue w [s]).
    destruct (responds w (issued w) s) as [rows|].
    + rewrite IH. f_equal. unfold issue. cbn [responds issued].
      now rewrite <- app_assoc.
    + reflexivity.
Qed.

Lemma until_rejected_spec (stmts : list string) :
  forall w,
  exists k,
    until_rejected w stmts = firstn k stmts /\
    (stmts <> [] -> 1 <= k) /\
    all_accepted w (until_rejected w stmts) = all_accepted w stmts /\
    (all_accepted w stmts = true -> until_rejected w stmts = stmts).
Proof.
  induction stmts as [|s stmts IH]; intros w.
  - exists 0. cbn. split; [reflexivity|]. split; [intros H; now elim H|]. split; reflexivity.
  - cbn [until_rejected all_accepted]. unfold execute, accepted. fold (issue w [s]).
    destruct (responds w (issued w) s) as [rows|].
    + destruct (IH (issue w [s])) as [k [K [_ [B C]]]]. exists (S k).
      cbn [firstn]. rewrite <- K. split; [reflexivity|]. split; [lia|].
      split; [exact B|]. intros H. now rewrite C.
    + exists 1. cbn [firstn]. split; [reflexivity|]. split; [lia|].
      split; [reflexivity | discriminate].
Qed.

Lemma attempt_spec (e : PlanEntry) (w : World) :
  let block := match snd e with Some stmts => until_rejected w stmts | None => [] end in
  snd (attempt w (snd e)) = issue w block /\
  attempted (e, fst (attempt w (snd e))) block /\
  fst (attempt w (snd e)) = all_accepted w block && has_statements e.
Proof.
  unfold attempted, has_statements. cbn [fst snd].
  destruct (snd e) as [stmts|]; cbn [attempt].
  - rewrite issue_all_until. cbn [fst snd].
    destruct (until_rejected_spec stmts w) as [k [K [N [B C]]]].
    split; [reflexivity|]. split.
    + exists k. auto.
    + now rewrite B, andb_true_r.
  - split; [|split; [split; reflexivity | reflexivity]].
    destruct w as [r i]. unfold issue. cbn. now rewrite app_nil_r.
Qed.

Lemma run_plan_spec (pl : list PlanEntry) :
  forall w,
    List.length (fst (run_plan w pl)) = List.length pl /\
    snd (run_plan w pl) = issue w (concat (blocks_of w pl)) /\
    Forall2 attempted (combine pl (fst (run_plan w pl))) (blocks_of w pl) /\
    forallb (fun b => b) (fst (run_plan w pl))
    = all_accepted w (concat (blocks_of w pl)) && forallb has_statements pl.
Proof.
  induction pl as [|e pl IH]; intros w.
  - split; [reflexivity|]. cbn. split; [|split; [constructor | reflexivity]].
    destruct w as [r i]. unfold issue. cbn. now rewrite app_nil_r.
  - cbn [run_plan blocks_of].
    destruct (attempt_spec e w) as [A [B C]].
    set (block := match snd e with Some stmts => until_rejected w stmts | None => [] end)
      in *.
    destruct (attempt w (snd e)) as [ok w1]. cbn [fst snd] in *. subst w1.
    destruct (IH (issue w block)) as [L [A' [F B']]].
    destruct (run_plan (issue w block) pl) as [oks w2]. cbn [fst snd] in *.
    split; [simpl; now rewrite L|].
    cbn [concat combine forallb].
    split; [|split].
    + rewrite A'. unfold issue. cbn [responds issued]. now rewrite <- app_assoc.
    + constructor; [exact B | exact F].
    + rewrite all_accepted_app. fold (issue w block). rewrite C, B'.
      destruct (all_accepted w block), (has_statements e),
        (all_accepted (issue w block) (concat (blocks_of (issue w block) pl)));
        reflexivity.
Qed.

Lemma run_plan_app (a b : list PlanEntry) :
  forall w,
    run_plan w (a ++ b)
    = (fst (run_plan w a) ++ fst (run_plan (snd (run_plan w a)) b),
       snd (run_plan (snd (run_plan w a)) b)).
Proof.
  induction a as [|e a IH]; intros w.
  - simpl. now destruct (run_plan w b).
  - cbn [app run_plan]. destruct (attempt w (snd e)) as [ok w1].
    rewrite IH. destruct (run_plan w1 a) as [oks w2]. cbn [fst snd].
    reflexivity.
Qed.

Lemma noted_app (l1 l2 : list (PrivilegeInfo * bool)) (r : RoleResult) :
  noted r (l1 ++ l2) = noted (noted r l1) l2.
Proof. unfold noted. apply fold_left_app. Qed.

(** One iteration of a loop is the plan entry of its configured entry,
    attempted and noted, or the exception of the entry. *)
Lemma apply_entry_planned (type_label object_type : string) (substitute : bool)
      (role_name target_database : string) (w : World) (result : RoleResult)
      (p : EntryConfig) :
  apply_entry type_label object_type substitute role_name target_database (w, result) p
  = match planned_entry type_label object_type substitute role_name target_database p with
    | Raises e => Raises e
    | Returns entry =>
        Returns (snd (attempt w (snd entry)),
                 note result (fst entry) (fst (attempt w (snd entry))))
    end.
Proof.
  unfold apply_entry, planned_entry.
  destruct (e_privilege p) as [pv|]; [|reflexivity].
  destruct (e_objects p) as [[|objs]|]; [| |reflexivity].
  - destruct substitute; [reflexivity|]. cbn [_grant_privilege attempt fst snd note].
    reflexivity.
  - destruct pv as [|pv].
    + assert (E : forall os, _grant_privilege w IsNone object_type (NotNone os) role_name
                             = attempt w (match os with [] => Some [] | _ :: _ => None end)).
      { intros [|o os]; reflexivity. }
      destruct substitute.
      * rewrite E. unfold _substitute_variables.
        destruct objs as [|obj objs]; cbn [map fst snd attempt issue_all note]; reflexivity.
      * rewrite E.
        destruct objs as [|obj objs]; cbn [map fst snd attempt issue_all note]; reflexivity.
    + assert (E : (if substitute
                   then Returns (NotNone (_substitute_variables objs target_database))
                   else Returns (NotNone objs))
                  = Returns (NotNone (map (fun obj => if substitute
                                                      then replace placeholder target_database obj
                                                      else obj) objs))).
      { destruct substitute; [reflexivity | now rewrite map_id]. }
      rewrite E, grant_privilege_issue_all, map_map. cbn [fst snd attempt].
      unfold entry_statements.
      destruct (issue_all w _) as [ok w1]. unfold note. now destruct ok.
Qed.

Lemma for_raising_planned (type_label object_type : string) (substitute : bool)
      (role_name target_database : string) (ps : list EntryConfig) :
  forall st,
    for_raising (apply_entry type_label object_type substitute role_name target_database)
                ps st
    = run_part (planned_entries type_label object_type substitute role_name target_database
                                ps) st.
Proof.
  induction ps as [|p ps IH]; intros [w result]; [reflexivity|].
  cbn [for_raising planned_entries]. rewrite apply_entry_planned.
  destruct (planned_entry _ _ _ _ _ p) as [entry|e]; [|reflexivity].
  rewrite IH. unfold run_part.
  destruct (planned_entries _ _ _ _ _ ps) as [entries raised].
  cbn [fst snd run_plan map].
  destruct (attempt w (snd entry)) as [ok w1]. cbn [fst snd].
  destruct (run_plan w1 entries) as [oks w2]. reflexivity.
Qed.

Lemma for_each_raising_planned (type_label object_type : string) (substitute : bool)
      (role_name target_database : string) (l : option (nullable (list EntryConfig)))
      (st : World * RoleResult) :
  for_each_raising (apply_entry type_label object_type substitute role_name target_database)
                   l st
  = run_part (planned type_label object_type substitute role_name target_database l) st.
Proof.
  destruct l as [[|ps]|]; cbn [for_each_raising planned].
  - now destruct st.
  - apply for_raising_planned.
  - now destruct st.
Qed.

Lemma and_then_followed_by (a b : list PlanEntry * option exn)
      (k : World * RoleResult -> option exn * (World * RoleResult))
      (st : World * RoleResult) :
  (forall st', k st' = run_part b st') ->
  and_then (run_part a st) k = run_part (followed_by a b) st.
Proof.
  intros K. destruct a as [la [e|]]; [reflexivity|].
  unfold followed_by, and_then. cbn [fst snd].
  unfold run_part at 1. cbn [fst snd]. rewrite K.
  unfold run_part. cbn [fst snd].
  rewrite run_plan_app. cbn [fst snd].
  destruct (run_plan_spec la (fst st)) as [L _].
  rewrite map_app, combine_app by (now rewrite length_map, L).
  now rewrite noted_app.
Qed.

(** The result of a role is the result noted by the run of its plan,
    followed by the handler when the plan ends on an exception. *)
Lemma apply_as_plan (w : World) (role_name target_database : string)
      (privileges : nullable PrivilegesConfig) :
  let pl := fst (plan role_name target_database privileges) in
  let raised := snd (plan role_name target_database privileges) in
  _apply_role_privileges w role_name privileges target_database
  = (handled raised
             (noted (mkRoleResult role_name true [] [] [])
                    (combine (map fst pl) (fst (run_plan w pl)))),
     snd (run_plan w pl)).
Proof.
  intros pl raised. subst pl raised. unfold _apply_role_privileges.
  destruct privileges as [|c]; [reflexivity|].
  match goal with
  | |- match ?tried with _ => _ end = _ =>
      assert (T : tried = run_part (plan role_name target_database (NotNone c))
                                   (w, mkRoleResult role_name true [] [] []))
  end.
  { rewrite for_each_raising_planned. unfold plan.
    apply and_then_followed_by. intros st1. rewrite for_each_raising_planned.
    apply and_then_followed_by. intros st2. rewrite for_each_raising_planned.
    apply and_then_followed_by. intros st3. rewrite for_each_raising_planned.
    apply and_then_followed_by. intros st4. apply for_each_raising_planned. }
  rewrite T. unfold run_part. cbn [fst snd].
  now destruct (snd (plan role_name target_database (NotNone c))).
Qed.

Lemma planned_config (type_label object_type : string) (substitute : bool)
      (role_name target_database : string) (l : option (list PrivilegeEntry)) :
  planned type_label object_type substitute role_name target_database (section_config l)
  = (planned_well_formed type_label object_type substitute role_name target_database l,
     None).
Proof.
  unfold planned_well_formed. destruct l as [ps|]; [|reflexivity].
  cbn [section_config planned listed].
  induction ps as [|p ps IH]; [reflexivity|].
  cbn [map planned_entries]. rewrite IH. reflexivity.
Qed.

(** The plan of a well-formed configuration has every entry and ends on
    no exception. *)
Lemma plan_config (role_name target_database : string) (privileges : Privileges) :
  plan role_name target_database (NotNone (privileges_config privileges))
  = (plan_well_formed role_name target_database privileges, None).
Proof.
  unfold plan, plan_well_formed, privileges_config.
  cbn [c_databases c_schemas c_tables c_views c_warehouses].
  rewrite !planned_config. reflexivity.
Qed.

Lemma planned_well_formed_has_statements (type_label object_type : string)
      (substitute : bool) (role_name target_database : string)
      (l : option (list PrivilegeEntry)) :
  forallb has_statements
          (planned_well_formed type_label object_type substitute role_name target_database l)
  = true.
Proof.
  unfold planned_well_formed. induction (listed l) as [|p ps IH]; [reflexivity | exact IH].
Qed.

Lemma noted_spec (l : list (PrivilegeInfo * bool)) :
  forall r,
    role (noted r l) = role r /\
    success (noted r l) = success r && forallb (fun e => snd e) l /\
    applied_privileges (noted r l) = applied_privileges r ++ with_outcome true l /\
    failed_privileges (noted r l) = failed_privileges r ++ with_outcome false l /\
    error_messages (noted r l) = error_messages r.
Proof.
  unfold noted, with_outcome.
  induction l as [|[info ok] l IH]; intros r.
  - simpl. now rewrite andb_true_r, !app_nil_r.
  - cbn [fold_left fst snd]. destruct (IH (note r info ok)) as [R [S [A [F E]]]].
    rewrite R, S, A, F, E. unfold note.
    destruct ok; cbn [role success applied_privileges failed_privileges error_messages
                      filter map forallb fst snd Bool.eqb];
      rewrite <- ?app_assoc; repeat split; try reflexivity.
    now rewrite andb_false_r.
Qed.

Lemma with_outcome_length (l : list (PrivilegeInfo * bool)) :
  List.length (with_outcome true l) + List.length (with_outcome false l) = List.length l.
Proof.
  unfold with_outcome. induction l as [|[info ok] l IH]; [reflexivity|].
  destruct ok; simpl; lia.
Qed.

Lemma forallb_snd_combine {A : Type} (l : list A) (oks : list bool) :
  List.length oks = List.length l ->
  forallb (fun e => snd e) (combine l oks) = forallb (fun b => b) oks.
Proof.
  revert oks. induction l as [|a l IH]; intros [|ok oks] L; try discriminate;
    [reflexivity|].
  simpl. rewrite IH by (simpl in L; lia). reflexivity.
Qed.

Lemma with_outcome_false_nil (l : list (PrivilegeInfo * bool)) :
  with_outcome false l = [] <-> forallb (fun e => snd e) l = true.
Proof.
  unfold with_outcome. induction l as [|[info ok] l IH]; [simpl; tauto|].
  destruct ok; simpl; [exact IH|]. split; discriminate.
Qed.

(** What the run of a role leaves, in terms of its plan. *)
Lemma apply_role_spec (w : World) (role_name target_database : string)
      (privileges : nullable PrivilegesConfig) :
  let res := fst (_apply_role_privileges w role_name privileges target_database) in
  let pl := fst (plan role_name target_database privileges) in
  let raised := snd (plan role_name target_database privileges) in
  let oks := fst (run_plan w pl) in
  let outcomes := combine (map fst pl) oks in
  role res = role_name /\
  success res = forallb (fun b => b) oks
                && match raised with None => true | Some _ => false end /\
  applied_privileges res = with_outcome true outcomes /\
  failed_privileges res = with_outcome false outcomes /\
  error_messages res = match raised with None => [] | Some e => [e] end.
Proof.
  intros res pl raised oks outcomes. subst res.
  rewrite (apply_as_plan w role_name target_database privileges).
  fold pl. fold raised. fold oks. fold outcomes. cbn [fst].
  destruct (run_plan_spec pl w) as [L _]. fold oks in L.
  destruct (noted_spec outcomes (mkRoleResult role_name true [] [] []))
    as [R [S [Ap [Fp E]]]].
  cbn [role success applied_privileges failed_privileges error_messages andb app]
    in R, S, Ap, Fp, E.
  assert (So : forallb (fun e => snd e) outcomes = forallb (fun b => b) oks).
  { subst outcomes. apply forallb_snd_combine. now rewrite length_map. }
  rewrite So in S.
  destruct raised as [e|]; cbn [handled role success applied_privileges failed_privileges
                                 error_messages].
  - rewrite andb_false_r, E. repeat split; assumption.
  - rewrite andb_true_r. repeat split; assumption.
Qed.

(** C3, as the specification states it, fails.  The specification counts
    one grant per (privilege, object pattern) pair.  Ten such grants are
    configured below, in nine entries, and the warehouse rejects exactly
    one of the ten statements, the grant on the schema DEV.RAW.  The
    grant on DEV.CORE, which follows it in the same entry, is never
    attempted, and the result has eight entries in applied_privileges,
    not nine. *)
Lemma C3_counterexample :
  let databases := [mkEntry "USAGE" ["${TARGET_DATABASE}"];
                    mkEntry "MONITOR" ["${TARGET_DATABASE}"]] in
  let schemas := [mkEntry "USAGE" ["${TARGET_DATABASE}.RAW"; "${TARGET_DATABASE}.CORE"];
                  mkEntry "CREATE TABLE" ["${TARGET_DATABASE}.PUBLIC"]] in
  let tables := [mkEntry "SELECT" ["${TARGET_DATABASE}.PUBLIC.ORDERS"];
                 mkEntry "INSERT" ["${TARGET_DATABASE}.PUBLIC.ORDERS"]] in
  let views := [mkEntry "SELECT" ["${TARGET_DATABASE}.PUBLIC.V_ORDERS"];
                mkEntry "all" ["${TARGET_DATABASE}.PUBLIC.V_USERS"]] in
  let warehouses := [mkEntry "USAGE" ["WH_DEV"]] in
  let privileges :=
    mkPrivileges (Some databases) (Some schemas) (Some tables) (Some views)
                 (Some warehouses) in
  let statements object_type substitute :=
    flat_map (fun p => entry_statements object_type substitute "SR_READ" "DEV"
                                        (privilege p) (objects p)) in
  let configured :=
    statements "DATABASE" true databases ++ statements "SCHEMA" true schemas
    ++ statements "TABLE" true tables ++ statements "VIEW" true views
    ++ statements "WAREHOUSE" false warehouses in
  let w := rejecting ["GRANT USAGE ON SCHEMA DEV.RAW TO ROLE SR_READ"] in
  let ran := _apply_role_privileges w "SR_READ" (NotNone (privileges_config privileges))
                                    "DEV" in
  List.length (flat_map objects (databases ++ schemas ++ tables ++ views ++ warehouses))
  = 10 /\
  configured
  = ["GRANT USAGE ON DATABASE DEV TO ROLE SR_READ";
     "GRANT MONITOR ON DATABASE DEV TO ROLE SR_READ";
     "GRANT USAGE ON SCHEMA DEV.RAW TO ROLE SR_READ";
     "GRANT USAGE ON SCHEMA DEV.CORE TO ROLE SR_READ";
     "GRANT CREATE TABLE ON SCHEMA DEV.PUBLIC TO ROLE SR_READ";
     "GRANT SELECT ON TABLE DEV.PUBLIC.ORDERS TO ROLE SR_READ";
     "GRANT INSERT ON TABLE DEV.PUBLIC.ORDERS TO ROLE SR_READ";
     "GRANT SELECT ON VIEW DEV.PUBLIC.V_ORDERS TO ROLE SR_READ";
     "GRANT ALL PRIVILEGES ON VIEW DEV.PUBLIC.V_USERS TO ROLE SR_READ";
     "GRANT USAGE ON WAREHOUSE WH_DEV TO ROLE SR_READ"] /\
  filter (fun sql => negb (accepted w sql)) configured
  = ["GRANT USAGE ON SCHEMA DEV.RAW TO ROLE SR_READ"] /\
  success (fst ran) = false /\
  List.length (applied_privileges (fst ran)) = 8 /\
  List.length (failed_privileges (fst ran)) = 1 /\
  error_messages (fst ran) = [] /\
  issued (snd ran)
  = ["GRANT USAGE ON DATABASE DEV TO ROLE SR_READ";
     "GRANT MONITOR ON DATABASE DEV TO ROLE SR_READ";
     "GRANT USAGE ON SCHEMA DEV.RAW TO ROLE SR_READ";
     "GRANT CREATE TABLE ON SCHEMA DEV.PUBLIC TO ROLE SR_READ";
     "GRANT SELECT ON TABLE DEV.PUBLIC.ORDERS TO ROLE SR_READ";
     "GRANT INSERT ON TABLE DEV.PUBLIC.ORDERS TO ROLE SR_READ";
     "GRANT SELECT ON VIEW DEV.PUBLIC.V_ORDERS TO ROLE SR_READ";
     "GRANT ALL PRIVILEGES ON VIEW DEV.PUBLIC.V_USERS TO ROLE SR_READ";
     "GRANT USAGE ON WAREHOUSE WH_DEV TO ROLE SR_READ"].
Proof. repeat split; vm_compute; reflexivity. Qed.

(** C3 (amended).  Grants are attempted and recorded per configured
    privilege entry, that is per call of [_grant_privilege], not per
    object pattern.  The plan of the role lists the entries reached, in
    the order of the five loops; it ends on an exception when reading the
    configuration raises (null privileges or a null section, an entry
    without its privilege or objects key, null objects where they are
    substituted).

    The result of a role has success = true exactly when every entry of
    the plan succeeded and the plan ended on no exception; that is,
    exactly when failed_privileges and error_messages are empty; that
    is, exactly when every statement attempted for the role was
    accepted, every entry reached the warehouse and no exception was
    raised.  An entry issues its statements in order up to the first one
    that is rejected: the statements after it are not attempted, and the
    statements the role leaves are these blocks, entry after entry.  Every
    entry of the plan is attempted whatever the earlier ones gave, and is
    recorded in applied_privileges when it succeeded and in
    failed_privileges when it did not; so with ten entries of which one
    fails, success is false and the other nine are in applied_privileges.
    An exception is recorded in error_messages and clears success; the
    entries after it are not attempted.  A well-formed configuration
    raises no exception and all its entries reach the warehouse. *)
Theorem C3_role_success_per_privilege_entry
        (w : World) (role_name target_database : string)
        (privileges : nullable PrivilegesConfig) :
  let res := fst (_apply_role_privileges w role_name privileges target_database) in
  let w' := snd (_apply_role_privileges w role_name privileges target_database) in
  let pl := fst (plan role_name target_database privileges) in
  let raised := snd (plan role_name target_database privileges) in
  let oks := fst (run_plan w pl) in
  let outcomes := combine (map fst pl) oks in
  List.length oks = List.length pl /\
  (success res = true <-> forallb (fun b => b) oks = true /\ raised = None) /\
  applied_privileges res = with_outcome true outcomes /\
  failed_privileges res = with_outcome false outcomes /\
  List.length (applied_privileges res) + List.length (failed_privileges res)
  = List.length pl /\
  error_messages res = match raised with None => [] | Some e => [e] end /\
  (success res = true <-> failed_privileges res = [] /\ error_messages res = []) /\
  after w w' (concat (blocks_of w pl)) /\
  Forall2 attempted (combine pl oks) (blocks_of w pl) /\
  (success res = true <->
   all_accepted w (concat (blocks_of w pl)) = true /\ forallb has_statements pl = true
   /\ raised = None) /\
  (List.length pl = 10 -> List.length (failed_privileges res) = 1 ->
   success res = false /\ List.length (applied_privileges res) = 9) /\
  (forall p, privileges = NotNone (privileges_config p) ->
             pl = plan_well_formed role_name target_database p /\
             List.length pl
             = List.length (listed (p_databases p)) + List.length (listed (p_schemas p))
               + List.length (listed (p_tables p)) + List.length (listed (p_views p))
               + List.length (listed (p_warehouses p)) /\
             forallb has_statements pl = true /\ raised = None) /\
  (privileges = IsNone ->
   res = mkRoleResult role_name false [] [] [TypeError] /\ w' = w).
Proof.
  intros res w' pl raised oks outcomes.
  destruct (apply_role_spec w role_name target_database privileges)
    as [_ [S [Ap [Fp Er]]]].
  fold res pl raised oks outcomes in S, Ap, Fp, Er.
  destruct (run_plan_spec pl w) as [L [A [F B]]]. fold oks in L, F, B.
  assert (W' : w' = snd (run_plan w pl)).
  { subst w'. now rewrite (apply_as_plan w role_name target_database privileges). }
  assert (Lo : List.length outcomes = List.length pl).
  { subst outcomes. rewrite length_combine, length_map, L. apply Nat.min_id. }
  assert (So : forallb (fun e => snd e) outcomes = forallb (fun b => b) oks).
  { subst outcomes. apply forallb_snd_combine. now rewrite length_map. }
  assert (Rn : (match raised with None => true | Some _ => false end) = true
               <-> raised = None).
  { destruct raised; split; congruence. }
  assert (Si : success res = true <-> forallb (fun b => b) oks = true /\ raised = None).
  { rewrite S, andb_true_iff, Rn. reflexivity. }
  split; [exact L|]. split; [exact Si|]. split; [exact Ap|]. split; [exact Fp|].
  split; [now rewrite Ap, Fp, with_outcome_length|].
  split; [exact Er|]. split; [|split; [|split; [|split; [|split; [|split]]]]].
  - rewrite Si, Fp, Er, with_outcome_false_nil, So.
    destruct raised; split; intros [X Y]; split; congruence.
  - rewrite W', A. split; reflexivity.
  - exact F.
  - rewrite Si, B, andb_true_iff. tauto.
  - intros Hten Hone.
    pose proof (with_outcome_length outcomes) as W.
    rewrite <- Ap, <- Fp, Lo, Hten, Hone in W.
    split; [|lia].
    destruct (success res) eqn:E; [|reflexivity].
    destruct (proj1 Si eq_refl) as [E' _]. rewrite <- So in E'.
    apply with_outcome_false_nil in E'. rewrite <- Fp in E'. rewrite E' in Hone.
    discriminate Hone.
  - intros p ->. subst pl raised. rewrite plan_config. cbn [fst snd].
    split; [reflexivity|]. split; [|split; [|reflexivity]].
    + unfold plan_well_formed, planned_well_formed.
      rewrite !length_app, !length_map. lia.
    + unfold plan_well_formed.
      now rewrite !forallb_app, !planned_well_formed_has_statements.
  - intros ->. split; reflexivity.
Qed.

(** Ten privilege entries, the warehouse rejecting the grant on the
    schema DEV.RAW; a configuration whose schemas section is null, on a
    warehouse that accepts everything; and null privileges. *)
Lemma C3_witness :
  let privileges :=
    mkPrivileges
      (Some [mkEntry "USAGE" ["${TARGET_DATABASE}"]; mkEntry "MONITOR" ["${TARGET_DATABASE}"]])
      (Some [mkEntry "USAGE" ["${TARGET_DATABASE}.PUBLIC"];
             mkEntry "USAGE" ["${TARGET_DATABASE}.RAW"; "${TARGET_DATABASE}.CORE"];
             mkEntry "CREATE TABLE" ["${TARGET_DATABASE}.PUBLIC"]])
      (Some [mkEntry "SELECT" ["${TARGET_DATABASE}.PUBLIC.ORDERS"];
             mkEntry "INSERT" ["${TARGET_DATABASE}.PUBLIC.ORDERS"]])
      (Some [mkEntry "SELECT" ["${TARGET_DATABASE}.PUBLIC.V_ORDERS"];
             mkEntry "all" ["${TARGET_DATABASE}.PUBLIC.V_USERS"]])
      (Some [mkEntry "USAGE" ["WH_DEV"]]) in
  let w := rejecting ["GRANT USAGE ON SCHEMA DEV.RAW TO ROLE SR_READ"] in
  let res := fst (_apply_role_privileges w "SR_READ" (NotNone (privileges_config privileges))
                                         "DEV") in
  let broken :=
    mkPrivilegesConfig
      (Some (NotNone [entry_config (mkEntry "USAGE" ["${TARGET_DATABASE}"])]))
      (Some IsNone) None None
      (Some (NotNone [entry_config (mkEntry "USAGE" ["WH_DEV"])])) in
  let ran := _apply_role_privileges accepting "SR_READ" (NotNone broken) "DEV" in
  (List.length (fst (plan "SR_READ" "DEV" (NotNone (privileges_config privileges)))) = 10 /\
   List.length (failed_privileges res) = 1) /\
  (success res = false /\ List.length (applied_privileges res) = 9) /\
  error_messages res = [] /\
  (success (fst ran) = false /\ error_messages (fst ran) = [TypeError] /\
   issued (snd ran) = ["GRANT USAGE ON DATABASE DEV TO ROLE SR_READ"]) /\
  _apply_role_privileges w "SR_READ" IsNone "DEV"
  = (mkRoleResult "SR_READ" false [] [] [TypeError], w).
Proof.
  intros privileges w res broken ran.
  assert (H10 : List.length (fst (plan "SR_READ" "DEV"
                                      (NotNone (privileges_config privileges)))) = 10)
    by reflexivity.
  assert (H1 : List.length (failed_privileges res) = 1) by (vm_compute; reflexivity).
  split; [split; assumption|].
  destruct (C3_role_success_per_privilege_entry
              w "SR_READ" "DEV" (NotNone (privileges_config privileges)))
    as [_ [_ [_ [_ [_ [E [_ [_ [_ [_ [T [P _]]]]]]]]]]]].
  split; [exact (T H10 H1)|]. split.
  - destruct (P privileges eq_refl) as [_ [_ [_ R]]]. rewrite R in E. exact E.
  - split.
    + destruct (C3_role_success_per_privilege_entry accepting "SR_READ" "DEV" (NotNone broken))
        as [_ [_ [_ [_ [_ [E' _]]]]]].
      split; [reflexivity|]. split; [exact E' | reflexivity].
    + destruct (C3_role_success_per_privilege_entry w "SR_READ" "DEV" IsNone)
        as [_ [_ [_ [_ [_ [_ [_ [_ [_ [_ [_ [_ N]]]]]]]]]]]].
      destruct (N eq_refl) as [R W].
      rewrite (surjective_pairing (_apply_role_privileges w "SR_READ" IsNone "DEV")).
      now rewrite R, W.
Defined.

(** C4. [_substitute_variables] applies a plain replacement of the text
    ${TARGET_DATABASE} to every object pattern: a pattern made of chunks
    without the placeholder, with the placeholder between them, becomes
    the same chunks with the target database between them (every pattern
    is of this form), so every occurrence is replaced and a pattern
    without an occurrence is unchanged.  The statements of a role use the
    substituted pattern for database, schema, table and view entries and
    the pattern as configured for warehouse entries.  The pattern
    ${TARGET_DATABASE}.PUBLIC.* with target database DEV becomes
    DEV.PUBLIC.*. *)
Theorem C4_placeholder_substitution (target_database : string) :
  (forall chunks,
      Forall (fun c => contains placeholder c = false) chunks ->
      replace placeholder target_database (String.concat placeholder chunks)
      = String.concat target_database chunks) /\
  (forall pattern, exists c cs,
        Forall (fun c => contains placeholder c = false) (c :: cs) /\
        pattern = String.concat placeholder (c :: cs)) /\
  (forall pattern,
      contains placeholder pattern = false ->
      replace placeholder target_database pattern = pattern) /\
  (forall objects,
      _substitute_variables objects target_database
      = map (replace placeholder target_database) objects) /\
  (forall w role_name privileges,
      let substituted object_type l :=
        map (fun p => map (fun obj =>
                             grant_sql (privilege p) object_type
                                       (replace placeholder target_database obj)
                                       role_name) (objects p)) (listed l) in
      let verbatim l :=
        map (fun p => map (fun obj => grant_sql (privilege p) "WAREHOUSE" obj role_name)
                          (objects p)) (listed l) in
      exists blocks,
        after w (snd (_apply_role_privileges w role_name
                                             (NotNone (privileges_config privileges))
                                             target_database))
              (concat blocks) /\
        Forall2 (fun stmts block => exists k, block = firstn k stmts)
                (substituted "DATABASE" (p_databases privileges)
                 ++ substituted "SCHEMA" (p_schemas privileges)
                 ++ substituted "TABLE" (p_tables privileges)
                 ++ substituted "VIEW" (p_views privileges)
                 ++ verbatim (p_warehouses privileges))
                blocks) /\
  replace placeholder "DEV" "${TARGET_DATABASE}.PUBLIC.*" = "DEV.PUBLIC.*" /\
  _substitute_variables ["${TARGET_DATABASE}.PUBLIC.*"] "DEV" = ["DEV.PUBLIC.*"].
Proof.
  split; [|split; [|split; [|split; [|split; [|split]]]]].
  - intros chunks F. apply (replace_chunks "$" "{TARGET_DATABASE}"); [reflexivity | exact F].
  - intros pattern. apply chunks_exist. discriminate.
  - intros pattern H. exact (replace_from_absent placeholder target_database pattern H).
  - reflexivity.
  - intros w role_name privileges substituted verbatim.
    rewrite (apply_as_plan w role_name target_database
                           (NotNone (privileges_config privileges))).
    rewrite plan_config. cbn [fst snd].
    set (pl := plan_well_formed role_name target_database privileges).
    destruct (run_plan_spec pl w) as [L [A [F _]]].
    exists (blocks_of w pl). split; [rewrite A; split; reflexivity|].
    revert L F. generalize (blocks_of w pl) as blocks. intros blocks L F.
    assert (E : map Some (substituted "DATABASE" (p_databases privileges)
                          ++ substituted "SCHEMA" (p_schemas privileges)
                          ++ substituted "TABLE" (p_tables privileges)
                          ++ substituted "VIEW" (p_views privileges)
                          ++ verbatim (p_warehouses privileges))
                = map snd pl).
    { subst pl substituted verbatim.
      unfold plan_well_formed, planned_well_formed, entry_statements.
      rewrite !map_app, !map_map. reflexivity. }
    revert E L F.
    generalize (substituted "DATABASE" (p_databases privileges)
                ++ substituted "SCHEMA" (p_schemas privileges)
                ++ substituted "TABLE" (p_tables privileges)
                ++ substituted "VIEW" (p_views privileges)
                ++ verbatim (p_warehouses privileges)) as stmts.
    generalize (fst (run_plan w pl)) as oks. clear A. revert blocks.
    induction pl as [|e pl IH]; intros blocks oks stmts E L F.
    + destruct stmts; [|discriminate]. destruct oks; [|discriminate].
      inversion F. constructor.
    + destruct stmts as [|s stmts]; [discriminate|].
      destruct oks as [|ok oks]; [discriminate|]. cbn [combine] in F.
      cbn [map] in E. inversion E as [[Es Et]].
      inversion F as [|x b l1 l2 At F']; subst.
      unfold attempted in At. cbn [fst snd] in At. rewrite <- Es in At.
      destruct At as [k [Hk _]].
      constructor; [now exists k|].
      apply (IH _ oks); [exact Et | simpl in L; lia | exact F'].
  - reflexivity.
  - reflexivity.
Qed.

Lemma C4_witness :
  (Forall (fun c => contains placeholder c = false) ["CLONE_"; ".RAW."; "_"; ""] /\
   contains placeholder "WH_XS" = false) /\
  replace placeholder "DEV" "CLONE_${TARGET_DATABASE}.RAW.${TARGET_DATABASE}_${TARGET_DATABASE}"
  = "CLONE_DEV.RAW.DEV_DEV" /\
  replace placeholder "DEV" "WH_XS" = "WH_XS".
Proof.
  assert (F : Forall (fun c => contains placeholder c = false) ["CLONE_"; ".RAW."; "_"; ""])
    by (repeat constructor).
  assert (C : contains placeholder "WH_XS" = false) by reflexivity.
  destruct (C4_placeholder_substitution "DEV") as [R [_ [U _]]].
  split; [split; assumption|].
  split; [exact (R _ F) | exact (U _ C)].
Defined.


(** *** Audit *)

Lemma keys_dict_set {V : Type} (d : odict V) (k : string) (v : V) :
  keys (dict_set d k v) = if dict_mem d k then keys d else keys d ++ [k].
Proof.
  unfold keys, dict_mem. induction d as [|[k' v'] d IH]; simpl; [reflexivity|].
  destruct (String.eqb k' k); simpl; [reflexivity|].
  rewrite IH. now destruct (dict_get d k).
Qed.

Lemma keys_mem {V : Type} (d : odict V) (k : string) :
  In k (keys d) <-> dict_mem d k = true.
Proof.
  unfold keys, dict_mem. induction d as [|[k' v'] d IH]; simpl.
  - split; [tauto | discriminate].
  - destruct (String.eqb_spec k' k) as [->|N].
    + split; auto.
    + rewrite <- IH. split; [intros [E|H]; [contradiction | exact H] | auto].
Qed.

Lemma keys_nodup_set {V : Type} (d : odict V) (k : string) (v : V) :
  NoDup (keys d) -> NoDup (keys (dict_set d k v)).
Proof.
  intros N. rewrite keys_dict_set. destruct (dict_mem d k) eqn:M; [exact N|].
  apply NoDup_app; [exact N | repeat constructor; intros [] |].
  intros x Hx [<-|[]]. apply keys_mem in Hx. congruence.
Qed.

Lemma audit_roles_spec (rows : list Row) :
  Forall (fun row => 2 <= List.length row) rows ->
  forall a,
  exists droles,
    audit_roles rows a
    = (None, mkAudit (au_target_database a) droles (grants a)
                     (mkAuSummary (au_total_roles (au_summary a) + List.length rows)
                                  (roles_with_grants (au_summary a))
                                  (users_with_roles (au_summary a)))
                     (au_error a)) /\
    (forall n, In n (keys droles) <->
               In n (keys (au_roles a))
               \/ exists row, In row rows /\ nth_error row 1 = Some n) /\
    (NoDup (keys (au_roles a)) -> NoDup (keys droles)).
Proof.
  induction 1 as [|row rows Hrow Hrows IH]; intros a.
  - exists (au_roles a). simpl. rewrite Nat.add_0_r.
    split; [now destruct a as [? ? ? [? ? ?] ?]|].
    split; [|auto]. intros n. split; [auto | intros [H|[row [[] _]]]; exact H].
  - destruct row as [|c0 [|c1 cells]]; simpl in Hrow; try lia.
    cbn [audit_roles index nth_error].
    match goal with
    | |- context [audit_roles rows ?a1] => destruct (IH a1) as [droles [E [K N]]]
    end.
    exists droles. rewrite E.
    cbn [au_target_database au_roles grants au_summary au_error
         au_total_roles roles_with_grants users_with_roles List.length] in *.
    split; [do 3 f_equal; lia|]. split.
    + intros n. rewrite K. rewrite keys_dict_set.
      destruct (dict_mem (au_roles a) c1) eqn:M.
      * split.
        -- intros [H|[row [Hin Hn]]]; [now left | right; exists row; split; [now right | exact Hn]].
        -- intros [H|[row [[<-|Hin] Hn]]]; [now left | | right; now exists row].
           simpl in Hn. inversion Hn; subst. left. now apply keys_mem.
      * rewrite in_app_iff. simpl. split.
        -- intros [[H|[<-|[]]]|[row [Hin Hn]]];
             [now left | right; exists (c0 :: c1 :: cells); split; [now left | reflexivity]
             | right; exists row; split; [now right | exact Hn]].
        -- intros [H|[row [[<-|Hin] Hn]]]; [now left; left | | right; now exists row].
           simpl in Hn. inversion Hn; subst. left; right; now left.
    + intros Nd. apply N. now apply keys_nodup_set.
Qed.

Lemma audit_grants_spec (names : list string) :
  forall w a,
    NoDup names ->
    (forall n, In n names -> dict_mem (grants a) n = false) ->
    roles_with_grants (au_summary a) = List.length (grants a) ->
    let st := fold_left audit_grants_step names (w, a) in
    au_roles (snd st) = au_roles a /\
    au_total_roles (au_summary (snd st)) = au_total_roles (au_summary a) /\
    au_error (snd st) = au_error a /\
    roles_with_grants (au_summary (snd st)) = List.length (grants (snd st)) /\
    roles_with_grants (au_summary (snd st))
    <= roles_with_grants (au_summary a) + List.length (readable w names) /\
    (forall n, dict_mem (grants (snd st)) n = true ->
               dict_mem (grants a) n = true \/ In n (readable w names)).
Proof.
  induction names as [|n names IH]; intros w a Nd Fresh Inv st; subst st.
  - simpl. repeat split; auto. lia.
  - inversion Nd as [|? ? Hn Nd']; subst.
    cbn [fold_left readable].
    remember (audit_grants_step (w, a) n) as st1 eqn:Hst.
    unfold audit_grants_step in Hst.
    destruct (execute w (show_grants n)) as [[rows|e] w1] eqn:E.
    + destruct (grant_infos rows) as [[|g gs]|e']; subst st1.
      * destruct (IH w1 a Nd') as [R [T [Er [I [Le M]]]]]; auto.
        { intros n' H'. apply Fresh. now right. }
        repeat split; auto; [simpl; lia|].
        intros n' H'. destruct (M n' H'); [now left | right; now right].
      * match goal with
        | |- context [fold_left audit_grants_step names (w1, ?a1)] =>
            destruct (IH w1 a1 Nd') as [R [T [Er [I [Le M]]]]]
        end.
        { intros n' H'. cbn [grants]. rewrite dict_mem_set.
          rewrite (Fresh n') by now right.
          destruct (String.eqb_spec n n') as [->|]; [contradiction | reflexivity]. }
        { cbn [grants au_summary roles_with_grants].
          rewrite dict_set_length, (Fresh n) by now left. lia. }
        cbn [au_roles au_summary au_total_roles au_error roles_with_grants grants] in *.
        repeat split; auto; [simpl; lia|].
        intros n' H'. destruct (M n' H') as [H''|H''].
        -- rewrite dict_mem_set in H''.
           destruct (String.eqb_spec n n') as [->|]; [right; now left | now left].
        -- right; now right.
      * destruct (IH w1 a Nd') as [R [T [Er [I [Le M]]]]]; auto.
        { intros n' H'. apply Fresh. now right. }
        repeat split; auto; [simpl; lia|].
        intros n' H'. destruct (M n' H'); [now left | right; now right].
    + subst st1. destruct (IH w1 a Nd') as [R [T [Er [I [Le M]]]]]; auto.
      { intros n' H'. apply Fresh. now right. }
      repeat split; auto.
Qed.

(** C9. When SHOW ROLES answers with rows (each with its name column),
    the audit counts every listed row in total_roles and keeps every
    listed name in the roles mapping.  A role whose grant listing cannot
    be read is left out of the grants mapping and stays in the roles
    mapping, and roles_with_grants, the number of entries of the grants
    mapping, is at most the number of roles whose listing was read.  With
    5 roles of which 2 are unreadable: total_roles = 5 and
    roles_with_grants <= 3. *)
Theorem C9_audit_counts_all_roles_and_skips_unreadable
        (w : World) (target_database : string) (rows : list Row) :
  responds w (issued w) "SHOW ROLES" = Rows rows ->
  Forall (fun row => 2 <= List.length row) rows ->
  let a := fst (audit_rbac_configuration w target_database) in
  let w1 := snd (execute w "SHOW ROLES") in
  let names := keys (au_roles a) in
  au_total_roles (au_summary a) = List.length rows /\
  (forall n, In n names <-> exists row, In row rows /\ nth_error row 1 = Some n) /\
  NoDup names /\
  roles_with_grants (au_summary a) = List.length (grants a) /\
  roles_with_grants (au_summary a) <= List.length (readable w1 names) /\
  (forall n, In n names -> ~ In n (readable w1 names) ->
             dict_mem (grants a) n = false /\ dict_mem (au_roles a) n = true) /\
  (forall n, dict_mem (grants a) n = true -> In n (readable w1 names)) /\
  au_error a = None /\
  (List.length rows = 5 -> List.length names = 5 ->
   List.length (readable w1 names) = 3 ->
   au_total_roles (au_summary a) = 5 /\ roles_with_grants (au_summary a) <= 3).
Proof.
  intros Hr Hrows a w1 names. subst a w1 names.
  unfold audit_rbac_configuration, execute. rewrite Hr. cbn [snd].
  set (w1 := mkWorld (responds w) (issued w ++ ["SHOW ROLES"])).
  set (a0 := mkAudit target_database [] [] (mkAuSummary 0 0 0) None).
  destruct (audit_roles_spec rows Hrows a0) as [droles [E [K N]]].
  rewrite E. cbn [fst snd].
  set (a1 := mkAudit (au_target_database a0) droles (grants a0)
                     (mkAuSummary (au_total_roles (au_summary a0) + List.length rows)
                                  (roles_with_grants (au_summary a0))
                                  (users_with_roles (au_summary a0)))
                     (au_error a0)).
  assert (Nd : NoDup (keys droles)) by (apply N; constructor).
  destruct (audit_grants_spec (keys droles) w1 a1 Nd)
    as [R [T [Er [I [Le M]]]]]; [reflexivity | reflexivity |].
  cbn [au_roles a1 a0 au_summary au_total_roles au_error roles_with_grants grants
       au_target_database Nat.add] in *.
  rewrite R.
  assert (Total : au_total_roles
                    (au_summary (snd (fold_left audit_grants_step (keys droles) (w1, a1))))
                  = List.length rows) by exact T.
  assert (Omit : forall n,
             dict_mem (grants (snd (fold_left audit_grants_step (keys droles) (w1, a1)))) n
             = true -> In n (readable w1 (keys droles))).
  { intros n H. destruct (M n H) as [H'|H']; [discriminate H' | exact H']. }
  split; [exact Total|].
  split; [intros n; rewrite K; simpl; tauto|].
  split; [exact Nd|]. split; [exact I|]. split; [exact Le|].
  split; [|split; [exact Omit|split; [exact Er|]]].
  - intros n Hin Hun. split; [|now apply keys_mem].
    destruct (dict_mem (grants (snd (fold_left audit_grants_step (keys droles) (w1, a1)))) n)
      eqn:G; [|reflexivity].
    elim Hun. now apply Omit.
  - intros H5 _ H3. rewrite Total, H5. split; [reflexivity|]. rewrite <- H3. exact Le.
Qed.

(** Five roles; the grants of R2 and R4 cannot be listed, R5 has none. *)
Lemma C9_witness :
  let w := mkWorld
             (fun _ sql =>
                if String.eqb sql "SHOW ROLES"
                then Rows [["2024-01-01"; "R1"; "ADMIN"; "first"]; ["2024-01-01"; "R2"];
                           ["2024-01-02"; "R3"; "ADMIN"]; ["2024-01-03"; "R4"; "ADMIN"];
                           ["2024-01-04"; "R5"]]
                else if String.eqb sql "SHOW GRANTS TO ROLE R2" then Failure
                else if String.eqb sql "SHOW GRANTS TO ROLE R4" then Failure
                else if String.eqb sql "SHOW GRANTS TO ROLE R5" then Rows []
                else Rows [["2024-01-05"; "USAGE"; "DATABASE"; "DEV"; "ROLE"]]) [] in
  let a := fst (audit_rbac_configuration w "DEV") in
  (List.length (keys (au_roles a)) = 5 /\
   List.length (readable (snd (execute w "SHOW ROLES")) (keys (au_roles a))) = 3) /\
  au_total_roles (au_summary a) = 5 /\ roles_with_grants (au_summary a) <= 3 /\
  keys (grants a) = ["R1"; "R3"] /\
  keys (au_roles a) = ["R1"; "R2"; "R3"; "R4"; "R5"].
Proof.
  intros w a.
  assert (H5 : List.length (keys (au_roles a)) = 5) by reflexivity.
  assert (H3 : List.length (readable (snd (execute w "SHOW ROLES")) (keys (au_roles a))) = 3)
    by reflexivity.
  split; [split; assumption|].
  destruct (C9_audit_counts_all_roles_and_skips_unreadable
              w "DEV"
              [["2024-01-01"; "R1"; "ADMIN"; "first"]; ["2024-01-01"; "R2"];
               ["2024-01-02"; "R3"; "ADMIN"]; ["2024-01-03"; "R4"; "ADMIN"];
               ["2024-01-04"; "R5"]])
    as [_ [_ [_ [_ [_ [_ [_ [_ S]]]]]]]].
  - reflexivity.
  - repeat constructor; simpl; lia.
  - destruct (S eq_refl H5 H3) as [T L].
    split; [exact T|]. split; [exact L|]. split; reflexivity.
Defined.

(** *** Complete setup *)

(** The check of the user-assignment report does not read its failures:
    the phase is put in failed_phases exactly when no user is recorded. *)
Lemma phase_failed_users (phase : string) (u : UsersResult) :
  phase_failed phase (PhaseUsers u)
  = Returns (match ua_users u with [] => true | _ :: _ => false end).
Proof.
  unfold phase_failed. simpl.
  destruct (String.eqb phase "hierarchy"), (ua_users u); reflexivity.
Qed.

(** The check of the privileges report: failed roles, or an empty target
    database, or no role processed. *)
Lemma phase_failed_privileges (phase : string) (r : PrivilegesResult) :
  phase_failed phase (PhasePrivileges r)
  = Returns ((0 <? failed_roles (pr_summary r))%nat
             || negb (truthy (pr_target_database r))
             || match pr_roles r with [] => true | _ :: _ => false end).
Proof.
  unfold phase_failed. simpl.
  destruct (0 <? failed_roles (pr_summary r))%nat; [reflexivity|].
  destruct (String.eqb phase "hierarchy"), (truthy (pr_target_database r)), (pr_roles r);
    reflexivity.
Qed.

(** The check of a name-to-flag report without a key named summary: some
    flag is false. *)
Lemma phase_failed_flags (phase : string) (d : odict bool) :
  dict_mem d "summary" = false ->
  phase_failed phase (PhaseFlags d) = Returns (negb (forallb (fun b => b) (values d))).
Proof.
  intros H. unfold phase_failed. simpl. rewrite H.
  destruct (String.eqb phase "hierarchy"), (forallb (fun b => b) (values d)); reflexivity.
Qed.

(** C2 does not hold of the code.  First run: one service role, one user
    whose role grant the warehouse rejects; the user-assignment report
    records the failure, and yet overall_success is true and no phase is
    listed as failed.  Second run: nothing configured and nothing fails
    (failed_roles = 0), and yet the privileges phase is listed as failed
    and overall_success is false. *)
Theorem C2_overall_success_misses_user_assignment_failures :
  let cfg := mkRbac [mkRole "SR_READ" (Some "read only") None] [] []
                    [("example_users", [mkUser "ALICE" ["SR_READ"]])] in
  let w := rejecting ["GRANT ROLE SR_READ TO USER ALICE"] in
  let r := fst (complete_rbac_setup cfg w "DEV" None) in
  let r0 := fst (complete_rbac_setup (mkRbac [] [] [] []) accepting "DEV" None) in
  (dict_get (phases r) "user_assignments"
   = Some (PhaseUsers
             (mkUResult [("ALICE", mkUserResult "ALICE" [] ["SR_READ"] false)]
                        (mkASummary 1 0 1))) /\
   overall_success r = true /\ failed_phases r = None /\ s_error r = None) /\
  (dict_get (phases r0) "privileges"
   = Some (PhasePrivileges (mkPResult "DEV" [] (mkPSummary 0 0 0))) /\
   overall_success r0 = false /\ failed_phases r0 = Some ["privileges"]).
Proof. repeat split. Qed.

(* ================================================================== *)
(** * Further properties of the engine *)

(** ** Issuing statements *)

Lemma issue_nil (w : World) : issue w [] = w.
Proof. destruct w as [r i]. unfold issue. simpl. now rewrite app_nil_r. Qed.

Lemma issue_issue (w : World) (a b : list string) :
  issue (issue w a) b = issue w (a ++ b).
Proof. unfold issue. simpl. now rewrite app_assoc. Qed.

Lemma execute_issue (w : World) (sql : string) :
  snd (execute w sql) = issue w [sql].
Proof. unfold execute, issue. now destruct (responds w (issued w) sql). Qed.

Lemma execute_cases (w : World) (sql : string) :
  (exists rows, responds w (issued w) sql = Rows rows
                /\ execute w sql = (Returns rows, issue w [sql])
                /\ accepted w sql = true)
  \/ (responds w (issued w) sql = Failure
      /\ execute w sql = (Raises DatabaseError, issue w [sql])
      /\ accepted w sql = false).
Proof.
  unfold execute, accepted, issue.
  destruct (responds w (issued w) sql) as [rows|]; [left; exists rows | right]; auto.
Qed.

Lemma after_issue (w w' : World) (new : list string) :
  after w w' new <-> w' = issue w new.
Proof.
  split; [apply after_eq|]. intros ->. split; reflexivity.
Qed.

(** ** Clone engine *)

Lemma upper_lower_ascii (c : ascii) : upper_ascii (lower_ascii c) = upper_ascii c.
Proof.
  destruct c as [b0 b1 b2 b3 b4 b5 b6 b7].
  destruct b0, b1, b2, b3, b4, b5, b6, b7; reflexivity.
Qed.

Lemma upper_lower (s : string) : upper (lower s) = upper s.
Proof.
  induction s as [|c s IH]; simpl; [reflexivity|].
  now rewrite upper_lower_ascii, IH.
Qed.

(** X1. The mode of [clone_database] is read without regard to letter
    case: lower-casing it, as the web form does before the call, changes
    nothing.  When it is AT_TIME and the configuration holds a non-empty
    timestamp, the one statement issued is the clone statement followed
    by the AT clause with the timestamp as configured, and the call
    returns whether that statement was accepted. *)
Theorem X1_clone_database_mode_case_and_at_clause
        (cfg : Config) (w : World) (source_db target_db clone_type : string) :
  clone_database cfg w source_db target_db (lower clone_type)
  = clone_database cfg w source_db target_db clone_type /\
  (forall timestamp,
      upper clone_type = "AT_TIME" ->
      config_at_time cfg = Returns (Some timestamp) ->
      truthy timestamp = true ->
      let stmt := fmt ["CREATE DATABASE "; target_db; " CLONE "; source_db;
                       " AT (TIMESTAMP => '"; timestamp; "')"] in
      clone_database cfg w source_db target_db clone_type
      = (accepted w stmt, issue w [stmt])).
Proof.
  split.
  - unfold clone_database, clone_database_sql.
    now rewrite upper_lower.
  - intros timestamp U C T stmt. apply clone_database_result.
    unfold clone_database_sql. rewrite U, C, T. subst stmt. unfold fmt. simpl.
    now rewrite !append_assoc.
Qed.

Lemma X1_witness :
  (upper "at_time" = "AT_TIME" /\ truthy "2024-01-01 00:00:00" = true) /\
  clone_database (mkConfig (Some (NotNone (mkCloning (Some "2024-01-01 00:00:00")))))
                 accepting "PROD" "DEV" "at_time"
  = (true,
     issue accepting
           ["CREATE DATABASE DEV CLONE PROD AT (TIMESTAMP => '2024-01-01 00:00:00')"]).
Proof.
  split; [split; reflexivity|].
  apply (X1_clone_database_mode_case_and_at_clause
           (mkConfig (Some (NotNone (mkCloning (Some "2024-01-01 00:00:00")))))
           accepting "PROD" "DEV" "at_time"); reflexivity.
Defined.

(** X2. [clone_schema] first issues CREATE DATABASE IF NOT EXISTS for
    the target database and then the clone statement, with the target
    schema defaulting to the source schema.  When the first statement is
    rejected the clone statement is not issued; nothing is ever undone.
    The call returns true exactly when both statements are accepted. *)
Theorem X2_clone_schema_statements
        (w : World) (source_db source_schema target_db : string)
        (target_schema : option string) :
  let s1 := fmt ["CREATE DATABASE IF NOT EXISTS "; target_db] in
  let s2 := fmt ["CREATE SCHEMA "; target_db; "."; or_else target_schema source_schema;
                 " CLONE "; source_db; "."; source_schema] in
  clone_schema w source_db source_schema target_db target_schema
  = (all_accepted w [s1; s2],
     if accepted w s1 then issue w [s1; s2] else issue w [s1]).
Proof.
  intros s1 s2. unfold clone_schema. fold s1. fold s2. cbn [all_accepted].
  destruct (execute_cases w s1) as [[rows [_ [E A]]]|[_ [E A]]]; rewrite E, A.
  - destruct (execute_cases (issue w [s1]) s2) as [[rows2 [_ [E2 _]]]|[_ [E2 _]]];
      rewrite E2, issue_issue; reflexivity.
  - reflexivity.
Qed.

(** ** Clone history and validation *)

Lemma get_clone_history_issue (w : World) (object_name : option string) :
  snd (get_clone_history w object_name)
  = issue w [match object_name with
             | Some n => if truthy n then fmt ["SHOW CLONES LIKE '"; n; "'"]
                         else "SHOW CLONES"
             | None => "SHOW CLONES"
             end].
Proof.
  unfold get_clone_history.
  match goal with |- context [execute w ?q] =>
    destruct (execute_cases w q) as [[rs [_ [E _]]]|[_ [E _]]]; rewrite E
  end; [now destruct (clone_infos rs) | reflexivity].
Qed.

(** X6. [get_clone_history] issues one statement: SHOW CLONES, with a
    LIKE filter when a non-empty object name is given.  When the
    statement is rejected the history is empty.  When it is answered and
    every row has at least three columns, the history has one entry per
    row, in order, made of the first three columns, and the clone type is
    the fourth column when there is one.  A single row with fewer than
    three columns makes the whole history empty. *)
Theorem X6_clone_history_rows
        (w : World) (object_name : option string) (rows : list Row) :
  let query :=
    match object_name with
    | Some n => if truthy n then fmt ["SHOW CLONES LIKE '"; n; "'"] else "SHOW CLONES"
    | None => "SHOW CLONES"
    end in
  let history := fst (get_clone_history w object_name) in
  snd (get_clone_history w object_name) = issue w [query] /\
  (accepted w query = false -> history = []) /\
  (responds w (issued w) query = Rows rows ->
   Exists (fun row => List.length row < 3) rows -> history = []) /\
  (responds w (issued w) query = Rows rows ->
   Forall (fun row => 3 <= List.length row) rows ->
   map (fun i => [source_object i; clone_object i; CloneFramework.created_on i]) history
   = map (firstn 3) rows /\
   map CloneFramework.clone_type history = map (fun row => nth_error row 3) rows).
Proof.
  intros query history. subst history.
  split; [apply get_clone_history_issue|].
  unfold get_clone_history. fold query.
  destruct (execute_cases w query) as [[rs [R [E A]]]|[R [E A]]]; rewrite E.
  - split; [rewrite A; discriminate|]. split.
    + intros R' X. rewrite R in R'. inversion R'; subst.
      destruct (clone_infos_short _ X) as [e ->]. reflexivity.
    + intros R' F. rewrite R in R'. inversion R'; subst.
      destruct (clone_infos_full _ F) as [h [-> [H1 H2]]]. now split.
  - split; [reflexivity|].
    split; intros R'; rewrite R in R'; discriminate R'.
Qed.

Lemma X6_witness :
  let w := mkWorld (fun _ _ => Rows [["PROD.DB"; "DEV.DB"; "2024-01-01"; "DATABASE"];
                                     ["PROD.DB"; "QA.DB"; "2024-02-01"]]) [] in
  let short := mkWorld (fun _ _ => Rows [["PROD.DB"; "DEV.DB"; "2024-01-01"];
                                         ["PROD.DB"; "QA.DB"]]) [] in
  (Forall (fun row => 3 <= List.length row)
          [["PROD.DB"; "DEV.DB"; "2024-01-01"; "DATABASE"];
           ["PROD.DB"; "QA.DB"; "2024-02-01"]]
   /\ Exists (fun row => List.length row < 3)
             [["PROD.DB"; "DEV.DB"; "2024-01-01"]; ["PROD.DB"; "QA.DB"]]) /\
  map CloneFramework.clone_type (fst (get_clone_history w None)) = [Some "DATABASE"; None] /\
  fst (get_clone_history short (Some "DEV.DB")) = [].
Proof.
  intros w short.
  assert (F : Forall (fun row => 3 <= List.length row)
                     [["PROD.DB"; "DEV.DB"; "2024-01-01"; "DATABASE"];
                      ["PROD.DB"; "QA.DB"; "2024-02-01"]])
    by (repeat constructor; simpl; lia).
  assert (X : Exists (fun row => List.length row < 3)
                     [["PROD.DB"; "DEV.DB"; "2024-01-01"]; ["PROD.DB"; "QA.DB"]])
    by (apply Exists_cons_tl, Exists_cons_hd; simpl; lia).
  split; [split; assumption|]. split.
  - destruct (X6_clone_history_rows
                w None [["PROD.DB"; "DEV.DB"; "2024-01-01"; "DATABASE"];
                        ["PROD.DB"; "QA.DB"; "2024-02-01"]]) as [_ [_ [_ H]]].
    exact (proj2 (H eq_refl F)).
  - destruct (X6_clone_history_rows
                short (Some "DEV.DB")
                [["PROD.DB"; "DEV.DB"; "2024-01-01"]; ["PROD.DB"; "QA.DB"]])
      as [_ [_ [H _]]].
    exact (H eq_refl X).
Defined.

(** X7. [validate_clone_operation] always issues its three statements,
    in this order and whatever the answers: DESCRIBE of the source,
    DESCRIBE of the target, and SHOW CLONES filtered by the target (not
    filtered when the target name is empty).  No check is skipped after
    another one failed, and the result names the two objects as given. *)
Theorem X7_validation_always_runs_three_statements
        (w : World) (source_obj target_obj : string) :
  let r := fst (validate_clone_operation w source_obj target_obj) in
  let lineage :=
    if truthy target_obj then fmt ["SHOW CLONES LIKE '"; target_obj; "'"]
    else "SHOW CLONES" in
  snd (validate_clone_operation w source_obj target_obj)
  = issue w [fmt ["DESCRIBE "; source_obj]; fmt ["DESCRIBE "; target_obj]; lineage] /\
  v_source r = source_obj /\ v_target r = target_obj.
Proof.
  intros r lineage. subst r. unfold validate_clone_operation.
  destruct (describable w source_obj) as [src_ok w1] eqn:E1.
  destruct (describable w1 target_obj) as [tgt_ok w2] eqn:E2.
  pose proof (get_clone_history_issue w2 (Some target_obj)) as H. fold lineage in H.
  destruct (get_clone_history w2 (Some target_obj)) as [clones w3].
  apply describable_after in E1, E2.
  destruct E1 as [_ A1]. destruct E2 as [_ A2].
  apply after_issue in A1, A2. subst w1 w2. cbn [fst snd] in *.
  rewrite H, !issue_issue. repeat split.
Qed.

(** ** Bulk orchestrator *)

Lemma dict_set_fresh {V : Type} (d : odict V) (k : string) (v : V) :
  dict_mem d k = false -> dict_set d k v = d ++ [(k, v)].
Proof.
  unfold dict_mem. induction d as [|[k' v'] d IH]; simpl; [reflexivity|].
  destruct (String.eqb k' k); [discriminate|]. intros H. now rewrite IH.
Qed.

Lemma map_fst_combine {A B : Type} (l : list A) (m : list B) :
  List.length l = List.length m -> map fst (combine l m) = l.
Proof.
  revert m. induction l as [|a l IH]; intros [|b m] L; try discriminate; [reflexivity|].
  simpl. now rewrite IH by (simpl in L; lia).
Qed.

Lemma in_combine_forall2 {A B : Type} (P : A -> B -> Prop) (l : list A) (m : list B) :
  List.length l = List.length m ->
  (forall p, In p (combine l m) -> P (fst p) (snd p)) ->
  Forall2 P l m.
Proof.
  revert m. induction l as [|a l IH]; intros [|b m] L H; try discriminate; constructor.
  - apply (H (a, b)). now left.
  - apply IH; [simpl in L; lia|]. intros p Hp. apply H. now right.
Qed.

Lemma succeeded_record_fresh (r : BulkResults) (q : Request) (ok : bool) :
  dict_mem (items r (level q)) (key q) = false ->
  succeeded (record r q ok) = succeeded r + (if ok then 1 else 0).
Proof.
  intros M. unfold succeeded, record.
  destruct (level q); simpl in *; rewrite (dict_set_fresh _ _ _ M);
    unfold values; rewrite map_app, filter_app, length_app; simpl;
    destruct ok; simpl; lia.
Qed.

Lemma successful_recorded (l : list (Request * bool)) :
  forall r,
    successful_operations (summary (recorded r l))
    = successful_operations (summary r) + List.length (filter snd l) /\
    failed_operations (summary (recorded r l))
    = failed_operations (summary r) + List.length (filter (fun p => negb (snd p)) l).
Proof.
  unfold recorded.
  induction l as [|[q ok] l IH]; simpl; intros r; [lia|].
  destruct (IH (record r q ok)) as [S F]. rewrite S, F, summary_record.
  unfold count. destruct ok; simpl; lia.
Qed.

Lemma level_key_differs (q p : Request) :
  level_key q <> level_key p -> level p = level q -> key p <> key q.
Proof. unfold level_key. intros N L K. apply N. now rewrite L, K. Qed.

Lemma recorded_fresh (l : list (Request * bool)) :
  forall r,
    NoDup (map (fun p => level_key (fst p)) l) ->
    (forall p, In p l -> dict_mem (items r (level (fst p))) (key (fst p)) = false) ->
    entries (recorded r l) = entries r + List.length l /\
    succeeded (recorded r l) = succeeded r + List.length (filter snd l) /\
    (forall p, In p l ->
               dict_get (items (recorded r l) (level (fst p))) (key (fst p))
               = Some (mkItem (item_source (fst p)) (snd p))).
Proof.
  induction l as [|[q ok] l IH]; intros r Nd Fresh.
  - simpl. split; [lia|]. split; [lia|]. intros p [].
  - inversion Nd as [|? ? Hq Nd']; subst. cbn [fst] in Hq.
    assert (Mq : dict_mem (items r (level q)) (key q) = false)
      by (apply (Fresh (q, ok)); now left).
    assert (Other : forall p, In p l -> level (fst p) = level q -> key (fst p) <> key q).
    { intros p Hp. apply level_key_differs. intros E. apply Hq.
      rewrite E. now apply (in_map (fun p => level_key (fst p))). }
    change (recorded r ((q, ok) :: l)) with (recorded (record r q ok) l).
    destruct (IH (record r q ok) Nd') as [E [S G]].
    { intros p Hp. destruct (level_eqb (level (fst p)) (level q)) eqn:L.
      - apply level_eqb_eq in L. rewrite L, items_record_same.
        unfold dict_mem. rewrite dict_get_set_other.
        + rewrite <- L. apply Fresh. now right.
        + intros K. now apply (Other p Hp L).
      - rewrite items_record_other.
        + apply Fresh. now right.
        + intros L'. rewrite L' in L. destruct (level q); discriminate. }
    rewrite E, S, entries_record, Mq, (succeeded_record_fresh _ _ _ Mq).
    split; [simpl; lia|]. split; [destruct ok; simpl; lia|].
    intros p [<-|Hp]; [|now apply G]. cbn [fst snd].
    rewrite recorded_get_untouched by exact Other.
    rewrite items_record_same. apply dict_get_set_same.
Qed.

(** X3. When the requests of an operation set resolve to pairwise
    different keys (per level), the report is consistent with its
    summary: the per-item maps have total_operations entries,
    successful_operations of them have success = true, and every request
    has its own entry, holding its source and its own outcome. *)
Theorem X3_bulk_distinct_keys_report_is_consistent
        (cfg : Config) (w : World) (oc : OperationConfig) :
  NoDup (map level_key (requests oc)) ->
  let r := fst (bulk_clone_operation cfg w oc) in
  entries r = total_operations (summary r) /\
  succeeded r = successful_operations (summary r) /\
  Forall2 (fun q ok => dict_get (items r (level q)) (key q)
                       = Some (mkItem (item_source q) ok))
          (requests oc) (fst (run cfg w (requests oc))).
Proof.
  intros Nd r. subst r. rewrite bulk_as_run. cbn [fst].
  set (qs := requests oc) in *. set (oks := fst (run cfg w qs)).
  assert (L : List.length qs = List.length oks) by (symmetry; apply run_length).
  set (r0 := mkResults [] [] [] (mkSummary 0 0 0)).
  destruct (recorded_fresh (combine qs oks) r0) as [E [S G]].
  - rewrite <- (map_map fst level_key), map_fst_combine by exact L. exact Nd.
  - intros p _. now destruct (level (fst p)).
  - destruct (recorded_counts (combine qs oks) r0) as [T _].
    destruct (successful_recorded (combine qs oks) r0) as [Sc _].
    split; [rewrite E, T; reflexivity|]. split; [rewrite S, Sc; reflexivity|].
    apply in_combine_forall2; [exact L | exact G].
Qed.

Lemma X3_witness :
  let oc := mkOperation (Some [mkDb "PROD" "DEV"])
                        (Some [mkSchema "PROD" "RAW" "QA" Absent])
                        (Some [mkTable "PROD" "RAW" "T" "QA" Absent (Str "T_COPY");
                               mkTable "PROD" "RAW" "T" "QA" Absent Absent]) in
  let r := fst (bulk_clone_operation (mkConfig None)
                                     (rejecting ["CREATE TABLE QA.RAW.T CLONE PROD.RAW.T"])
                                     oc) in
  NoDup (map level_key (requests oc)) /\
  entries r = 4 /\ succeeded r = 3 /\ successful_operations (summary r) = 3.
Proof.
  intros oc r.
  assert (Nd : NoDup (map level_key (requests oc))).
  { repeat constructor; simpl; intuition discriminate. }
  split; [exact Nd|].
  destruct (X3_bulk_distinct_keys_report_is_consistent
              (mkConfig None) (rejecting ["CREATE TABLE QA.RAW.T CLONE PROD.RAW.T"]) oc Nd)
    as [E [S _]].
  split; [exact E|]. split; [exact S | reflexivity].
Defined.





Lemma items_recorded_other (l : list (Request * bool)) (lv : Level) :
  (forall p, In p l -> level (fst p) <> lv) ->
  forall r, items (recorded r l) lv = items r lv.
Proof.
  induction l as [|[q ok] l IH]; intros N r; [reflexivity|].
  change (recorded r ((q, ok) :: l)) with (recorded (record r q ok) l).
  rewrite IH by (intros p Hp; apply N; now right).
  apply items_record_other. intros E. apply (N (q, ok)); [now left | now rewrite E].
Qed.

Lemma items_recorded_ext (l : list (Request * bool)) (lv : Level) :
  forall r r',
    items r lv = items r' lv ->
    items (recorded r l) lv = items (recorded r' l) lv.
Proof.
  induction l as [|[q ok] l IH]; intros r r' E; [exact E|].
  change (recorded r ((q, ok) :: l)) with (recorded (record r q ok) l).
  change (recorded r' ((q, ok) :: l)) with (recorded (record r' q ok) l).
  apply IH. destruct (level_eqb lv (level q)) eqn:L.
  - apply level_eqb_eq in L. subst lv. now rewrite !items_record_same, E.
  - assert (N : lv <> level q) by (intros ->; destruct (level q); discriminate).
    now rewrite !items_record_other.
Qed.

Lemma summary_recorded_app (r : BulkResults) (l1 l2 : list (Request * bool)) :
  let s := summary (recorded r (l1 ++ l2)) in
  let s1 := summary (recorded r l1) in
  let s2 := summary (recorded r l2) in
  total_operations s + total_operations (summary r)
  = total_operations s1 + total_operations s2 /\
  successful_operations s + successful_operations (summary r)
  = successful_operations s1 + successful_operations s2 /\
  failed_operations s + failed_operations (summary r)
  = failed_operations s1 + failed_operations s2.
Proof.
  intros s s1 s2. subst s s1 s2.
  destruct (recorded_counts (l1 ++ l2) r) as [T _].
  destruct (recorded_counts l1 r) as [T1 _].
  destruct (recorded_counts l2 r) as [T2 _].
  destruct (successful_recorded (l1 ++ l2) r) as [S F].
  destruct (successful_recorded l1 r) as [S1 F1].
  destruct (successful_recorded l2 r) as [S2 F2].
  rewrite T, T1, T2, S, S1, S2, F, F1, F2, !filter_app, !length_app. lia.
Qed.

Lemma combine_map_level {C : Type} (f : C -> Request) (lv : Level) (cs : list C)
      (oks : list bool) :
  (forall c, level (f c) = lv) ->
  forall p, In p (combine (map f cs) oks) -> level (fst p) = lv.
Proof.
  intros H [q ok] Hp. apply in_combine_l in Hp. apply in_map_iff in Hp.
  destruct Hp as [c [<- _]]. apply H.
Qed.

(** X5. A bulk run over the three lists is the same as three bulk runs in
    a row, one over the databases, one over the schemas and one over the
    tables, each starting where the one before stopped: the warehouse
    ends in the same state, every per-item map is the map of the run of
    its level, and the three counters are the sums of the counters of the
    three runs. *)
Theorem X5_bulk_run_is_three_level_runs
        (cfg : Config) (w : World)
        (dbs : option (list DbConfig)) (scs : option (list SchemaConfig))
        (tbs : option (list TableConfig)) :
  let whole := bulk_clone_operation cfg w (mkOperation dbs scs tbs) in
  let rd := bulk_clone_operation cfg w (mkOperation dbs None None) in
  let rs := bulk_clone_operation cfg (snd rd) (mkOperation None scs None) in
  let rt := bulk_clone_operation cfg (snd rs) (mkOperation None None tbs) in
  snd whole = snd rt /\
  databases (fst whole) = databases (fst rd) /\
  schemas (fst whole) = schemas (fst rs) /\
  tables (fst whole) = tables (fst rt) /\
  total_operations (summary (fst whole))
  = total_operations (summary (fst rd)) + total_operations (summary (fst rs))
    + total_operations (summary (fst rt)) /\
  successful_operations (summary (fst whole))
  = successful_operations (summary (fst rd)) + successful_operations (summary (fst rs))
    + successful_operations (summary (fst rt)) /\
  failed_operations (summary (fst whole))
  = failed_operations (summary (fst rd)) + failed_operations (summary (fst rs))
    + failed_operations (summary (fst rt)).
Proof.
  intros whole rd rs rt. subst whole rd rs rt.
  rewrite !bulk_as_run. unfold requests. cbn [oc_databases oc_schemas oc_tables listed map].
  cbn [app fst snd]. rewrite !app_nil_r.
  set (qd := map DatabaseRequest (listed dbs)).
  set (qs := map SchemaRequest (listed scs)).
  set (qt := map TableRequest (listed tbs)).
  set (r0 := mkResults [] [] [] (mkSummary 0 0 0)).
  rewrite (run_app cfg qd (qs ++ qt) w). cbn [fst snd].
  set (w1 := snd (run cfg w qd)).
  rewrite (run_app cfg qs qt w1). cbn [fst snd].
  set (w2 := snd (run cfg w1 qs)).
  rewrite !combine_app by (symmetry; apply run_length).
  set (ld := combine qd (fst (run cfg w qd))).
  set (ls := combine qs (fst (run cfg w1 qs))).
  set (lt := combine qt (fst (run cfg w2 qt))).
  assert (Hd : forall p, In p ld -> level (fst p) = DATABASE)
    by (apply combine_map_level; reflexivity).
  assert (Hs : forall p, In p ls -> level (fst p) = SCHEMA)
    by (apply combine_map_level; reflexivity).
  assert (Ht : forall p, In p lt -> level (fst p) = TABLE)
    by (apply combine_map_level; reflexivity).
  split; [reflexivity|].
  rewrite !recorded_app.
  split; [|split; [|split]].
  - change (items (recorded (recorded (recorded r0 ld) ls) lt) DATABASE
            = items (recorded r0 ld) DATABASE).
    rewrite (items_recorded_other lt DATABASE)
      by (intros p Hp E; rewrite (Ht p Hp) in E; discriminate E).
    rewrite (items_recorded_other ls DATABASE)
      by (intros p Hp E; rewrite (Hs p Hp) in E; discriminate E).
    reflexivity.
  - change (items (recorded (recorded (recorded r0 ld) ls) lt) SCHEMA
            = items (recorded r0 ls) SCHEMA).
    rewrite (items_recorded_other lt SCHEMA)
      by (intros p Hp E; rewrite (Ht p Hp) in E; discriminate E).
    apply items_recorded_ext. apply items_recorded_other.
    intros p Hp E; rewrite (Hd p Hp) in E; discriminate E.
  - change (items (recorded (recorded (recorded r0 ld) ls) lt) TABLE
            = items (recorded r0 lt) TABLE).
    apply items_recorded_ext.
    rewrite (items_recorded_other ls TABLE)
      by (intros p Hp E; rewrite (Hs p Hp) in E; discriminate E).
    apply items_recorded_other.
    intros p Hp E; rewrite (Hd p Hp) in E; discriminate E.
  - rewrite <- !recorded_app.
    pose proof (summary_recorded_app r0 (ld ++ ls) lt) as A.
    pose proof (summary_recorded_app r0 ld ls) as B.
    cbv zeta in A, B. simpl (summary r0) in A, B.
    cbn [total_operations successful_operations failed_operations] in A, B.
    destruct A as [A1 [A2 A3]]. destruct B as [B1 [B2 B3]].
    rewrite <- app_assoc in *. repeat split; lia.
Qed.

(** ** Discovery *)

Lemma dict_set_twice {V : Type} (d : odict V) (k : string) (v v' : V) :
  dict_set (dict_set d k v) k v' = dict_set d k v'.
Proof.
  induction d as [|[k0 v0] d IH]; simpl.
  - now rewrite String.eqb_refl.
  - destruct (String.eqb k0 k) eqn:E; simpl; rewrite E; [reflexivity | now rewrite IH].
Qed.

Lemma dict_get_set_inv {V : Type} (d : odict V) (k n : string) (v e : V) :
  dict_get (dict_set d k v) n = Some e ->
  (n = k /\ e = v) \/ (n <> k /\ dict_get d n = Some e).
Proof.
  destruct (String.eqb_spec k n) as [->|N].
  - rewrite dict_get_set_same. intros H. inversion H. now left.
  - rewrite dict_get_set_other by exact N. intros H. right. split; [congruence | exact H].
Qed.

Lemma counted_set (d : odict SchemaEntry) (k : string) (e : SchemaEntry) :
  counted (dict_set d k e)
  + match dict_get d k with Some e0 => table_count e0 | None => 0 end
  = counted d + table_count e.
Proof.
  unfold counted, values. induction d as [|[k0 e0] d IH]; simpl; [lia|].
  destruct (String.eqb k0 k); simpl; lia.
Qed.

Lemma discover_tables_length (tables : list Row) :
  forall acc ds,
    discover_tables tables acc = (None, ds) ->
    List.length ds = List.length acc + List.length tables.
Proof.
  induction tables as [|t tables IH]; intros acc ds H; simpl in H.
  - inversion H. simpl. lia.
  - destruct (table_details t) as [d|e]; [|discriminate].
    apply IH in H. rewrite H, length_app. simpl. lia.
Qed.

Lemma discover_schema_step_spec (source_database : string) (w : World) (s : Structure)
      (schema_name : string) :
  exists e,
    discover_schema_step source_database (w, s) schema_name
    = (issue w [show_tables source_database schema_name],
       mkStructure (st_database s) (dict_set (st_schemas s) schema_name e)
                   (total_tables s + table_count e)) /\
    (table_count e = List.length (se_tables e) \/ table_count e = 0).
Proof.
  unfold discover_schema_step.
  destruct (execute_cases w (show_tables source_database schema_name))
    as [[tables [_ [E _]]]|[_ [E _]]]; rewrite E.
  - destruct (discover_tables tables []) as [[e|] ds] eqn:D.
    + exists (mkSchemaEntry ds 0). rewrite dict_set_twice. simpl.
      rewrite Nat.add_0_r. split; [now destruct s | now right].
    + exists (mkSchemaEntry ds (List.length tables)). rewrite dict_set_twice. simpl.
      split; [reflexivity|]. left. apply discover_tables_length in D. simpl in D. lia.
  - exists (mkSchemaEntry [] 0). simpl. rewrite Nat.add_0_r.
    split; [now destruct s | now left].
Qed.

Lemma discover_schemas_spec (source_database : string) (rows : list Row) :
  forall w s,
    Forall (fun row => 2 <= List.length row) rows ->
    exists s',
      discover_schemas source_database rows (w, s)
      = (Returns s',
         issue w (map (fun row => show_tables source_database (nth 1 row "")) rows)) /\
      st_database s' = st_database s /\
      (forall n, dict_mem (st_schemas s') n = true <->
                 dict_mem (st_schemas s) n = true
                 \/ exists row, In row rows /\ nth_error row 1 = Some n) /\
      (discovered s -> discovered s') /\
      (NoDup (map (fun row => nth 1 row "") rows) ->
       (forall row, In row rows -> dict_mem (st_schemas s) (nth 1 row "") = false) ->
       counted (st_schemas s) = total_tables s ->
       counted (st_schemas s') = total_tables s').
Proof.
  induction rows as [|row rows IH]; intros w s F.
  - exists s. simpl. rewrite issue_nil. split; [reflexivity|]. split; [reflexivity|].
    split; [|auto]. intros n. split; [auto | intros [H|[row [[] _]]]; exact H].
  - inversion F as [|? ? Hrow F']; subst.
    destruct row as [|c0 [|c1 cells]]; simpl in Hrow; try lia.
    cbn [discover_schemas index nth_error map nth].
    destruct (discover_schema_step_spec source_database w s c1) as [e [E Cnt]].
    rewrite E.
    match goal with
    | |- context [discover_schemas _ rows (?w1, ?s1)] =>
        destruct (IH w1 s1 F') as [s' [R [Db [K [Inv Eq]]]]]
    end.
    exists s'. rewrite R, issue_issue. cbn [st_database st_schemas total_tables] in *.
    split; [reflexivity|]. split; [exact Db|]. split; [|split].
    + intros n. rewrite K, dict_mem_set. split.
      * intros [H|[r [Hin Hn]]].
        -- apply orb_true_iff in H. destruct H as [H|H]; [|now left].
           apply String.eqb_eq in H. subst n. right.
           exists (c0 :: c1 :: cells). split; [now left | reflexivity].
        -- right. exists r. split; [now right | exact Hn].
      * intros [H|[r [[<-|Hin] Hn]]].
        -- left. rewrite H. apply orb_true_r.
        -- simpl in Hn. inversion Hn; subst. left. now rewrite String.eqb_refl.
        -- right. now exists r.
    + intros [I1 I2]. apply Inv. split.
      * intros n e0 G. cbn [st_schemas] in G.
        apply dict_get_set_inv in G. destruct G as [[_ ->]|[_ G]]; [exact Cnt | eauto].
      * cbn [st_schemas total_tables].
        pose proof (counted_set (st_schemas s) c1 e) as C.
        destruct (dict_get (st_schemas s) c1); lia.
    + intros Nd Fresh C0. inversion Nd as [|? ? Hc Nd']; subst.
      apply Eq; [exact Nd' | |].
      * intros r Hr. cbn [st_schemas]. rewrite dict_mem_set.
        rewrite (Fresh r) by now right.
        destruct (String.eqb_spec c1 (nth 1 r "")) as [X|]; [|reflexivity].
        elim Hc. rewrite X.
        exact (in_map (fun row => nth 1 row "") rows r Hr).
      * cbn [st_schemas total_tables].
        pose proof (counted_set (st_schemas s) c1 e) as C.
        pose proof (Fresh (c0 :: c1 :: cells) (or_introl eq_refl)) as M.
        unfold dict_mem in M. cbn [nth] in M.
        destruct (dict_get (st_schemas s) c1); [discriminate|]. lia.
Qed.

Lemma discover_schemas_app (source_database : string) (l1 l2 : list Row) :
  forall st,
    discover_schemas source_database (l1 ++ l2) st
    = match discover_schemas source_database l1 st with
      | (Returns s1, w1) => discover_schemas source_database l2 (w1, s1)
      | (Raises e, w1) => (Raises e, w1)
      end.
Proof.
  induction l1 as [|row l1 IH]; intros st.
  - simpl. now destruct st.
  - cbn [app discover_schemas]. destruct (index row 1); [apply IH | reflexivity].
Qed.

Lemma discover_schemas_returns (source_database : string) (rows : list Row) :
  forall st s w',
    discover_schemas source_database rows st = (Returns s, w') ->
    Forall (fun row => 2 <= List.length row) rows.
Proof.
  induction rows as [|row rows IH]; intros st s w' H; [constructor|].
  cbn [discover_schemas] in H. unfold index in H.
  destruct (nth_error row 1) eqn:N; [|discriminate].
  constructor; [|eapply IH; eauto].
  assert (1 < List.length row) by (apply nth_error_Some; congruence). lia.
Qed.

(** X8. [discover_source_structure] lets two failures out to its caller:
    a rejected SHOW SCHEMAS, and a schema row too short to hold a name;
    in the second case the tables of the schemas before that row were
    already listed and the structure built so far is lost.  Otherwise it
    returns a structure for the database given, after SHOW SCHEMAS and
    one SHOW TABLES per schema row, in order, whatever the answers to the
    listings were; the structure has an entry for exactly the names
    listed. *)
Theorem X8_discover_statements_and_failures
        (w : World) (source_database : string) (rows : list Row) :
  let tables_of l := map (fun row => show_tables source_database (nth 1 row "")) l in
  (accepted w (show_schemas source_database) = false ->
   discover_source_structure w source_database
   = (Raises DatabaseError, issue w [show_schemas source_database])) /\
  (responds w (issued w) (show_schemas source_database) = Rows rows ->
   Forall (fun row => 2 <= List.length row) rows ->
   exists s,
     discover_source_structure w source_database
     = (Returns s, issue w (show_schemas source_database :: tables_of rows)) /\
     st_database s = source_database /\
     (forall n, dict_mem (st_schemas s) n = true <->
                exists row, In row rows /\ nth_error row 1 = Some n)) /\
  (forall good bad rest,
      responds w (issued w) (show_schemas source_database) = Rows (good ++ bad :: rest) ->
      Forall (fun row => 2 <= List.length row) good ->
      List.length bad < 2 ->
      discover_source_structure w source_database
      = (Raises IndexError, issue w (show_schemas source_database :: tables_of good))).
Proof.
  intros tables_of. unfold discover_source_structure.
  destruct (execute_cases w (show_schemas source_database))
    as [[rs [R [E A]]]|[R [E A]]]; rewrite E.
  - split; [rewrite A; discriminate|]. split.
    + intros R' F. rewrite R in R'. inversion R'; subst.
      destruct (discover_schemas_spec source_database rows
                  (issue w [show_schemas source_database])
                  (mkStructure source_database [] 0) F) as [s [D [Db [K _]]]].
      exists s. rewrite D, issue_issue. split; [reflexivity|]. split; [exact Db|].
      intros n. rewrite K. simpl. split; [intros [H|H]; [discriminate | exact H] | auto].
    + intros good bad rest R' F Hbad. rewrite R in R'. inversion R'; subst.
      rewrite discover_schemas_app.
      destruct (discover_schemas_spec source_database good
                  (issue w [show_schemas source_database])
                  (mkStructure source_database [] 0) F) as [s [D _]].
      rewrite D, issue_issue. cbn [discover_schemas fst].
      destruct bad as [|c0 [|c1 cells]]; simpl in Hbad; try lia; reflexivity.
  - split; [reflexivity|].
    split; [intros R'; rewrite R in R'; discriminate R'|].
    intros good bad rest R'. rewrite R in R'. discriminate R'.
Qed.

Lemma X8_witness :
  let w := mkWorld (fun _ sql =>
                      if String.eqb sql "SHOW SCHEMAS IN DATABASE PROD"
                      then Rows [["2024-01-01"; "RAW"]; ["2024-01-02"]; ["2024-01-03"; "CORE"]]
                      else Rows []) [] in
  (Forall (fun row => 2 <= List.length row) [["2024-01-01"; "RAW"]]
   /\ List.length ["2024-01-02"] < 2) /\
  discover_source_structure w "PROD"
  = (Raises IndexError,
     issue w ["SHOW SCHEMAS IN DATABASE PROD"; "SHOW TABLES IN SCHEMA PROD.RAW"]).
Proof.
  intros w.
  assert (F : Forall (fun row => 2 <= List.length row) [["2024-01-01"; "RAW"]])
    by (repeat constructor; simpl; lia).
  assert (B : List.length ["2024-01-02"] < 2) by (simpl; lia).
  split; [split; assumption|].
  destruct (X8_discover_statements_and_failures w "PROD" []) as [_ [_ H]].
  exact (H [["2024-01-01"; "RAW"]] ["2024-01-02"] [["2024-01-03"; "CORE"]] eq_refl F B).
Defined.

(** X9. In a structure returned by [discover_source_structure], the
    table count of a schema is either the number of the tables recorded
    for it or 0 (a listing that stops at a row that is too short leaves
    the tables read so far with a count of 0).  The table counts of the
    schemas add up to at most total_tables, and to exactly total_tables
    when no schema name is listed twice. *)
Theorem X9_discover_table_counts
        (w : World) (source_database : string) (s : Structure) :
  fst (discover_source_structure w source_database) = Returns s ->
  (forall n e, dict_get (st_schemas s) n = Some e ->
               table_count e = List.length (se_tables e) \/ table_count e = 0) /\
  counted (st_schemas s) <= total_tables s /\
  (forall rows,
      responds w (issued w) (show_schemas source_database) = Rows rows ->
      NoDup (map (fun row => nth 1 row "") rows) ->
      counted (st_schemas s) = total_tables s).
Proof.
  unfold discover_source_structure.
  destruct (execute_cases w (show_schemas source_database))
    as [[rs [R [E _]]]|[_ [E _]]]; rewrite E; [|discriminate].
  set (w1 := issue w [show_schemas source_database]).
  set (s0 := mkStructure source_database [] 0).
  intros H.
  destruct (discover_schemas source_database rs (w1, s0)) as [[s1|e] w2] eqn:D;
    [|discriminate]. cbn [fst] in H. inversion H; subst s1.
  pose proof (discover_schemas_returns _ _ _ _ _ D) as F.
  destruct (discover_schemas_spec source_database rs w1 s0 F) as [s' [D' [_ [_ [Inv Eq]]]]].
  rewrite D in D'. inversion D'; subst s'.
  destruct Inv as [I1 I2].
  { split; [intros n e G; discriminate G | apply Nat.le_refl]. }
  split; [exact I1|]. split; [exact I2|].
  intros rows R' Nd. rewrite R in R'. inversion R'; subst.
  apply Eq; [exact Nd | reflexivity | reflexivity].
Qed.

(** The schema RAW is listed twice and has two tables; the listing of
    CORE stops at its second row. *)
Lemma X9_witness :
  let w := mkWorld (fun _ sql =>
                      if String.eqb sql "SHOW SCHEMAS IN DATABASE PROD"
                      then Rows [["d"; "RAW"]; ["d"; "CORE"]; ["d"; "RAW"]]
                      else if String.eqb sql "SHOW TABLES IN SCHEMA PROD.CORE"
                      then Rows [["d"; "T1"; "PROD"; "CORE"; "TABLE"]; ["d"; "T2"]]
                      else Rows [["d"; "A"; "PROD"; "RAW"; "TABLE"];
                                 ["d"; "B"; "PROD"; "RAW"; "TABLE"; "note"]]) [] in
  exists s,
    fst (discover_source_structure w "PROD") = Returns s /\
    counted (st_schemas s) <= total_tables s /\
    total_tables s = 4 /\
    map (fun p => (fst p, List.length (se_tables (snd p)), table_count (snd p)))
        (st_schemas s)
    = [("RAW", 2, 2); ("CORE", 1, 0)].
Proof.
  intros w.
  destruct (discover_source_structure w "PROD") as [[s|e] w'] eqn:D;
    [|vm_compute in D; discriminate D].
  exists s. split; [reflexivity|].
  split.
  - refine (proj1 (proj2 (X9_discover_table_counts w "PROD" s _))).
    now rewrite D.
  - vm_compute in D. inversion D; subst. split; reflexivity.
Defined.

(** ** Loops that issue one statement per item *)

Lemma execute_accepted (w : World) (sql : string) :
  execute w sql
  = (match responds w (issued w) sql with
     | Rows rs => Returns rs
     | Failure => Raises DatabaseError
     end, issue w [sql]).
Proof. unfold execute, issue. now destruct (responds w (issued w) sql). Qed.

Lemma answers_length (stmts : list string) :
  forall w, List.length (answers w stmts) = List.length stmts.
Proof. induction stmts as [|s stmts IH]; intros w; simpl; [reflexivity | now rewrite IH]. Qed.

Lemma answers_all_accepted (stmts : list string) :
  forall w, all_accepted w stmts = forallb (fun b => b) (answers w stmts).
Proof.
  induction stmts as [|s stmts IH]; intros w; [reflexivity|].
  cbn [all_accepted answers forallb]. rewrite execute_accepted. unfold accepted.
  destruct (responds w (issued w) s); simpl; [apply IH | reflexivity].
Qed.

Lemma answers_app (a b : list string) :
  forall w, answers w (a ++ b) = answers w a ++ answers (issue w a) b.
Proof.
  induction a as [|s a IH]; intros w.
  - simpl. now rewrite issue_nil.
  - cbn [app answers]. rewrite IH, issue_issue. reflexivity.
Qed.

(** A loop whose body issues the statement of the item and then updates
    its state with the answer never stops early: it issues the statements
    of all the items, and its state is the one built from the answers. *)
Lemma fold_answers {I S : Type} (stmt : I -> string) (f : S -> I -> bool -> S)
      (step : World * S -> I -> World * S) :
  (forall w s i, step (w, s) i = (issue w [stmt i], f s i (accepted w (stmt i)))) ->
  forall xs w s,
    fold_left step xs (w, s)
    = (issue w (map stmt xs),
       fold_left (fun s p => f s (fst p) (snd p))
                 (combine xs (answers w (map stmt xs))) s).
Proof.
  intros Hstep xs. induction xs as [|i xs IH]; intros w s.
  - simpl. now rewrite issue_nil.
  - cbn [fold_left map answers combine fst snd]. rewrite Hstep, IH, issue_issue.
    reflexivity.
Qed.

Lemma assigned_by_key {I V : Type} (key_of : I -> string) (xs : list I) :
  forall (vs : list V) d,
    fold_left (fun d p => dict_set d (key_of (fst p)) (snd p)) (combine xs vs) d
    = assigned d (combine (map key_of xs) vs).
Proof.
  unfold assigned. induction xs as [|i xs IH]; intros [|v vs] d;
    try reflexivity. simpl. apply IH.
Qed.

Lemma assigned_mem {V : Type} (l : list (string * V)) :
  forall d k,
    dict_mem (assigned d l) k = true <-> dict_mem d k = true \/ In k (map fst l).
Proof.
  unfold assigned. induction l as [|[k0 v0] l IH]; intros d k; simpl.
  - tauto.
  - rewrite IH, dict_mem_set, orb_true_iff, String.eqb_eq. tauto.
Qed.

Lemma assigned_values {V : Type} (P : V -> bool) (l : list (string * V)) :
  forall d,
    forallb P (values d) = true ->
    forallb P (map snd l) = true ->
    forallb P (values (assigned d l)) = true.
Proof.
  unfold assigned. induction l as [|[k0 v0] l IH]; intros d Hd Hl; [exact Hd|].
  simpl in Hl. apply andb_true_iff in Hl. destruct Hl as [Hv Hl].
  cbn [fold_left fst snd]. apply IH; [|exact Hl].
  clear IH Hl. unfold values in *.
  induction d as [|[k1 v1] d IHd]; simpl in *; [now rewrite Hv|].
  apply andb_true_iff in Hd. destruct Hd as [H1 Hd].
  destruct (String.eqb k1 k0); simpl; [now rewrite Hv | rewrite H1; now apply IHd].
Qed.

Lemma assigned_length {V : Type} (l : list (string * V)) :
  forall d, List.length (assigned d l) <= List.length d + List.length l.
Proof.
  unfold assigned. induction l as [|[k0 v0] l IH]; intros d; simpl; [lia|].
  specialize (IH (dict_set d k0 v0)). rewrite dict_set_length in IH.
  destruct (dict_mem d k0); lia.
Qed.

Lemma assigned_last {V : Type} (l1 l2 : list (string * V)) (k : string) (v : V) :
  ~ In k (map fst l2) ->
  forall d, dict_get (assigned d (l1 ++ (k, v) :: l2)) k = Some v.
Proof.
  unfold assigned. intros N d. rewrite fold_left_app. cbn [fold_left fst snd].
  generalize (fold_left (fun d p => dict_set d (fst p) (snd p)) l1 d). intros d1.
  assert (G : dict_get (dict_set d1 k v) k = Some v) by apply dict_get_set_same.
  revert G. generalize (dict_set d1 k v). clear d d1.
  induction l2 as [|[k0 v0] l2 IH]; intros d G; [exact G|].
  cbn [fold_left fst snd]. apply IH.
  - intros H. apply N. now right.
  - rewrite dict_get_set_other; [exact G|]. intros ->. apply N. now left.
Qed.

Lemma map_snd_combine {A B : Type} (l : list A) (m : list B) :
  List.length l = List.length m -> map snd (combine l m) = m.
Proof.
  revert m. induction l as [|a l IH]; intros [|b m] L; try discriminate; [reflexivity|].
  simpl. now rewrite IH by (simpl in L; lia).
Qed.

(** ** Role creation *)

Lemma create_role_step_spec (w : World) (results : odict bool) (rc : RoleConfig) :
  create_role_step (w, results) rc
  = (issue w [role_create_sql rc],
     dict_set results (name rc) (accepted w (role_create_sql rc))).
Proof.
  unfold create_role_step, _create_role, role_create_sql.
  set (d := match description rc with Some d => d | None => "" end).
  assert (E : (if truthy d
               then String.append (fmt ["CREATE ROLE IF NOT EXISTS "; name rc])
                                  (fmt [" COMMENT = '"; d; "'"])
               else fmt ["CREATE ROLE IF NOT EXISTS "; name rc])
              = (if truthy d
                 then fmt ["CREATE ROLE IF NOT EXISTS "; name rc; " COMMENT = '"; d; "'"]
                 else fmt ["CREATE ROLE IF NOT EXISTS "; name rc])).
  { destruct (truthy d); [|reflexivity]. unfold fmt. simpl.
    repeat (rewrite append_assoc; simpl). reflexivity. }
  rewrite E. rewrite execute_accepted. unfold accepted.
  now destruct (responds w (issued w) _).
Qed.

Lemma in_map_fst_combine {A B : Type} (l : list A) (m : list B) (a : A) :
  In a (map fst (combine l m)) -> In a l.
Proof.
  intros H. apply in_map_iff in H. destruct H as [[x y] [<- H]].
  now apply in_combine_l in H.
Qed.

Lemma create_roles_fold (rcs : list RoleConfig) (w : World) :
  fold_left create_role_step rcs (w, [])
  = (issue w (map role_create_sql rcs),
     assigned [] (combine (map name rcs) (answers w (map role_create_sql rcs)))).
Proof.
  rewrite (fold_answers role_create_sql (fun d rc ok => dict_set d (name rc) ok))
    by (intros; apply create_role_step_spec).
  now rewrite assigned_by_key.
Qed.

(** X10. [create_service_roles] issues one CREATE ROLE IF NOT EXISTS
    statement per configured service role, in order and whatever the
    answers (with a COMMENT clause when the role has a non-empty
    description).  Its result has an entry for exactly the configured
    names; the flag of a name is the answer to the statement of the last
    role configured under that name, and all flags are true when all
    statements are accepted.  The target database plays no part, and
    [create_system_full_roles] does the same over the system-full
    roles. *)
Theorem X10_create_roles_one_statement_per_role
        (cfg : RbacConfig) (w : World) (target_database : string) :
  let stmts := map role_create_sql (service_roles cfg) in
  let names := map name (service_roles cfg) in
  let res := fst (create_service_roles cfg w target_database) in
  snd (create_service_roles cfg w target_database) = issue w stmts /\
  (forall n, dict_mem res n = true <-> In n names) /\
  List.length res <= List.length names /\
  (all_accepted w stmts = true -> forallb (fun b => b) (values res) = true) /\
  (forall before rc rest,
      service_roles cfg = before ++ rc :: rest ->
      ~ In (name rc) (map name rest) ->
      dict_get res (name rc)
      = Some (accepted (issue w (map role_create_sql before)) (role_create_sql rc))) /\
  create_system_full_roles cfg w target_database
  = create_service_roles (mkRbac (system_full_roles cfg) [] [] []) w target_database.
Proof.
  intros stmts names res. subst res.
  unfold create_service_roles, create_system_full_roles. cbn [service_roles].
  rewrite create_roles_fold. fold stmts names. cbn [fst snd].
  assert (L : List.length names = List.length (answers w stmts))
    by (subst names stmts; now rewrite answers_length, !length_map).
  split; [reflexivity|]. split; [|split; [|split; [|split]]].
  - intros n. rewrite assigned_mem, map_fst_combine by exact L.
    split; [intros [H|H]; [discriminate | exact H] | auto].
  - pose proof (assigned_length (combine names (answers w stmts)) []) as H.
    rewrite length_combine, <- L, Nat.min_id in H. exact H.
  - intros A. apply assigned_values; [reflexivity|].
    rewrite map_snd_combine by exact L. now rewrite <- answers_all_accepted.
  - intros before rc rest E N. subst names stmts. rewrite E.
    rewrite !map_app. cbn [map]. rewrite answers_app. cbn [answers].
    rewrite combine_app by (now rewrite answers_length, !length_map).
    cbn [combine]. apply assigned_last.
    intros H. apply N. now apply in_map_fst_combine in H.
  - reflexivity.
Qed.

(** Two configurations of the role SR: the first statement is rejected,
    the second accepted. *)
Lemma X10_witness :
  let cfg := mkRbac [mkRole "SR" (Some "first") None; mkRole "SR" None None] [] [] [] in
  let w := rejecting ["CREATE ROLE IF NOT EXISTS SR COMMENT = 'first'"] in
  (service_roles cfg = [mkRole "SR" (Some "first") None] ++ mkRole "SR" None None :: []
   /\ ~ In "SR" (map name [])) /\
  snd (create_service_roles cfg w "DEV")
  = issue w ["CREATE ROLE IF NOT EXISTS SR COMMENT = 'first'";
             "CREATE ROLE IF NOT EXISTS SR"] /\
  dict_get (fst (create_service_roles cfg w "DEV")) "SR" = Some true.
Proof.
  intros cfg w.
  assert (E : service_roles cfg
              = [mkRole "SR" (Some "first") None] ++ mkRole "SR" None None :: [])
    by reflexivity.
  assert (N : ~ In "SR" (map name [])) by (intros []).
  split; [split; assumption|].
  destruct (X10_create_roles_one_statement_per_role cfg w "DEV") as [W [_ [_ [_ [G _]]]]].
  split; [exact W|].
  exact (G [mkRole "SR" (Some "first") None] (mkRole "SR" None None) [] E N).
Defined.

(** ** Role hierarchy *)

Lemma hierarchy_child_step_spec (w : World) (results : odict bool) (e : string * string) :
  hierarchy_child_step (fst e) (w, results) (snd e)
  = (issue w [edge_sql e], dict_set results (edge_key e) (accepted w (edge_sql e))).
Proof.
  unfold hierarchy_child_step, edge_sql, edge_key. rewrite execute_accepted.
  unfold accepted. now destruct (responds w (issued w) _).
Qed.

Lemma hierarchy_fold_edges (hs : list Hierarchy) :
  forall st,
    fold_left hierarchy_step hs st
    = fold_left (fun st e => hierarchy_child_step (fst e) st (snd e))
                (flat_map (fun h => map (fun c => (parent h, c)) (children h)) hs) st.
Proof.
  induction hs as [|h hs IH]; intros st; [reflexivity|].
  cbn [fold_left flat_map]. rewrite fold_left_app, IH. f_equal.
  unfold hierarchy_step. generalize (children h) st. clear.
  induction l as [|c cs IHc]; intros st; [reflexivity|]. simpl. apply IHc.
Qed.

Lemma has_char_append (c : ascii) (a b : string) :
  has_char c (String.append a b) = has_char c a || has_char c b.
Proof.
  induction a as [|x a IH]; simpl; [reflexivity|]. now rewrite IH, orb_assoc.
Qed.

Lemma edge_key_not_summary (e : string * string) : edge_key e <> "summary".
Proof.
  intros H. assert (S : has_char " " (edge_key e) = true).
  { unfold edge_key, hierarchy_edge_key, fmt. simpl.
    rewrite has_char_append. simpl. apply orb_true_r. }
  rewrite H in S. discriminate S.
Qed.

(** X12. [setup_role_hierarchy] issues one GRANT ROLE child TO ROLE
    parent statement per configured parent and child, in the order of the
    configuration and whatever the answers.  Its result has an entry for
    exactly the keys [parent -> child] of the configured pairs, the flag
    of a key being the answer to the last statement made for it; all
    flags are true when all statements are accepted, and no key is the
    word summary. *)
Theorem X12_hierarchy_one_statement_per_edge (cfg : RbacConfig) (w : World) :
  let stmts := map edge_sql (edges cfg) in
  let res := fst (setup_role_hierarchy cfg w) in
  snd (setup_role_hierarchy cfg w) = issue w stmts /\
  (forall k, dict_mem res k = true <-> In k (map edge_key (edges cfg))) /\
  List.length res <= List.length stmts /\
  (all_accepted w stmts = true -> forallb (fun b => b) (values res) = true) /\
  (forall before e rest,
      edges cfg = before ++ e :: rest ->
      ~ In (edge_key e) (map edge_key rest) ->
      dict_get res (edge_key e)
      = Some (accepted (issue w (map edge_sql before)) (edge_sql e))) /\
  dict_mem res "summary" = false.
Proof.
  intros stmts res. subst res. unfold setup_role_hierarchy.
  rewrite hierarchy_fold_edges. fold (edges cfg).
  rewrite (fold_answers edge_sql (fun d e ok => dict_set d (edge_key e) ok))
    by (intros; apply hierarchy_child_step_spec).
  rewrite assigned_by_key. fold stmts. cbn [fst snd].
  set (ks := map edge_key (edges cfg)).
  assert (L : List.length ks = List.length (answers w stmts))
    by (subst ks stmts; now rewrite answers_length, !length_map).
  assert (M : forall k, dict_mem (assigned [] (combine ks (answers w stmts))) k = true
                        <-> In k ks).
  { intros k. rewrite assigned_mem, map_fst_combine by exact L.
    split; [intros [H|H]; [discriminate | exact H] | auto]. }
  split; [reflexivity|]. split; [exact M|]. split; [|split; [|split]].
  - pose proof (assigned_length (combine ks (answers w stmts)) []) as H.
    rewrite length_combine, <- L, Nat.min_id in H.
    subst ks stmts. rewrite !length_map in *. exact H.
  - intros A. apply assigned_values; [reflexivity|].
    rewrite map_snd_combine by exact L. now rewrite <- answers_all_accepted.
  - intros before e rest E N. subst ks stmts. rewrite E.
    rewrite !map_app. cbn [map]. rewrite answers_app. cbn [answers].
    rewrite combine_app by (now rewrite answers_length, !length_map).
    cbn [combine]. apply assigned_last.
    intros H. apply N. now apply in_map_fst_combine in H.
  - destruct (dict_mem (assigned [] (combine ks (answers w stmts))) "summary") eqn:S;
      [|reflexivity].
    apply M in S. subst ks. apply in_map_iff in S. destruct S as [e [S _]].
    now apply edge_key_not_summary in S.
Qed.

Lemma X12_witness :
  let cfg := mkRbac [] [] [mkHierarchy "ADMIN" ["SR_READ"; "SR_WRITE"];
                           mkHierarchy "SYSADMIN" ["ADMIN"]] [] in
  let w := rejecting ["GRANT ROLE SR_WRITE TO ROLE ADMIN"] in
  (edges cfg = [("ADMIN", "SR_READ")] ++ ("ADMIN", "SR_WRITE") :: [("SYSADMIN", "ADMIN")]
   /\ ~ In (edge_key ("ADMIN", "SR_WRITE")) (map edge_key [("SYSADMIN", "ADMIN")])) /\
  snd (setup_role_hierarchy cfg w)
  = issue w ["GRANT ROLE SR_READ TO ROLE ADMIN"; "GRANT ROLE SR_WRITE TO ROLE ADMIN";
             "GRANT ROLE ADMIN TO ROLE SYSADMIN"] /\
  dict_get (fst (setup_role_hierarchy cfg w)) "ADMIN -> SR_WRITE" = Some false.
Proof.
  intros cfg w.
  assert (E : edges cfg
              = [("ADMIN", "SR_READ")] ++ ("ADMIN", "SR_WRITE") :: [("SYSADMIN", "ADMIN")])
    by reflexivity.
  assert (N : ~ In (edge_key ("ADMIN", "SR_WRITE")) (map edge_key [("SYSADMIN", "ADMIN")]))
    by (intros [H|[]]; discriminate H).
  split; [split; assumption|].
  destruct (X12_hierarchy_one_statement_per_edge cfg w) as [W [_ [_ [_ [G _]]]]].
  split; [exact W|].
  exact (G [("ADMIN", "SR_READ")] ("ADMIN", "SR_WRITE") [("SYSADMIN", "ADMIN")] E N).
Defined.

(** ** User assignments *)

Lemma roles_with_length (rs : list string) :
  forall oks,
    List.length oks = List.length rs ->
    List.length (roles_with true rs oks) + List.length (roles_with false rs oks)
    = List.length rs.
Proof.
  unfold roles_with. induction rs as [|r rs IH]; intros [|ok oks] L; try discriminate;
    [reflexivity|].
  simpl in L. specialize (IH oks ltac:(lia)). destruct ok; simpl; lia.
Qed.

Lemma roles_with_false_nil (rs : list string) :
  forall oks,
    List.length oks = List.length rs ->
    (forallb (fun b => b) oks = true <-> roles_with false rs oks = []).
Proof.
  unfold roles_with. induction rs as [|r rs IH]; intros [|ok oks] L; try discriminate.
  - simpl. tauto.
  - simpl in L. specialize (IH oks ltac:(lia)).
    destruct ok; simpl; [exact IH|]. split; discriminate.
Qed.

Lemma assign_roles_fold (u : string) (rs : list string) :
  forall w ur s,
    let stmts := map (fun r => fmt ["GRANT ROLE "; r; " TO USER "; u]) rs in
    let oks := answers w stmts in
    fold_left (assign_role_step u) rs (w, ur, s)
    = (issue w stmts,
       mkUserResult (ur_username ur)
                    (assigned_roles ur ++ roles_with true rs oks)
                    (ur_failed_roles ur ++ roles_with false rs oks)
                    (ur_success ur && forallb (fun b => b) oks),
       mkASummary (total_assignments s + List.length rs)
                  (successful_assignments s + List.length (filter (fun b => b) oks))
                  (failed_assignments s + List.length (filter negb oks))).
Proof.
  induction rs as [|r rs IH]; intros w ur s.
  - simpl. rewrite issue_nil, !app_nil_r, andb_true_r, !Nat.add_0_r.
    now destruct ur, s.
  - cbn zeta in *. cbn [fold_left map answers]. unfold assign_role_step at 2.
    rewrite execute_accepted. unfold accepted, roles_with.
    destruct (responds w (issued w) _); rewrite IH, issue_issue;
      cbn [ur_username assigned_roles ur_failed_roles ur_success
           total_assignments successful_assignments failed_assignments
           combine filter map forallb fst snd Bool.eqb negb List.length app];
      unfold roles_with; rewrite <- ?app_assoc; cbn [app];
      rewrite ?andb_false_r; (f_equal; try reflexivity; f_equal; lia).
Qed.

Lemma assign_user_step_spec (w : World) (results : UsersResult) (u : UserConfig) :
  let oks := answers w (user_statements u) in
  assign_user_step (w, results) u
  = (issue w (user_statements u),
     mkUResult
       (dict_set (ua_users results) (username u)
                 (mkUserResult (username u)
                               (roles_with true (roles u) oks)
                               (roles_with false (roles u) oks)
                               (forallb (fun b => b) oks)))
       (mkASummary
          (total_assignments (ua_summary results) + List.length (roles u))
          (successful_assignments (ua_summary results)
           + List.length (filter (fun b => b) oks))
          (failed_assignments (ua_summary results) + List.length (filter negb oks)))).
Proof.
  intros oks. unfold assign_user_step. rewrite assign_roles_fold. reflexivity.
Qed.

Lemma assign_users_fold (users : list UserConfig) :
  forall w results,
    let stmts := flat_map user_statements users in
    let oks := answers w stmts in
    exists users',
      fold_left assign_user_step users (w, results)
      = (issue w stmts,
         mkUResult users'
           (mkASummary
              (total_assignments (ua_summary results) + List.length stmts)
              (successful_assignments (ua_summary results)
               + List.length (filter (fun b => b) oks))
              (failed_assignments (ua_summary results)
               + List.length (filter negb oks)))) /\
      (forall n, dict_mem users' n = true <->
                 dict_mem (ua_users results) n = true \/ In n (map username users)) /\
      (forall n ur, dict_get users' n = Some ur ->
                    dict_get (ua_users results) n = Some ur \/ user_result_ok users n ur).
Proof.
  induction users as [|u users IH]; intros w results.
  - exists (ua_users results). simpl. rewrite issue_nil, !Nat.add_0_r.
    split; [now destruct results as [? [? ? ?]]|]. split; [tauto | auto].
  - cbn zeta in *. cbn [fold_left flat_map]. rewrite assign_user_step_spec.
    match goal with
    | |- context [fold_left assign_user_step users (?w1, ?r1)] =>
        destruct (IH w1 r1) as [users' [E [M G]]]
    end.
    exists users'. rewrite E, issue_issue.
    cbn [ua_users ua_summary total_assignments successful_assignments
         failed_assignments] in *.
    rewrite answers_app, !filter_app, !length_app.
    assert (Lu : List.length (user_statements u) = List.length (roles u))
      by (unfold user_statements; apply length_map).
    rewrite Lu. split; [do 3 f_equal; lia|]. split.
    + intros n. rewrite M, dict_mem_set, orb_true_iff, String.eqb_eq. simpl.
      split; [intros [[H|H]|H] | intros [H|[H|H]]]; auto.
    + intros n ur H. destruct (G n ur H) as [H'|[U [S [u' [Hin X]]]]].
      * apply dict_get_set_inv in H'. destruct H' as [[-> ->]|[_ H']]; [|now left].
        right. split; [reflexivity|]. cbn [ur_success ur_failed_roles assigned_roles].
        assert (La : List.length (answers w (user_statements u)) = List.length (roles u))
          by (now rewrite answers_length).
        split; [now apply roles_with_false_nil|].
        exists u. split; [now left|]. split; [reflexivity|].
        now apply roles_with_length.
      * right. split; [exact U|]. split; [exact S|]. exists u'. split; [now right | exact X].
Qed.

Lemma filter_partition_length (oks : list bool) :
  List.length (filter (fun b => b) oks) + List.length (filter negb oks) = List.length oks.
Proof. induction oks as [|[] oks IH]; simpl; lia. Qed.

(** X13. [assign_users_to_roles] works on the list it is given or, when
    it is given none, on the example_users of the configuration (no
    users when that key is missing).  It issues one GRANT ROLE role TO
    USER user statement per user and role, in order and whatever the
    answers.  Its summary counts the statements: total_assignments is
    their number, successful_assignments the number accepted,
    failed_assignments the number rejected.  Every user has an entry
    under their name; in an entry, success is true exactly when
    failed_roles is empty, and the assigned and the failed roles together
    are as many as the roles of a user configured under that name. *)
Theorem X13_user_assignments_are_all_attempted_and_counted
        (cfg : RbacConfig) (w : World) (given : option (list UserConfig)) :
  let users :=
    match given with
    | Some l => l
    | None => match dict_get (user_assignments cfg) "example_users" with
              | Some l => l
              | None => []
              end
    end in
  let stmts := flat_map user_statements users in
  let oks := answers w stmts in
  let res := fst (assign_users_to_roles cfg w given) in
  snd (assign_users_to_roles cfg w given) = issue w stmts /\
  total_assignments (ua_summary res) = List.length stmts /\
  successful_assignments (ua_summary res) = List.length (filter (fun b => b) oks) /\
  failed_assignments (ua_summary res) = List.length (filter negb oks) /\
  successful_assignments (ua_summary res) + failed_assignments (ua_summary res)
  = total_assignments (ua_summary res) /\
  (forall n, dict_mem (ua_users res) n = true <-> In n (map username users)) /\
  (forall n ur, dict_get (ua_users res) n = Some ur -> user_result_ok users n ur).
Proof.
  intros users stmts oks res. subst res. unfold assign_users_to_roles. fold users.
  destruct (assign_users_fold users w (mkUResult [] (mkASummary 0 0 0)))
    as [users' [E [M G]]].
  fold stmts in E. fold oks in E. rewrite E.
  cbn [fst snd ua_users ua_summary total_assignments successful_assignments
       failed_assignments Nat.add] in *.
  split; [reflexivity|]. split; [reflexivity|]. split; [reflexivity|].
  split; [reflexivity|]. split; [|split].
  - rewrite filter_partition_length. subst oks. apply answers_length.
  - intros n. rewrite M. split; [intros [H|H]; [discriminate | exact H] | auto].
  - intros n ur H. destruct (G n ur H) as [H'|H']; [discriminate | exact H'].
Qed.

Lemma X13_witness :
  let users := [mkUser "ALICE" ["SR_READ"; "SR_WRITE"]; mkUser "BOB" ["SR_READ"]] in
  let w := rejecting ["GRANT ROLE SR_WRITE TO USER ALICE"] in
  let res := fst (assign_users_to_roles (mkRbac [] [] [] []) w (Some users)) in
  dict_get (ua_users res) "ALICE"
  = Some (mkUserResult "ALICE" ["SR_READ"] ["SR_WRITE"] false) /\
  user_result_ok users "ALICE" (mkUserResult "ALICE" ["SR_READ"] ["SR_WRITE"] false) /\
  ua_summary res = mkASummary 3 2 1.
Proof.
  intros users w res.
  assert (H : dict_get (ua_users res) "ALICE"
              = Some (mkUserResult "ALICE" ["SR_READ"] ["SR_WRITE"] false))
    by reflexivity.
  split; [exact H|]. split; [|reflexivity].
  destruct (X13_user_assignments_are_all_attempted_and_counted
              (mkRbac [] [] [] []) w (Some users)) as [_ [_ [_ [_ [_ [_ G]]]]]].
  exact (G "ALICE" _ H).
Defined.

(** ** Privileges of all roles *)

Lemma apply_role_privileges_role (w : World) (role_name target_database : string)
      (privileges : nullable PrivilegesConfig) :
  role (fst (_apply_role_privileges w role_name privileges target_database)) = role_name.
Proof.
  now destruct (apply_role_spec w role_name target_database privileges) as [R _].
Qed.

Lemma apply_role_step_spec (target_database : string) (w : World) (r : PrivilegesResult)
      (rc : RoleConfig) :
  let r' := snd (apply_role_step target_database (w, r) rc) in
  pr_target_database r' = pr_target_database r /\
  total_roles (pr_summary r') = total_roles (pr_summary r) + 1 /\
  (forall n, dict_mem (pr_roles r') n = true <->
             dict_mem (pr_roles r) n = true \/ n = name rc) /\
  (privileges_report_ok r -> privileges_report_ok r').
Proof.
  intros r'. subst r'. unfold apply_role_step.
  pose proof (apply_role_privileges_role
                w (name rc)
                target_database
                (match privileges rc with
                 | Some p => p
                 | None => NotNone no_privileges
                 end)) as Hrole.
  destruct (_apply_role_privileges w (name rc) _ target_database) as [rr w1].
  cbn [fst snd pr_target_database pr_summary pr_roles total_roles successful_roles
       failed_roles] in *.
  split; [reflexivity|]. split; [reflexivity|]. split.
  - intros n. rewrite dict_mem_set, orb_true_iff, String.eqb_eq.
    split; intros [H|H]; auto.
  - intros [I1 [I2 [I3 I4]]]. unfold privileges_report_ok.
    cbn [pr_summary pr_roles total_roles successful_roles failed_roles].
    split; [destruct (success rr); lia|]. split; [|split].
    + rewrite dict_set_length. destruct (dict_mem (pr_roles r) (name rc)); lia.
    + intros F. destruct (success rr) eqn:S; [|lia].
      apply (assigned_values success [(name rc, rr)] (pr_roles r)); [now apply I3|].
      simpl. now rewrite S.
    + intros n rr' G. apply dict_get_set_inv in G.
      destruct G as [[-> ->]|[_ G]]; [exact Hrole | now apply I4].
Qed.

Lemma apply_roles_fold (target_database : string) (rcs : list RoleConfig) :
  forall w r,
    let r' := snd (fold_left (apply_role_step target_database) rcs (w, r)) in
    pr_target_database r' = pr_target_database r /\
    total_roles (pr_summary r') = total_roles (pr_summary r) + List.length rcs /\
    (forall n, dict_mem (pr_roles r') n = true <->
               dict_mem (pr_roles r) n = true \/ In n (map name rcs)) /\
    (privileges_report_ok r -> privileges_report_ok r').
Proof.
  induction rcs as [|rc rcs IH]; intros w r.
  - simpl. rewrite Nat.add_0_r. split; [reflexivity|]. split; [reflexivity|].
    split; [intros n; tauto | auto].
  - cbn zeta in *. cbn [fold_left].
    destruct (apply_role_step target_database (w, r) rc) as [w1 r1] eqn:E.
    pose proof (apply_role_step_spec target_database w r rc) as S.
    cbn zeta in S. rewrite E in S. cbn [snd] in S. destruct S as [S1 [S2 [S3 S4]]].
    destruct (IH w1 r1) as [H1 [H2 [H3 H4]]].
    split; [congruence|]. split; [rewrite H2, S2; simpl; lia|]. split; [|auto].
    intros n. rewrite H3, S3. simpl. split; [intros [[H|H]|H] | intros [H|[H|H]]]; auto.
Qed.

Lemma apply_role_types_spec (cfg : RbacConfig) (target_database : string)
      (role_types : list string) :
  forall w r r' w',
    apply_role_types cfg target_database role_types (w, r) = (Returns r', w') ->
    pr_target_database r' = pr_target_database r /\
    total_roles (pr_summary r')
    = total_roles (pr_summary r) + List.length (configured_roles cfg role_types) /\
    (forall n, dict_mem (pr_roles r') n = true <->
               dict_mem (pr_roles r) n = true
               \/ In n (map name (configured_roles cfg role_types))) /\
    (privileges_report_ok r -> privileges_report_ok r').
Proof.
  induction role_types as [|t ts IH]; intros w r r' w' H.
  - simpl in H. inversion H; subst. simpl. rewrite Nat.add_0_r.
    split; [reflexivity|]. split; [reflexivity|]. split; [intros n; tauto | auto].
  - cbn [apply_role_types] in H.
    destruct (roles_of_type cfg t) as [rcs|e] eqn:R; [|discriminate].
    assert (C : (if String.eqb t "service_roles" then service_roles cfg
                 else if String.eqb t "system_full_roles" then system_full_roles cfg
                      else []) = rcs).
    { unfold roles_of_type in R.
      destruct (String.eqb t "service_roles"); [congruence|].
      destruct (String.eqb t "system_full_roles"); [congruence|].
      destruct (String.eqb t "role_hierarchy");
        [destruct (role_hierarchy cfg); congruence|].
      destruct (String.eqb t "user_assignments");
        [destruct (user_assignments cfg); congruence | congruence]. }
    destruct (fold_left (apply_role_step target_database) rcs (w, r)) as [w1 r1] eqn:E.
    pose proof (apply_roles_fold target_database rcs w r) as S.
    cbn zeta in S. rewrite E in S. cbn [snd] in S. destruct S as [S1 [S2 [S3 S4]]].
    destruct (IH _ _ _ _ H) as [H1 [H2 [H3 H4]]].
    unfold configured_roles in *. cbn [flat_map]. rewrite C, length_app, map_app.
    split; [congruence|]. split; [lia|]. split; [|auto].
    intros n. rewrite H3, S3, in_app_iff. tauto.
Qed.

(** X11. [apply_role_privileges] goes over the roles of the role types
    it is given (both categories when it is given none; a type that names
    no role list adds nothing).  In its report total_roles is the number
    of role configurations visited and equals successful_roles +
    failed_roles; every visited role has an entry, stored under its name,
    so a name configured more than once is counted each time and has one
    entry; and when failed_roles is 0 every entry has success = true.
    Without role types the call always returns a report. *)
Theorem X11_privileges_report_counts_every_role
        (cfg : RbacConfig) (w : World) (target_database : string)
        (role_types : option (list string)) :
  let types :=
    match role_types with
    | None => ["service_roles"; "system_full_roles"]
    | Some l => l
    end in
  (forall r,
      fst (apply_role_privileges cfg w target_database role_types) = Returns r ->
      pr_target_database r = target_database /\
      total_roles (pr_summary r) = List.length (configured_roles cfg types) /\
      (forall n, dict_mem (pr_roles r) n = true <->
                 In n (map name (configured_roles cfg types))) /\
      privileges_report_ok r) /\
  (role_types = None ->
   exists r,
     fst (apply_role_privileges cfg w target_database role_types) = Returns r
     /\ total_roles (pr_summary r)
        = List.length (service_roles cfg) + List.length (system_full_roles cfg)).
Proof.
  intros types. unfold apply_role_privileges. fold types.
  set (r0 := mkPResult target_database [] (mkPSummary 0 0 0)).
  assert (Ok0 : privileges_report_ok r0).
  { unfold privileges_report_ok. simpl. repeat split; auto. intros n rr H. discriminate H. }
  assert (Main : forall r,
             fst (apply_role_types cfg target_database types (w, r0)) = Returns r ->
             pr_target_database r = target_database /\
             total_roles (pr_summary r) = List.length (configured_roles cfg types) /\
             (forall n, dict_mem (pr_roles r) n = true <->
                        In n (map name (configured_roles cfg types))) /\
             privileges_report_ok r).
  { intros r H.
    destruct (apply_role_types cfg target_database types (w, r0)) as [o w'] eqn:E.
    cbn [fst] in H. subst o.
    destruct (apply_role_types_spec _ _ _ _ _ _ _ E) as [H1 [H2 [H3 H4]]].
    split; [exact H1|]. split; [exact H2|]. split; [|auto].
    intros n. rewrite H3. simpl. split; [intros [X|X]; [discriminate | exact X] | auto]. }
  split; [exact Main|].
  intros ->. subst types.
  set (st := fold_left (apply_role_step target_database) (system_full_roles cfg)
                       (fold_left (apply_role_step target_database) (service_roles cfg)
                                  (w, r0))).
  assert (E : apply_role_types cfg target_database
                               ["service_roles"; "system_full_roles"] (w, r0)
              = (Returns (snd st), fst st)) by reflexivity.
  exists (snd st). rewrite E. split; [reflexivity|].
  destruct (Main (snd st)) as [_ [T _]]; [now rewrite E|].
  rewrite T. simpl. now rewrite app_nil_r, length_app.
Qed.

(** The role SHARED is configured in both categories. *)
Lemma X11_witness :
  let cfg := mkRbac [mkRole "SR_READ" None None; mkRole "SHARED" None None]
                    [mkRole "SHARED" None None] [] [] in
  exists r,
    fst (apply_role_privileges cfg accepting "DEV" None) = Returns r /\
    total_roles (pr_summary r) = 3 /\
    keys (pr_roles r) = ["SR_READ"; "SHARED"] /\
    privileges_report_ok r.
Proof.
  intros cfg.
  destruct (X11_privileges_report_counts_every_role cfg accepting "DEV" None) as [A B].
  destruct (B eq_refl) as [r [E T]].
  exists r. split; [exact E|]. split; [exact T|].
  split; [|exact (proj2 (proj2 (proj2 (A r E))))].
  vm_compute in E. inversion E. reflexivity.
Defined.

(** ** Complete setup: the verdict *)

Lemma check_phases_returns (phase : string) (result : PhaseResult) (b : bool)
      (rest : odict PhaseResult) (failed : list string) :
  phase_failed phase result = Returns b ->
  check_phases ((phase, result) :: rest) failed
  = check_phases rest (failed ++ listed_if b phase).
Proof.
  intros H. cbn [check_phases]. rewrite H. destruct b; simpl; [reflexivity|].
  now rewrite app_nil_r.
Qed.

Lemma check_phases_raises (phase : string) (result : PhaseResult) (e : exn)
      (rest : odict PhaseResult) (failed : list string) :
  phase_failed phase result = Raises e ->
  check_phases ((phase, result) :: rest) failed = Raises e.
Proof. intros H. cbn [check_phases]. now rewrite H. Qed.

Lemma phase_failed_summary_key (phase : string) (d : odict bool) :
  dict_mem d "summary" = true ->
  phase_failed phase (PhaseFlags d) = Raises AttributeError.
Proof. intros H. unfold phase_failed. simpl. now rewrite H. Qed.

(** The check loop on the stored phases: it raises when a flag report
    has a key named summary, and otherwise returns the failing phases. *)
Lemma check_stored_phases (sr sf : odict bool) (pr : PrivilegesResult) (h : odict bool)
      (ou : option UsersResult) :
  check_phases (stored_phases sr sf pr h ou) []
  = if dict_mem sr "summary" || dict_mem sf "summary" || dict_mem h "summary"
    then Raises AttributeError
    else Returns (failing_phases sr sf pr h ou).
Proof.
  unfold stored_phases, failing_phases. cbn [app].
  destruct (dict_mem sr "summary") eqn:Msr;
    [now rewrite (check_phases_raises _ _ _ _ _ (phase_failed_summary_key _ _ Msr))|].
  rewrite (check_phases_returns _ _ _ _ _ (phase_failed_flags _ _ Msr)).
  destruct (dict_mem sf "summary") eqn:Msf;
    [now rewrite (check_phases_raises _ _ _ _ _ (phase_failed_summary_key _ _ Msf))|].
  rewrite (check_phases_returns _ _ _ _ _ (phase_failed_flags _ _ Msf)).
  rewrite (check_phases_returns _ _ _ _ _ (phase_failed_privileges _ _)).
  destruct (dict_mem h "summary") eqn:Mh;
    [now rewrite (check_phases_raises _ _ _ _ _ (phase_failed_summary_key _ _ Mh))|].
  rewrite (check_phases_returns _ _ _ _ _ (phase_failed_flags _ _ Mh)).
  cbn [orb app].
  destruct ou as [u|].
  - rewrite (check_phases_returns _ _ _ _ _ (phase_failed_users _ _)).
    cbn [check_phases]. now rewrite <- !app_assoc.
  - cbn [check_phases]. now rewrite app_nil_r, <- !app_assoc.
Qed.

(** The setup, phase by phase. *)
Lemma setup_unfolded (cfg : RbacConfig) (w : World) (target_database : string)
      (role_types : option (list string)) :
  let sr := fst (create_service_roles cfg w target_database) in
  let w1 := snd (create_service_roles cfg w target_database) in
  let sf := fst (create_system_full_roles cfg w1 target_database) in
  let w2 := snd (create_system_full_roles cfg w1 target_database) in
  let r := fst (complete_rbac_setup cfg w target_database role_types) in
  match apply_role_privileges cfg w2 target_database role_types with
  | (Raises e, _) =>
      r = mkSetup target_database
                  [("service_roles", PhaseFlags sr); ("system_full_roles", PhaseFlags sf)]
                  false None (Some e)
  | (Returns pr, w3) =>
      let h := fst (setup_role_hierarchy cfg w3) in
      let w4 := snd (setup_role_hierarchy cfg w3) in
      let ou := match user_assignments cfg with
                | [] => None
                | _ :: _ => Some (fst (assign_users_to_roles cfg w4 None))
                end in
      let stored := stored_phases sr sf pr h ou in
      r = match check_phases stored [] with
          | Raises e => mkSetup target_database stored false None (Some e)
          | Returns [] => mkSetup target_database stored true None None
          | Returns (p :: ps) => mkSetup target_database stored false (Some (p :: ps)) None
          end
  end.
Proof.
  intros sr w1 sf w2 r. subst r sr w1 sf w2. unfold complete_rbac_setup.
  destruct (create_service_roles cfg w target_database) as [sr w1]. cbn [fst snd].
  destruct (create_system_full_roles cfg w1 target_database) as [sf w2]. cbn [fst snd].
  destruct (apply_role_privileges cfg w2 target_database role_types) as [[pr|e] w3];
    [|reflexivity].
  destruct (setup_role_hierarchy cfg w3) as [h w4]. cbn [fst snd].
  destruct (user_assignments cfg) as [|g gs].
  - unfold stored_phases. cbn [app dict_set String.eqb Ascii.eqb Bool.eqb].
    simpl dict_set. now destruct (check_phases _ []) as [[|p ps]|e].
  - destruct (assign_users_to_roles cfg w4 None) as [u w5]. cbn [fst].
    unfold stored_phases. simpl dict_set. cbn [app].
    now destruct (check_phases _ []) as [[|p ps]|e].
Qed.

(** X14. The verdict of [complete_rbac_setup].  When the result carries
    an error, overall_success is false and no failed_phases are listed.
    When it carries none, the phases stored are the four reports, and the
    user-assignment report exactly when the configuration has user
    assignments, and failed_phases lists, in phase order: a role-creation
    or hierarchy phase with a false flag; the privileges phase when it
    has failed roles, or an empty target database, or no role in its
    report; the user-assignment phase when its report has no user (its
    failed assignments are not read).  overall_success is true exactly
    when that list is empty, in which case failed_phases is absent. *)
Theorem X14_setup_verdict
        (cfg : RbacConfig) (w : World) (target_database : string)
        (role_types : option (list string)) :
  let r := fst (complete_rbac_setup cfg w target_database role_types) in
  (s_error r <> None -> overall_success r = false /\ failed_phases r = None) /\
  (s_error r = None ->
   exists sr sf pr h ou,
     phases r = stored_phases sr sf pr h ou /\
     (ou = None <-> user_assignments cfg = []) /\
     overall_success r
     = match failing_phases sr sf pr h ou with [] => true | _ :: _ => false end /\
     failed_phases r
     = match failing_phases sr sf pr h ou with [] => None | p :: ps => Some (p :: ps) end).
Proof.
  intros r. pose proof (setup_unfolded cfg w target_database role_types) as U.
  cbv zeta in U. fold r in U.
  destruct (apply_role_privileges cfg _ target_database role_types) as [[pr|e] w3].
  - set (sr := fst (create_service_roles cfg w target_database)) in *.
    set (sf := fst (create_system_full_roles cfg _ target_database)) in *.
    set (h := fst (setup_role_hierarchy cfg w3)) in *.
    set (ou := match user_assignments cfg with
               | [] => None
               | _ :: _ => Some (fst (assign_users_to_roles cfg _ None))
               end) in *.
    assert (Hou : ou = None <-> user_assignments cfg = []).
    { subst ou. destruct (user_assignments cfg); split; intros H; try reflexivity;
        discriminate H. }
    rewrite check_stored_phases in U.
    destruct (dict_mem sr "summary" || dict_mem sf "summary" || dict_mem h "summary").
    + rewrite U. cbn [s_error overall_success failed_phases].
      split; [auto | discriminate].
    + destruct (failing_phases sr sf pr h ou) as [|p ps] eqn:F; rewrite U;
        cbn [s_error overall_success failed_phases phases];
        (split; [intros N; now elim N|]); intros _;
        exists sr, sf, pr, h, ou; rewrite F; auto.
  - rewrite U. cbn [s_error overall_success failed_phases].
    split; [auto | discriminate].
Qed.

(** Nothing is rejected, and the one user group configured is not
    example_users: the user-assignment phase is listed as failed. *)
Lemma X14_witness :
  let cfg := mkRbac [mkRole "SR_READ" None None] [] []
                    [("admins", [mkUser "ALICE" ["SR_READ"]])] in
  let r := fst (complete_rbac_setup cfg accepting "DEV" None) in
  s_error r = None /\
  overall_success r = false /\ failed_phases r = Some ["user_assignments"].
Proof.
  intros cfg r.
  assert (E : s_error r = None) by reflexivity.
  split; [exact E|].
  destruct (X14_setup_verdict cfg accepting "DEV" None) as [_ V].
  destruct (V E) as [sr [sf [pr [h [ou [P [_ [O F]]]]]]]].
  fold r in P, O, F. rewrite O, F.
  assert (X : failing_phases sr sf pr h ou = ["user_assignments"]).
  { vm_compute in P. destruct ou as [u|]; [|discriminate P].
    unfold stored_phases in P. cbn [app] in P. inversion P; subst. reflexivity. }
  rewrite X. split; reflexivity.
Defined.





(** ** Audit: failures and statements *)

Lemma audit_roles_app (l1 l2 : list Row) :
  forall a,
    audit_roles (l1 ++ l2) a
    = match audit_roles l1 a with
      | (None, a1) => audit_roles l2 a1
      | (Some e, a1) => (Some e, a1)
      end.
Proof.
  induction l1 as [|row l1 IH]; intros a; [reflexivity|].
  cbn [app audit_roles]. destruct (index row 1); [|reflexivity].
  destruct (index row 0); [apply IH | reflexivity].
Qed.

Lemma audit_grants_world (names : list string) :
  forall w a,
    fst (fold_left audit_grants_step names (w, a)) = issue w (map show_grants names).
Proof.
  induction names as [|n names IH]; intros w a.
  - simpl. now rewrite issue_nil.
  - cbn [fold_left map]. unfold audit_grants_step at 2. rewrite execute_accepted.
    destruct (responds w (issued w) (show_grants n)) as [rows|].
    + destruct (grant_infos rows) as [[|g gs]|e]; rewrite IH, issue_issue; reflexivity.
    + rewrite IH, issue_issue. reflexivity.
Qed.

Lemma audit_grants_database (names : list string) :
  forall w a,
    au_target_database (snd (fold_left audit_grants_step names (w, a)))
    = au_target_database a.
Proof.
  induction names as [|n names IH]; intros w a; [reflexivity|].
  cbn [fold_left]. unfold audit_grants_step at 2.
  destruct (execute w (show_grants n)) as [[rs|e] w1]; [|apply IH].
  destruct (grant_infos rs) as [[|g gs]|e]; rewrite IH; reflexivity.
Qed.

(** X16. The two failures of the role listing end the audit before any
    grant is listed, and are reported in the result instead of being
    raised.  A rejected SHOW ROLES gives an empty audit with the error.
    A role row too short to hold a name gives the error too; the roles
    listed before that row are kept and counted, and the grants mapping
    is empty. *)
Theorem X16_audit_role_listing_failures (w : World) (target_database : string) :
  (accepted w "SHOW ROLES" = false ->
   audit_rbac_configuration w target_database
   = (mkAudit target_database [] [] (mkAuSummary 0 0 0) (Some DatabaseError),
      issue w ["SHOW ROLES"])) /\
  (forall good bad rest,
      responds w (issued w) "SHOW ROLES" = Rows (good ++ bad :: rest) ->
      Forall (fun row => 2 <= List.length row) good ->
      List.length bad < 2 ->
      let a := fst (audit_rbac_configuration w target_database) in
      snd (audit_rbac_configuration w target_database) = issue w ["SHOW ROLES"] /\
      au_error a = Some IndexError /\
      au_total_roles (au_summary a) = List.length good /\
      (forall n, In n (keys (au_roles a)) <->
                 exists row, In row good /\ nth_error row 1 = Some n) /\
      grants a = [] /\ roles_with_grants (au_summary a) = 0).
Proof.
  unfold audit_rbac_configuration. rewrite execute_accepted. unfold accepted.
  destruct (responds w (issued w) "SHOW ROLES") as [rows|].
  - split; [discriminate|].
    intros good bad rest R F Hbad. inversion R; subst rows.
    rewrite audit_roles_app.
    destruct (audit_roles_spec good F (mkAudit target_database [] [] (mkAuSummary 0 0 0) None))
      as [droles [E [K _]]].
    rewrite E. cbn [au_target_database grants au_summary au_total_roles
                    roles_with_grants users_with_roles au_error Nat.add].
    assert (B : forall a, audit_roles (bad :: rest) a = (Some IndexError, a)).
    { intros a. destruct bad as [|c0 [|c1 cells]]; simpl in Hbad; try lia; reflexivity. }
    rewrite B. cbn [fst snd with_error au_error au_summary au_total_roles au_roles grants
                    roles_with_grants].
    split; [reflexivity|]. split; [reflexivity|]. split; [reflexivity|].
    split; [|split; reflexivity].
    intros n. rewrite K. simpl. tauto.
  - split; [reflexivity|]. intros good bad rest R. discriminate R.
Qed.

Lemma X16_witness :
  let w := mkWorld (fun _ sql =>
                      if String.eqb sql "SHOW ROLES"
                      then Rows [["2024-01-01"; "R1"]; ["2024-01-02"]; ["2024-01-03"; "R3"]]
                      else Rows [["d"; "USAGE"; "DATABASE"; "DEV"]]) [] in
  let a := fst (audit_rbac_configuration w "DEV") in
  (Forall (fun row => 2 <= List.length row) [["2024-01-01"; "R1"]]
   /\ List.length ["2024-01-02"] < 2) /\
  au_error a = Some IndexError /\ au_total_roles (au_summary a) = 1 /\ grants a = [].
Proof.
  intros w a.
  assert (F : Forall (fun row => 2 <= List.length row) [["2024-01-01"; "R1"]])
    by (repeat constructor; simpl; lia).
  assert (B : List.length ["2024-01-02"] < 2) by (simpl; lia).
  split; [split; assumption|].
  destruct (X16_audit_role_listing_failures w "DEV") as [_ H].
  destruct (H [["2024-01-01"; "R1"]] ["2024-01-02"] [["2024-01-03"; "R3"]] eq_refl F B)
    as [_ [E [T [_ [G _]]]]].
  split; [exact E|]. split; [exact T | exact G].
Defined.

(** X17. When SHOW ROLES answers with rows that all hold a name, the
    audit issues SHOW ROLES and then one SHOW GRANTS TO ROLE statement
    per name of the roles mapping, in the order of the mapping and
    whatever the answers: a name listed twice is queried once.  It issues
    nothing else, and the result names the database it was given. *)
Theorem X17_audit_statements
        (w : World) (target_database : string) (rows : list Row) :
  responds w (issued w) "SHOW ROLES" = Rows rows ->
  Forall (fun row => 2 <= List.length row) rows ->
  let a := fst (audit_rbac_configuration w target_database) in
  snd (audit_rbac_configuration w target_database)
  = issue w ("SHOW ROLES" :: map show_grants (keys (au_roles a))) /\
  NoDup (keys (au_roles a)) /\
  List.length (keys (au_roles a)) <= List.length rows /\
  au_target_database a = target_database.
Proof.
  intros R F a. subst a. unfold audit_rbac_configuration.
  rewrite execute_accepted, R.
  destruct (audit_roles_spec rows F (mkAudit target_database [] [] (mkAuSummary 0 0 0) None))
    as [droles [E [K N]]].
  rewrite E. cbn [fst snd].
  set (a1 := mkAudit _ droles _ _ _).
  assert (Nd : NoDup (keys droles)) by (apply N; constructor).
  destruct (audit_grants_spec (keys droles) (issue w ["SHOW ROLES"]) a1 Nd)
    as [Ro [_ _]]; [reflexivity | reflexivity |].
  pose proof (audit_grants_world (keys droles) (issue w ["SHOW ROLES"]) a1) as W.
  cbn [au_roles a1] in *. rewrite Ro, W, issue_issue.
  split; [reflexivity|]. split; [exact Nd|]. split.
  - apply NoDup_incl_length with (l' := map (fun row => nth 1 row "") rows) in Nd.
    + now rewrite length_map in Nd.
    + intros n Hn. apply K in Hn. destruct Hn as [[]|[row [Hin Hn]]].
      apply in_map_iff. exists row. split; [|exact Hin].
      destruct row as [|c0 [|c1 cells]]; simpl in *; congruence.
  - now rewrite audit_grants_database.
Qed.

(** The role R1 is listed twice. *)
Lemma X17_witness :
  let rows := [["2024-01-01"; "R1"]; ["2024-01-02"; "R2"; "ADMIN"]; ["2024-01-03"; "R1"]] in
  let w := mkWorld (fun _ sql =>
                      if String.eqb sql "SHOW ROLES" then Rows rows
                      else if String.eqb sql "SHOW GRANTS TO ROLE R1" then Failure
                      else Rows []) [] in
  Forall (fun row => 2 <= List.length row) rows /\
  snd (audit_rbac_configuration w "DEV")
  = issue w ["SHOW ROLES"; "SHOW GRANTS TO ROLE R1"; "SHOW GRANTS TO ROLE R2"].
Proof.
  intros rows w.
  assert (F : Forall (fun row => 2 <= List.length row) rows)
    by (repeat constructor; simpl; lia).
  split; [exact F|].
  exact (proj1 (X17_audit_statements w "DEV" rows eq_refl F)).
Defined.
